(** * pi-webserver: routing, mount registry and layered authorization

    A shallow embedding of [src/server.ts] (the version with the /api
    namespace and bearer tokens) and the properties of its router, its two
    authentication gates, its mount registry and its server life cycle.

    JavaScript strings are sequences of UTF-16 code units and are modelled
    as lists of numbers; the module-level variables of [server.ts] become
    the fields of one [State] record that every operation receives and
    returns; the response object [res] is threaded through the request
    handler; a JavaScript exception is the [Throw] case of [Exc]. *)

From Stdlib Require Import List ZArith NArith Lia Bool String Ascii.
Import ListNotations.

Set Implicit Arguments.

(* ================================================================== *)
(** * JavaScript strings *)
(* ================================================================== *)

Module JS.

(** A UTF-16 code unit, 0 .. 65535. *)
Abbreviation codeunit := N.

Abbreviation jsstring := (list codeunit).

(** A string literal of the source (ASCII only). *)
Definition lit (s : string) : jsstring :=
  List.map N_of_ascii (list_ascii_of_string s).

(** [a === b] on strings. *)
Fixpoint eqb (a b : jsstring) : bool :=
  match a, b with
  | [], [] => true
  | x :: a', y :: b' => N.eqb x y && eqb a' b'
  | _, _ => false
  end.

(** [s.startsWith(p)]. *)
Fixpoint startsWith (s p : jsstring) {struct p} : bool :=
  match p with
  | [] => true
  | c :: p' =>
      match s with
      | [] => false
      | d :: s' => N.eqb d c && startsWith s' p'
      end
  end.

(** The relative index of [slice]: negative counts from the end, and the
    result is clamped to [0 .. len]. *)
Definition clampIndex (len i : Z) : Z :=
  if (i <? 0)%Z then Z.max (len + i) 0 else Z.min i len.

(** [s.slice(b)] when [e = None], [s.slice(b, e)] otherwise. *)
Definition slice (s : jsstring) (b : Z) (e : option Z) : jsstring :=
  let len := Z.of_nat (List.length s) in
  let from := clampIndex len b in
  let to := match e with None => len | Some e' => clampIndex len e' end in
  firstn (Z.to_nat (to - from)) (skipn (Z.to_nat from) s).

(** [s.length] as a JavaScript number. *)
Definition length (s : jsstring) : Z := Z.of_nat (List.length s).

Fixpoint indexOfFrom (s pat : jsstring) (i : Z) : Z :=
  if startsWith s pat then i
  else match s with
       | [] => (-1)%Z
       | _ :: s' => indexOfFrom s' pat (i + 1)
       end.

(** [s.indexOf(pat)]: the first position of [pat], or -1. *)
Definition indexOf (s pat : jsstring) : Z := indexOfFrom s pat 0.

Definition slash : codeunit := 47%N.

(** Does [/\/+$/] match the whole of [s]: one or more slashes, nothing
    else. *)
Definition allSlashes (s : jsstring) : bool :=
  match s with
  | [] => false
  | _ => forallb (N.eqb slash) s
  end.

(** [s.replace(/\/+$/, "")]: the leftmost position from which the rest
    of the string is a non-empty run of slashes is where the match
    starts, and the match is deleted. *)
Fixpoint replaceTrailingSlashes (s : jsstring) : jsstring :=
  match s with
  | [] => []
  | c :: t => if allSlashes (c :: t) then [] else c :: replaceTrailingSlashes t
  end.

(** Truthiness of a [string | null]: [null] and [""] are falsy. *)
Definition truthy (a : option jsstring) : bool :=
  match a with
  | Some (_ :: _) => true
  | _ => false
  end.

(** [a ?? d]. *)
Definition orElse (a : option jsstring) (d : jsstring) : jsstring :=
  match a with Some x => x | None => d end.

(** [s || d] on strings: the empty string is falsy. *)
Definition orDefault (s d : jsstring) : jsstring :=
  match s with [] => d | _ => s end.

(** Every code unit is below 256: what Node's HTTP parser delivers for a
    header value (header bytes are decoded as latin1). *)
Definition latin1 (s : jsstring) : Prop := Forall (fun c => (c < 256)%N) s.

End JS.

Abbreviation jsstring := JS.jsstring.

(* ================================================================== *)
(** * Exceptions *)
(* ================================================================== *)

(** A JavaScript [Error] with its [message]. *)
Record JsError := mkError { message : jsstring }.

Inductive Exc (A : Type) : Type :=
| Ok (a : A)
| Throw (e : JsError).

Arguments Ok {A} a.
Arguments Throw {A} e.

Definition bindExc {A B : Type} (m : Exc A) (k : A -> Exc B) : Exc B :=
  match m with
  | Ok a => k a
  | Throw e => Throw e
  end.

Notation "x <- m ;; k" := (bindExc m (fun x => k))
  (at level 61, m at next level, right associativity).

(* ================================================================== *)
(** * Buffers and [crypto.timingSafeEqual] (Node runtime) *)
(* ================================================================== *)

Module Buffer.

Abbreviation byte := N.
Abbreviation buffer := (list byte).

Definition isHighSurrogate (u : N) : bool := (0xD800 <=? u)%N && (u <? 0xDC00)%N.
Definition isLowSurrogate (u : N) : bool := (0xDC00 <=? u)%N && (u <? 0xE000)%N.

(** U+FFFD, written for a surrogate that has no partner. *)
Definition replacement : buffer := [0xEF; 0xBF; 0xBD]%N.

Definition encode3 (u : N) : buffer :=
  [0xE0 + u / 4096; 0x80 + (u / 64) mod 64; 0x80 + u mod 64]%N.

Definition encode4 (cp : N) : buffer :=
  [0xF0 + cp / 262144; 0x80 + (cp / 4096) mod 64;
   0x80 + (cp / 64) mod 64; 0x80 + cp mod 64]%N.

(** [Buffer.from(s)]: the UTF-8 encoding of a UTF-16 string. *)
Fixpoint from (s : jsstring) : buffer :=
  match s with
  | [] => []
  | u :: t =>
      if (u <? 0x80)%N then u :: from t
      else if (u <? 0x800)%N then (0xC0 + u / 64)%N :: (0x80 + u mod 64)%N :: from t
      else if isHighSurrogate u then
        match t with
        | l :: t' =>
            if isLowSurrogate l
            then encode4 (0x10000 + (u - 0xD800) * 0x400 + (l - 0xDC00))%N ++ from t'
            else replacement ++ from t
        | [] => replacement
        end
      else if isLowSurrogate u then replacement ++ from t
      else encode3 u ++ from t
  end.

(** The accumulator of a comparison that looks at every byte: the bitwise
    or of the bytewise exclusive ors. *)
Fixpoint diffBits (a b : buffer) (acc : N) : N :=
  match a, b with
  | x :: a', y :: b' => diffBits a' b' (N.lor acc (N.lxor x y))
  | _, _ => acc
  end.

(** [crypto.timingSafeEqual(a, b)]: throws a RangeError when the byte
    lengths differ, and otherwise compares all the bytes. *)
Definition timingSafeEqual (a b : buffer) : Exc bool :=
  if Nat.eqb (List.length a) (List.length b)
  then Ok (N.eqb (diffBits a b 0) 0)
  else Throw (mkError (JS.lit "Input buffers must have the same byte length")).

(** ** The course of a comparison *)

(** What a run lets an observer of its course see: which way a branch went,
the size of a buffer that was allocated and filled, and the position that
was read in the two buffers. The contents of the buffers are not among
them. *)
Inductive Observation :=
| Branch (taken : bool)
| Allocate (bytes : nat)
| Read (index : nat).

Definition isRead (o : Observation) : bool :=
  match o with Read _ => true | _ => false end.



(** ** Base64 text to bytes, bytes to text *)

(** The value of a base64 character in the table of the decoder: the
standard alphabet, and "-" and "_" of the URL-safe one. *)
Definition unbase64 (c : N) : option N :=
  if (65 <=? c)%N && (c <=? 90)%N then Some (c - 65)%N
  else if (97 <=? c)%N && (c <=? 122)%N then Some (c - 71)%N
  else if (48 <=? c)%N && (c <=? 57)%N then Some (c + 4)%N
  else if (c =? 43)%N || (c =? 45)%N then Some 62%N
  else if (c =? 47)%N || (c =? 95)%N then Some 63%N
  else None.

(** The code unit of "=". *)
Definition padding : N := 61%N.

(** The decoder never refuses its input. It looks at the low byte of each
code unit, skips what is not in its table, and stops at the first "=" or at
the end. *)
Fixpoint sextets (s : jsstring) : list N :=
  match s with
  | [] => []
  | c :: t =>
      match unbase64 (c mod 256) with
      | Some v => v :: sextets t
      | None => if (c mod 256 =? padding)%N then [] else sextets t
      end
  end.

(** Four characters give three bytes; of a last group of two or three
characters the bits that fill no byte are dropped, and a single last
character gives nothing. *)
Fixpoint octets (l : list N) : buffer :=
  match l with
  | a :: b :: c :: d :: r =>
      (a * 4 + b / 16)%N :: ((b mod 16) * 16 + c / 4)%N
        :: ((c mod 4) * 64 + d)%N :: octets r
  | [a; b; c] => [(a * 4 + b / 16)%N; ((b mod 16) * 16 + c / 4)%N]
  | [a; b] => [(a * 4 + b / 16)%N]
  | _ => []
  end.

(** [Buffer.from(s, "base64")]. *)
Definition fromBase64 (s : jsstring) : buffer := octets (sextets s).

(** The code units of a code point. *)
Definition codeUnits (cp : N) : jsstring :=
  if (cp <? 0x10000)%N then [cp]
  else [0xD800 + (cp - 0x10000) / 0x400; 0xDC00 + (cp - 0x10000) mod 0x400]%N.

(** U+FFFD as a code unit. *)
Definition replacementUnit : N := 0xFFFD%N.

(** A character under way in the UTF-8 decoder: the bits read so far, the
number of bytes still to come, and the range allowed for the next one. *)
Record Pending := mkPending {
  bits : N;
  needed : nat;
  lower : N;
  upper : N
}.

(** A byte read when no character is under way. *)
Definition firstByte (b : N) : jsstring * option Pending :=
  if (b <=? 0x7F)%N then ([b], None)
  else if (0xC2 <=? b)%N && (b <=? 0xDF)%N
  then ([], Some (mkPending (b - 0xC0) 1 0x80 0xBF))
  else if (0xE0 <=? b)%N && (b <=? 0xEF)%N
  then ([], Some (mkPending (b - 0xE0) 2
                            (if (b =? 0xE0)%N then 0xA0 else 0x80)
                            (if (b =? 0xED)%N then 0x9F else 0xBF)))
  else if (0xF0 <=? b)%N && (b <=? 0xF4)%N
  then ([], Some (mkPending (b - 0xF0) 3
                            (if (b =? 0xF0)%N then 0x90 else 0x80)
                            (if (b =? 0xF4)%N then 0x8F else 0xBF)))
  else ([replacementUnit], None).

(** The UTF-8 decoder: a byte that cannot continue the character under way
ends it with U+FFFD and is read again as a first byte; so is the end of
the input inside a character. *)
Fixpoint decodeFrom (p : option Pending) (bytes : buffer) : jsstring :=
  match bytes with
  | [] => match p with Some _ => [replacementUnit] | None => [] end
  | b :: t =>
      match p with
      | None => fst (firstByte b) ++ decodeFrom (snd (firstByte b)) t
      | Some s =>
          if (lower s <=? b)%N && (b <=? upper s)%N then
            let cp := (bits s * 64 + (b - 0x80))%N in
            match needed s with
            | S (S n) => decodeFrom (Some (mkPending cp (S n) 0x80 0xBF)) t
            | _ => codeUnits cp ++ decodeFrom None t
            end
          else replacementUnit
                 :: fst (firstByte b) ++ decodeFrom (snd (firstByte b)) t
      end
  end.

(** [buf.toString()]. *)
Definition toString (bytes : buffer) : jsstring := decodeFrom None bytes.

(** [Buffer.from(s, "base64").toString()]. *)
Definition base64ToString (s : jsstring) : jsstring := toString (fromBase64 s).

End Buffer.

(* ================================================================== *)
(** * Types *)
(* ================================================================== *)

Section Server.

(** The route handlers are callables owned by the extensions; the server
    stores them and calls them, nothing more. *)
Variable RouteHandler : Type.

Record MountConfig := mkMountConfig {
  name : jsstring;
  label : option jsstring;
  description : option jsstring;
  prefix : jsstring;
  handler : RouteHandler;
  skipAuth : option bool
}.

Record MountInfo := mkMountInfo {
  infoName : jsstring;
  infoLabel : jsstring;
  infoDescription : option jsstring;
  infoPrefix : jsstring;
  infoSkipAuth : option bool
}.

Record Credentials := mkCredentials {
  username : jsstring;
  password : jsstring
}.

(** The argument of [setAuth] when it is not [null]. *)
Record AuthConfig := mkAuthConfig {
  cfgUsername : option jsstring;
  cfgPassword : jsstring
}.

(** An [http.Server]: what the request callback captured when [start]
    created it. *)
Record HttpServer := mkHttpServer {
  listenPort : Z;
  dashboardHtml : jsstring
}.

(** What [start] and [stop] do to the operating system's sockets. *)
Inductive SocketEvent :=
| Listen (port : Z)
| CloseAllConnections (port : Z)
| Close (port : Z).

(* ================================================================ *)
(** * State *)
(* ================================================================ *)

(** The module-level variables of [server.ts]; [mounts] is a JavaScript
    [Map], which iterates in insertion order, so it is a list of
    bindings. [sockets] is the trace of socket effects, oldest first. *)
Record State := mkState {
  server : option HttpServer;
  serverPort : option Z;
  mounts : list (jsstring * MountConfig);
  authCredentials : option Credentials;
  apiToken : option jsstring;
  apiReadToken : option jsstring;
  sockets : list SocketEvent
}.

Definition initialState : State :=
  mkState None None [] None None None [].

(* ================================================================ *)
(** * The [Map] of mounts *)
(* ================================================================ *)

(** [map.set(k, v)]: an existing key keeps its place in the iteration
    order, a new key goes last. *)
Fixpoint mapSet (k : jsstring) (v : MountConfig)
         (m : list (jsstring * MountConfig)) : list (jsstring * MountConfig) :=
  match m with
  | [] => [(k, v)]
  | (k', v') :: r =>
      if JS.eqb k' k then (k, v) :: r else (k', v') :: mapSet k v r
  end.

(** [map.has(k)]. *)
Fixpoint mapHas (k : jsstring) (m : list (jsstring * MountConfig)) : bool :=
  match m with
  | [] => false
  | (k', _) :: r => JS.eqb k' k || mapHas k r
  end.

(** The map after [map.delete(k)]. *)
Fixpoint mapRemove (k : jsstring) (m : list (jsstring * MountConfig))
  : list (jsstring * MountConfig) :=
  match m with
  | [] => []
  | (k', v') :: r =>
      if JS.eqb k' k then r else (k', v') :: mapRemove k r
  end.

(** [map.values()]. *)
Definition mapValues (m : list (jsstring * MountConfig)) : list MountConfig :=
  List.map snd m.

(* ================================================================ *)
(** * Mount management *)
(* ================================================================ *)

(** The first two lines of [mount] and of [mountApi]. *)
Definition normalizePrefix (p : jsstring) : jsstring :=
  let prefix := JS.replaceTrailingSlashes p in
  if negb (JS.startsWith prefix (JS.lit "/")) then JS.lit "/" ++ prefix
  else prefix.

Definition withPrefix (config : MountConfig) (p : jsstring) : MountConfig :=
  mkMountConfig (name config) (label config) (description config) p
                (handler config) (skipAuth config).

Definition mount (config : MountConfig) (st : State) : State :=
  let prefix := normalizePrefix (prefix config) in
  let stored :=
    mkMountConfig (name config)
                  (Some (JS.orElse (label config) (name config)))
                  (description config) prefix
                  (handler config) (skipAuth config) in
  mkState (server st) (serverPort st)
          (mapSet (name config) stored (mounts st))
          (authCredentials st) (apiToken st) (apiReadToken st) (sockets st).

Definition unmount (name : jsstring) (st : State) : bool * State :=
  (mapHas name (mounts st),
   mkState (server st) (serverPort st)
           (mapRemove name (mounts st))
           (authCredentials st) (apiToken st) (apiReadToken st) (sockets st)).

(** [m.skipAuth || undefined]. *)
Definition trueOrUndefined (b : option bool) : option bool :=
  match b with Some true => Some true | _ => None end.

Definition getMounts (st : State) : list MountInfo :=
  List.map (fun m =>
              mkMountInfo (name m) (JS.orElse (label m) (name m))
                          (description m) (prefix m)
                          (trueOrUndefined (skipAuth m)))
           (mapValues (mounts st)).

Definition mountApi (config : MountConfig) (st : State) : State :=
  let prefix := normalizePrefix (prefix config) in
  mount (withPrefix config (JS.lit "/api" ++ prefix)) st.

Definition unmountApi (name : jsstring) (st : State) : bool * State :=
  unmount name st.

Definition getApiMounts (st : State) : list MountInfo :=
  List.filter (fun m => JS.startsWith (infoPrefix m) (JS.lit "/api"))
              (getMounts st).

(* ================================================================ *)
(** * Credentials and tokens *)
(* ================================================================ *)

Definition setAuth (config : option AuthConfig) (st : State) : State :=
  mkState (server st) (serverPort st) (mounts st)
          (match config with
           | Some c => Some (mkCredentials
                               (JS.orElse (cfgUsername c) (JS.lit "pi"))
                               (cfgPassword c))
           | None => None
           end)
          (apiToken st) (apiReadToken st) (sockets st).

(** The two shapes of the object that [getAuth] returns. *)
Inductive AuthStatus :=
| AuthDisabled
| AuthEnabled (user : jsstring).

Definition getAuth (st : State) : AuthStatus :=
  match authCredentials st with
  | None => AuthDisabled
  | Some c => AuthEnabled (username c)
  end.

Definition setApiToken (token : option jsstring) (st : State) : State :=
  mkState (server st) (serverPort st) (mounts st) (authCredentials st)
          token (apiReadToken st) (sockets st).

Definition setApiReadToken (token : option jsstring) (st : State) : State :=
  mkState (server st) (serverPort st) (mounts st) (authCredentials st)
          (apiToken st) token (sockets st).

Record TokenStatus := mkTokenStatus {
  enabled : bool;
  readEnabled : bool
}.

(** [x !== null]. *)
Definition notNull (x : option jsstring) : bool :=
  match x with Some _ => true | None => false end.

Definition getApiTokenStatus (st : State) : TokenStatus :=
  mkTokenStatus (notNull (apiToken st)) (notNull (apiReadToken st)).

Definition tokensEqual (a b : option jsstring) : Exc bool :=
  if negb (JS.truthy a) || negb (JS.truthy b) then Ok false
  else
    match a, b with
    | Some a', Some b' =>
        let bufA := Buffer.from a' in
        let bufB := Buffer.from b' in
        if negb (Nat.eqb (List.length bufA) (List.length bufB)) then Ok false
        else Buffer.timingSafeEqual bufA bufB
    | _, _ => Ok false (* not reached: both are strings here *)
    end.


(* ================================================================== *)
(** * Requests and responses *)
(* ================================================================== *)

(** What the request callback reads of an [http.IncomingMessage]:
[req.method], the [pathname] of [new URL(req.url, ...)] and
[req.headers.authorization]. *)
Record Request := mkRequest {
  method : jsstring;
  pathname : jsstring;
  authorization : option jsstring
}.

(** The request with another Authorization header. *)
Definition withAuthorization (req : Request) (h : jsstring) : Request :=
  mkRequest (method req) (pathname req) (Some h).

(** The argument of [res.end]: the value that is serialized, before
[JSON.stringify]. [ErrorJsonOther] is the object [{ error: v }] for a [v]
that is not a string ([undefined] leaves the object empty). *)
Inductive Body :=
| NoBody
| ErrorJson (error : jsstring)
| ErrorJsonOther
| Html (content : jsstring)
| MountsJson (all : list MountInfo)
| ApiListingJson (apiMounts : list MountInfo) (tokenAuth readTokenAuth : bool).

(** The [http.ServerResponse] as the callback leaves it. *)
Record ServerResponse := mkResponse {
  headers : list (jsstring * jsstring);
  statusCode : option Z;
  body : option Body
}.

Definition freshResponse : ServerResponse := mkResponse [] None None.

Definition setHeader (res : ServerResponse) (k v : jsstring) : ServerResponse :=
  mkResponse (headers res ++ [(k, v)]) (statusCode res) (body res).

Definition writeHead (res : ServerResponse) (status : Z)
           (hs : list (jsstring * jsstring)) : ServerResponse :=
  mkResponse (headers res ++ hs) (Some status) (body res).

Definition end_ (res : ServerResponse) (b : Body) : ServerResponse :=
  mkResponse (headers res) (statusCode res) (Some b).

Definition headersSent (res : ServerResponse) : bool :=
  match statusCode res with Some _ => true | None => false end.

Definition contentTypeJson : list (jsstring * jsstring) :=
  [(JS.lit "Content-Type", JS.lit "application/json")].

(* ================================================================== *)
(** * The two gates *)
(* ================================================================== *)

(** [header?.startsWith(p) ? header.slice(n) : null], for a header that
may be [undefined]. *)
Definition afterScheme (header : option jsstring) (p : jsstring) (n : Z)
  : option jsstring :=
  match header with
  | Some h => if JS.startsWith h p then Some (JS.slice h n None) else None
  | None => None
  end.

Definition isReadMethod (req : Request) : bool :=
  JS.eqb (method req) (JS.lit "GET") || JS.eqb (method req) (JS.lit "HEAD").

Definition forbidden (res : ServerResponse) : ServerResponse :=
  end_ (writeHead res 403 contentTypeJson)
       (ErrorJson (JS.lit "Read-only token cannot be used for write requests")).

Definition invalidToken (res : ServerResponse) : ServerResponse :=
  end_ (writeHead res 401 contentTypeJson)
       (ErrorJson (JS.lit "Invalid or missing API token")).

Definition checkApiAuth (st : State) (req : Request) (res : ServerResponse)
  : Exc (bool * ServerResponse) :=
  if negb (JS.truthy (apiToken st)) && negb (JS.truthy (apiReadToken st))
  then Ok (true, res)
  else
    let bearer := afterScheme (authorization req) (JS.lit "Bearer ") 7 in
    let isRead := isReadMethod req in
    full <- tokensEqual bearer (apiToken st) ;;
    if full then Ok (true, res)
    else
      read <- tokensEqual bearer (apiReadToken st) ;;
      if read then
        if isRead then Ok (true, res) else Ok (false, forbidden res)
      else Ok (false, invalidToken res).

(** [Buffer.from(s, "base64").toString()], of the Node runtime. *)
Variable base64Decode : jsstring -> jsstring.

(** The challenge [Basic realm="pi web server"]; 34 is the double quote. *)
Definition basicRealm : jsstring :=
  JS.lit "Basic realm=" ++ [34%N] ++ JS.lit "pi web server" ++ [34%N].

Definition unauthorized (res : ServerResponse) : ServerResponse :=
  end_ (writeHead res 401
                  ((JS.lit "WWW-Authenticate", basicRealm) :: contentTypeJson))
       (ErrorJson (JS.lit "Unauthorized")).

(** The nested conditions of [checkAuth] that lead to [return true]. *)
Definition basicMatches (creds : Credentials) (header : option jsstring) : bool :=
  match afterScheme header (JS.lit "Basic ") 6 with
  | Some encoded =>
      let decoded := base64Decode encoded in
      let colon := JS.indexOf decoded (JS.lit ":") in
      if negb (colon =? -1)%Z then
        let user := JS.slice decoded 0 (Some colon) in
        let pass := JS.slice decoded (colon + 1) None in
        JS.eqb user (username creds) && JS.eqb pass (password creds)
      else false
  | None => false
  end.

Definition checkAuth (st : State) (req : Request) (res : ServerResponse)
  : bool * ServerResponse :=
  match authCredentials st with
  | None => (true, res)
  | Some creds =>
      if basicMatches creds (authorization req) then (true, res)
      else (false, unauthorized res)
  end.

(* ================================================================== *)
(** * The router *)
(* ================================================================== *)

(** The test of the routing loop: [pathname === config.prefix ||
pathname.startsWith(config.prefix + "/")]. *)
Definition matchesPrefix (pathname : jsstring) (config : MountConfig) : bool :=
  JS.eqb pathname (prefix config)
  || JS.startsWith pathname (prefix config ++ JS.lit "/").

(** One iteration of the loop over [mounts.values()]. *)
Definition considerMount (pathname : jsstring)
           (bestMatch : option MountConfig) (config : MountConfig)
  : option MountConfig :=
  if matchesPrefix pathname config then
    match bestMatch with
    | None => Some config
    | Some best =>
        if (JS.length (prefix config) >? JS.length (prefix best))%Z
        then Some config else bestMatch
    end
  else bestMatch.

Definition findBestMatch (ms : list (jsstring * MountConfig))
           (pathname : jsstring) : option MountConfig :=
  fold_left (considerMount pathname) (mapValues ms) None.

(** [pathname.slice(bestMatch.prefix.length) || "/"]. *)
Definition subPathOf (pathname : jsstring) (bestMatch : MountConfig) : jsstring :=
  JS.orDefault (JS.slice pathname (JS.length (prefix bestMatch)) None)
               (JS.lit "/").

(** The router as a whole: the selected mount and the path it is handed. *)
Definition route (ms : list (jsstring * MountConfig)) (pathname : jsstring)
  : option (MountConfig * jsstring) :=
  match findBestMatch ms pathname with
  | Some bestMatch => Some (bestMatch, subPathOf pathname bestMatch)
  | None => None
  end.

(* ================================================================== *)
(** * The request callback of [start] *)
(* ================================================================== *)

(** How the callback ends: it has written the response itself, or it has
called the handler of a mount with the response as it is then and with the
sub-path. What the handler writes is the extension's business. *)
Inductive Outcome :=
| Finished (res : ServerResponse)
| Invoked (res : ServerResponse) (config : MountConfig) (subPath : jsstring).

Definition corsHeaders (res : ServerResponse) : ServerResponse :=
  setHeader
    (setHeader
       (setHeader res (JS.lit "Access-Control-Allow-Origin") (JS.lit "*"))
       (JS.lit "Access-Control-Allow-Methods")
       (JS.lit "GET, POST, PATCH, PUT, DELETE, OPTIONS"))
    (JS.lit "Access-Control-Allow-Headers")
    (JS.lit "Content-Type, Authorization").

Definition isApiPath (pathname : jsstring) : bool :=
  JS.eqb pathname (JS.lit "/api") || JS.startsWith pathname (JS.lit "/api/").

(** [m.skipAuth] as a condition: [undefined] and [false] are falsy. *)
Definition isSet (b : option bool) : bool :=
  match b with Some true => true | _ => false end.

Definition notFound (res : ServerResponse) : ServerResponse :=
  end_ (writeHead res 404 contentTypeJson) (ErrorJson (JS.lit "Not found")).

(** [if (cond) { if (!checkApiAuth(req, res)) return; }]: the gate when
[cond] holds, and nothing otherwise. *)
Definition gateIf (cond : bool) (st : State) (req : Request)
           (res : ServerResponse) : Exc (bool * ServerResponse) :=
  if cond then checkApiAuth st req res else Ok (true, res).

(** The body of the [try] block. *)
Definition tryBlock (st : State) (srv : HttpServer) (req : Request)
           (res : ServerResponse) : Exc Outcome :=
  let pathname := pathname req in
  if JS.eqb pathname (JS.lit "/api") || JS.eqb pathname (JS.lit "/api/") then
    r <- checkApiAuth st req res ;;
    if negb (fst r) then Ok (Finished (snd r))
    else
      let apiMounts := getApiMounts st in
      Ok (Finished
            (end_ (writeHead (snd r) 200 contentTypeJson)
                  (ApiListingJson apiMounts
                                  (notNull (apiToken st))
                                  (notNull (apiReadToken st)))))
  else if JS.eqb pathname (JS.lit "/") || JS.eqb pathname [] then
    Ok (Finished
          (end_ (writeHead res 200
                           [(JS.lit "Content-Type", JS.lit "text/html; charset=utf-8")])
                (Html (dashboardHtml srv))))
  else if JS.eqb pathname (JS.lit "/_api/mounts") then
    Ok (Finished (end_ (writeHead res 200 contentTypeJson)
                       (MountsJson (getMounts st))))
  else
    match findBestMatch (mounts st) pathname with
    | Some bestMatch =>
        r <- gateIf (isApiPath pathname && negb (isSet (skipAuth bestMatch)))
                    st req res ;;
        if negb (fst r) then Ok (Finished (snd r))
        else Ok (Invoked (snd r) bestMatch (subPathOf pathname bestMatch))
    | None =>
        r <- gateIf (isApiPath pathname) st req res ;;
        if negb (fst r) then Ok (Finished (snd r))
        else Ok (Finished (notFound (snd r)))
    end.

(** The [catch] block, for an error raised while the response is [res]. *)
Definition catchBlock (res : ServerResponse) (err : JsError) : ServerResponse :=
  if negb (headersSent res)
  then end_ (writeHead res 500 contentTypeJson) (ErrorJson (message err))
  else res.

(** The callback given to [http.createServer]. The only exception that the
[try] block itself can raise comes from a gate, before the gate writes
anything, so the response that [catch] sees is the one the block started
with. *)
Definition handleRequest (st : State) (srv : HttpServer) (req : Request)
  : Outcome :=
  let res := corsHeaders freshResponse in
  if JS.eqb (method req) (JS.lit "OPTIONS") then
    Finished (end_ (writeHead res 204 []) NoBody)
  else
    let isApi := isApiPath (pathname req) in
    let gate := if negb isApi then checkAuth st req res else (true, res) in
    if negb (fst gate) then Finished (snd gate)
    else
      match tryBlock st srv req (snd gate) with
      | Ok o => o
      | Throw err => Finished (catchBlock (snd gate) err)
      end.

(* ================================================================== *)
(** * Server life cycle *)
(* ================================================================== *)

Definition isRunning (st : State) : bool :=
  match server st with Some _ => true | None => false end.

(** The template literal [http://localhost:${port}]. *)
Inductive Url := Localhost (port : Z).

(** [serverPort ? ... : null]: [null] and [0] are falsy. *)
Definition getUrl (st : State) : option Url :=
  match serverPort st with
  | Some p => if (p =? 0)%Z then None else Some (Localhost p)
  | None => None
  end.

Definition getPort (st : State) : option Z := serverPort st.

Definition stop (st : State) : bool * State :=
  match server st with
  | None => (false, st)
  | Some srv =>
      (true,
       mkState None None (mounts st) (authCredentials st)
               (apiToken st) (apiReadToken st)
               (sockets st ++ [CloseAllConnections (listenPort srv);
                               Close (listenPort srv)]))
  end.

(** [server.listen(port)] of the Node runtime throws for a port outside
0 .. 65535. *)
Definition validPort (port : Z) : bool := (0 <=? port)%Z && (port <=? 65535)%Z.

(** [start(port)]; [dashboard] is what [fs.readFileSync] does when it is
called: the text of the file, or an exception. *)
Definition start (dashboard : Exc jsstring) (port : option Z) (st : State)
  : Exc Url * State :=
  let port := match port with Some p => p | None => 4100%Z end in
  let st1 := if isRunning st then snd (stop st) else st in
  match dashboard with
  | Throw e => (Throw e, st1)
  | Ok dashboardHtml =>
      let srv := mkHttpServer port dashboardHtml in
      let st2 := mkState (Some srv) (serverPort st1) (mounts st1)
                         (authCredentials st1) (apiToken st1)
                         (apiReadToken st1) (sockets st1) in
      if validPort port then
        (Ok (Localhost port),
         mkState (Some srv) (Some port) (mounts st1)
                 (authCredentials st1) (apiToken st1) (apiReadToken st1)
                 (sockets st1 ++ [Listen port]))
      else
        (Throw (mkError (JS.lit "ERR_SOCKET_BAD_PORT")), st2)
  end.

(* ================================================================== *)
(** * Sequences of calls *)
(* ================================================================== *)

(** One call of an exported function that changes the state. *)
Inductive Call :=
| CallMount (config : MountConfig)
| CallUnmount (name : jsstring)
| CallMountApi (config : MountConfig)
| CallUnmountApi (name : jsstring)
| CallSetAuth (config : option AuthConfig)
| CallSetApiToken (token : option jsstring)
| CallSetApiReadToken (token : option jsstring)
| CallStart (dashboard : Exc jsstring) (port : option Z)
| CallStop.

Definition perform (st : State) (c : Call) : State :=
  match c with
  | CallMount config => mount config st
  | CallUnmount n => snd (unmount n st)
  | CallMountApi config => mountApi config st
  | CallUnmountApi n => snd (unmountApi n st)
  | CallSetAuth config => setAuth config st
  | CallSetApiToken token => setApiToken token st
  | CallSetApiReadToken token => setApiReadToken token st
  | CallStart dashboard port => snd (start dashboard port st)
  | CallStop => snd (stop st)
  end.

Definition performAll (calls : list Call) (st : State) : State :=
  fold_left perform calls st.

(** The states that a program can bring the module into. *)
Definition reachable (st : State) : Prop :=
  exists calls, st = performAll calls initialState.

End Server.

Arguments Finished {RouteHandler} res.
Arguments initialState {RouteHandler}.
Arguments CallUnmount {RouteHandler} name.
Arguments CallUnmountApi {RouteHandler} name.
Arguments CallSetAuth {RouteHandler} config.
Arguments CallSetApiToken {RouteHandler} token.
Arguments CallSetApiReadToken {RouteHandler} token.
Arguments CallStart {RouteHandler} dashboard port.
Arguments CallStop {RouteHandler}.


(* ================================================================== *)
(** * The words of the specification *)
(* ================================================================== *)

Section Words.

Variable RouteHandler : Type.

(** "A registration matches [path] if [path] equals its prefix, or [path]
starts with prefix + "/"." *)
Definition Matches (path : jsstring) (c : MountConfig RouteHandler) : Prop :=
  path = prefix c \/ exists rest, path = prefix c ++ JS.lit "/" ++ rest.

(** "[path] with the matched prefix removed; if the remainder is empty,
"/"." *)
Definition Residual (path : jsstring) (c : MountConfig RouteHandler)
           (subPath : jsstring) : Prop :=
  exists rest, path = prefix c ++ rest /\
               subPath = match rest with [] => JS.lit "/" | _ => rest end.

(** The reserved subtree: "/api" itself or anything below "/api/". *)
Definition UnderApi (p : jsstring) : Prop :=
  p = JS.lit "/api" \/ exists rest, p = JS.lit "/api/" ++ rest.

(** What the loop has established after the mounts [seen]. *)
Definition LoopInvariant (path : jsstring) (seen : list (MountConfig RouteHandler))
           (bestMatch : option (MountConfig RouteHandler)) : Prop :=
  match bestMatch with
  | None => forall c, In c seen -> ~ Matches path c
  | Some best =>
      Matches path best /\
      exists before after,
        seen = before ++ best :: after /\
        (forall c, In c before -> Matches path c ->
                   (List.length (prefix c) < List.length (prefix best))%nat) /\
        (forall c, In c after -> Matches path c ->
                   (List.length (prefix c) <= List.length (prefix best))%nat)
  end.

(** A token is configured, in the sense of the gate: it is a string, and
the string is not empty. *)
Definition Configured (token : option jsstring) : Prop :=
  exists s, token = Some s /\ s <> [].

(** The request carries [Authorization: Bearer <value>] and the value equals
the configured [token] in the way the gate compares them: neither is
empty, and their UTF-8 encodings are the same bytes. *)
Definition Presents (req : Request) (token : option jsstring) : Prop :=
  exists bearer t,
    authorization req = Some (JS.lit "Bearer " ++ bearer) /\
    token = Some t /\ bearer <> [] /\ t <> [] /\
    Buffer.from bearer = Buffer.from t.


(** The Authorization header is as the HTTP parser delivers it. *)
Definition HeaderLatin1 (req : Request) : Prop :=
  forall h, authorization req = Some h -> JS.latin1 h.


(** The code unit of ":". *)
Definition colon : JS.codeunit := 58%N.

(** The header is a Basic credential for [creds]: "Basic " followed by a
value that decodes to the user name, a colon and the password, the colon
being the first one of the decoded text. *)
Definition ValidBasic (decode : jsstring -> jsstring) (creds : Credentials)
           (header : option jsstring) : Prop :=
  exists encoded,
    header = Some (JS.lit "Basic " ++ encoded) /\
    decode encoded = username creds ++ colon :: password creds /\
    ~ In colon (username creds).

Definition BeginsWithSlash (p : jsstring) : Prop :=
  exists q, p = JS.lit "/" ++ q.

Definition EndsWithSlash (p : jsstring) : Prop :=
  exists q, p = q ++ JS.lit "/".

(** The shape that the specification gives to a stored prefix. *)
Definition SpecifiedShape (p : jsstring) : Prop :=
  BeginsWithSlash p /\ ~ EndsWithSlash p /\ p <> JS.lit "/".

(** The shape that [mount] gives to a stored prefix: the bare root is
possible, and is the only stored prefix that ends with a slash. *)
Definition StoredShape (p : jsstring) : Prop :=
  BeginsWithSlash p /\ (p = JS.lit "/" \/ ~ EndsWithSlash p).

(** The observers agree on everything but the secrets: credentials are set
in both states or in neither, with the same user name, and each token is
set in both states or in neither. *)
Definition SameButSecrets (st1 st2 : State RouteHandler) : Prop :=
  match authCredentials st1, authCredentials st2 with
  | None, None => True
  | Some c1, Some c2 => username c1 = username c2
  | _, _ => False
  end /\
  (apiToken st1 = None <-> apiToken st2 = None) /\
  (apiReadToken st1 = None <-> apiReadToken st2 = None).

(** Whenever no server is running, no port is recorded. *)
Definition PortOnlyWhenRunning (st : State RouteHandler) : Prop :=
  server st = None -> serverPort st = None.

(** Every stored prefix has the stored shape. *)
Definition PrefixesNormalized (st : State RouteHandler) : Prop :=
  Forall (fun c => StoredShape (prefix c)) (mapValues (mounts st)).

(** The response object as the callback leaves it. *)
Definition written (o : Outcome RouteHandler) : ServerResponse :=
  match o with
  | Finished res => res
  | Invoked res _ _ => res
  end.

End Words.


(* ================================================================== *)
(** * Sample configurations *)
(* ================================================================== *)

(** A mount whose handler carries no information. *)
Definition sampleMount (n p : string) (skip : option bool) : MountConfig unit :=
  mkMountConfig (JS.lit n) None None (JS.lit p) tt skip.

Definition request (m p : string) (auth : option string) : Request :=
  mkRequest (JS.lit m) (JS.lit p) (option_map JS.lit auth).

(** An Authorization header with the given value. *)
Definition header (value : string) : option string := Some value.

(** Full token "F" and read token "R", as in the specification's example. *)
Definition tokensFR : State unit :=
  setApiReadToken (Some (JS.lit "R")) (setApiToken (Some (JS.lit "F")) initialState).

(** The full token set to the empty string, no read token. *)
Definition emptyFullToken : State unit :=
  setApiToken (Some []) initialState.


(** The response when the gates are reached. *)
Definition corsResponse : ServerResponse := corsHeaders freshResponse.

(** A general-namespace mount whose prefix merely begins with the letters
of "/api". *)
Definition apiaryMounted : State unit :=
  mount (sampleMount "apiary" "/apiary" None) initialState.

(** A mount registered at the bare root. *)
Definition rootMounted : State unit :=
  mount (sampleMount "site" "/" None) initialState.

Definition sampleServer : HttpServer := mkHttpServer 4100 (JS.lit "<html>").

(** The state after [start()] with a readable dashboard file. *)
Definition started : State unit :=
  performAll [CallStart (Ok (JS.lit "<html>")) None] initialState.

(** The API listing as the root of the namespace answers it. *)
Definition apiListing (st : State unit) (res : ServerResponse) : ServerResponse :=
  end_ (writeHead res 200 contentTypeJson)
       (ApiListingJson (getApiMounts st)
                       (notNull (apiToken st)) (notNull (apiReadToken st))).

(** Full token "F"; /api/ext with [skipAuth], and /api/ext/admin without
it, registered through [mountApi]. *)
Definition extMount : MountConfig unit := sampleMount "ext" "/ext" (Some true).
Definition adminMount : MountConfig unit := sampleMount "admin" "/ext/admin" None.

Definition extAndAdmin : State unit :=
  mountApi adminMount (mountApi extMount (setApiToken (Some (JS.lit "F")) initialState)).

(** The entries that the registry holds for them. *)
Definition extStored : MountConfig unit :=
  mkMountConfig (JS.lit "ext") (Some (JS.lit "ext")) None (JS.lit "/api/ext") tt (Some true).

Definition adminStored : MountConfig unit :=
  mkMountConfig (JS.lit "admin") (Some (JS.lit "admin")) None
                (JS.lit "/api/ext/admin") tt None.

(** Full token "F"; a mount with [skipAuth] at the root of the API
namespace. *)
Definition apiRootMounted : State unit :=
  mountApi (sampleMount "all" "/" (Some true))
           (setApiToken (Some (JS.lit "F")) initialState).

Definition apiRootStored : MountConfig unit :=
  mkMountConfig (JS.lit "all") (Some (JS.lit "all")) None (JS.lit "/api") tt (Some true).

(** A decoder for the cases in which the session gate is not reached. *)
Definition noDecoding (s : jsstring) : jsstring := s.

(** Session credentials pi / secret, as in the specification's example. *)
Definition piSecret : State unit :=
  setAuth (Some (mkAuthConfig None (JS.lit "secret"))) tokensFR.

(** The same user with another password, and other tokens. *)
Definition piOther : State unit :=
  setAuth (Some (mkAuthConfig (Some (JS.lit "pi")) (JS.lit "a:b:c")))
          (setApiReadToken (Some (JS.lit "read-2"))
                           (setApiToken (Some (JS.lit "full-2")) initialState)).

(** /ext and the more specific /ext/sub; a second mount at /ext under
another name. *)
Definition extAndSub : State unit :=
  mount (sampleMount "twin" "/ext" None)
        (mount (sampleMount "sub" "ext/sub/" None)
               (mount (sampleMount "ext" "/ext" None) initialState)).

Definition stored (n p : string) : MountConfig unit :=
  mkMountConfig (JS.lit n) (Some (JS.lit n)) None (JS.lit p) tt None.

(* ================================================================== *)
(** * The registry as its users see it *)
(* ================================================================== *)

Section RegistryWords.

Variable RouteHandler : Type.

(** [map.keys()]. *)
Definition mapKeys (m : list (jsstring * MountConfig RouteHandler)) : list jsstring :=
  List.map fst m.

(** Every entry is filed under its own name, and no name is filed twice. *)
Definition WellKeyed (st : State RouteHandler) : Prop :=
  NoDup (mapKeys (mounts st)) /\
  Forall (fun kv => name (snd kv) = fst kv) (mounts st).

(** The element of [getMounts()] that [mount(config)] produces. *)
Definition infoOf (config : MountConfig RouteHandler) : MountInfo :=
  mkMountInfo (name config) (JS.orElse (label config) (name config))
              (description config) (normalizePrefix (prefix config))
              (trueOrUndefined (skipAuth config)).

Definition isNamed (n : jsstring) (info : MountInfo) : bool :=
  JS.eqb (infoName info) n.

(** Insert or replace in a listing: an entry of the same name is replaced
where it stands, a new name is added at the end. *)
Definition upsert (info : MountInfo) (l : list MountInfo) : list MountInfo :=
  if existsb (isNamed (infoName info)) l
  then List.map (fun i => if isNamed (infoName info) i then info else i) l
  else l ++ [info].

End RegistryWords.

(* ================================================================== *)
(** * The answers of the request callback *)
(* ================================================================== *)

Section Answers.

Variable RouteHandler : Type.

(** The answer of the API root. *)
Definition apiRootAnswer (st : State RouteHandler) (res : ServerResponse)
  : ServerResponse :=
  end_ (writeHead res 200 contentTypeJson)
       (ApiListingJson (getApiMounts st)
                       (notNull (apiToken st)) (notNull (apiReadToken st))).

(** The dashboard page. *)
Definition dashboardAnswer (srv : HttpServer) (res : ServerResponse)
  : ServerResponse :=
  end_ (writeHead res 200
                  [(JS.lit "Content-Type", JS.lit "text/html; charset=utf-8")])
       (Html (dashboardHtml srv)).

(** The answer of /_api/mounts. *)
Definition mountsAnswer (st : State RouteHandler) (res : ServerResponse)
  : ServerResponse :=
  end_ (writeHead res 200 contentTypeJson) (MountsJson (getMounts st)).

(** The answer to a preflight. *)
Definition preflightAnswer (res : ServerResponse) : ServerResponse :=
  end_ (writeHead res 204 []) NoBody.


(** The response carries the three CORS headers before any other. *)
Definition HasCors (res : ServerResponse) : Prop :=
  exists rest,
    headers res
    = (JS.lit "Access-Control-Allow-Origin", JS.lit "*")
        :: (JS.lit "Access-Control-Allow-Methods",
            JS.lit "GET, POST, PATCH, PUT, DELETE, OPTIONS")
        :: (JS.lit "Access-Control-Allow-Headers",
            JS.lit "Content-Type, Authorization")
        :: rest.

(** The session gate lets the request pass. *)
Definition SessionPasses (decode : jsstring -> jsstring)
           (st : State RouteHandler) (req : Request) : Prop :=
  authCredentials st = None \/
  exists creds, authCredentials st = Some creds /\
                ValidBasic decode creds (authorization req).

(** The paths that the callback answers itself in the general namespace. *)
Definition isDashboardPath (p : jsstring) : bool :=
  JS.eqb p (JS.lit "/") || JS.eqb p [].

Definition isMountListPath (p : jsstring) : bool :=
  JS.eqb p (JS.lit "/_api/mounts").

End Answers.

(* ================================================================== *)
(** * The whole run of the request callback *)
(* ================================================================== *)

(** What the callback is called with, as its first statement finds it:
[new URL(req.url ?? "/", ...)] gives the path of the request, or throws
(as it does for the request target "//"). *)
Inductive Arrival :=
| Parsed (req : Request)
| Unparsable (err : JsError).

(** The value that a handler throws, or that the promise it returns is
rejected with, as the [catch] block reads it: an Error or another value
whose [message] is a string; a value whose [message] is anything else
([undefined] for a thrown string or number); or [null] or [undefined],
of which reading [message] throws a TypeError. *)
Inductive Thrown :=
| ErrorWith (err : JsError)
| OtherMessage
| Unreadable (typeError : JsError).

(** How the call of a handler ends. *)
Inductive HandlerEnd :=
| Returns
| Throws (t : Thrown)
| NeverSettles.

(** How the promise of the callback ends, and the response as it is then:
resolved; rejected, with an exception that nothing catches; or still
waiting for the handler. *)
Inductive Completion :=
| Resolved (res : ServerResponse)
| Rejected (err : JsError) (res : ServerResponse)
| Waiting (res : ServerResponse).

Definition responseOf (c : Completion) : ServerResponse :=
  match c with
  | Resolved res => res
  | Rejected _ res => res
  | Waiting res => res
  end.

(** The [catch] block for what a handler threw, [res] being the response
as the handler left it. [res.writeHead(500, ...)] comes before the
argument of [res.end] is evaluated. *)
Definition catchThrown (res : ServerResponse) (t : Thrown) : Completion :=
  match t with
  | ErrorWith err => Resolved (catchBlock res err)
  | OtherMessage =>
      Resolved (if negb (headersSent res)
                then end_ (writeHead res 500 contentTypeJson) ErrorJsonOther
                else res)
  | Unreadable typeError =>
      if negb (headersSent res)
      then Rejected typeError (writeHead res 500 contentTypeJson)
      else Resolved res
  end.

Section WholeCallback.

Variable RouteHandler : Type.
Variable base64Decode : jsstring -> jsstring.

(** The handlers are the extensions' code: what a handler makes of the
response it is given, and how its call ends. *)
Variable runHandler :
  RouteHandler -> Request -> ServerResponse -> jsstring
  -> ServerResponse * HandlerEnd.

(** The callback given to [http.createServer], from its first statement to
the end of its promise. *)
Definition requestCallback (st : State RouteHandler) (srv : HttpServer)
           (a : Arrival) : Completion :=
  match a with
  | Unparsable err => Rejected err freshResponse
  | Parsed req =>
      match handleRequest base64Decode st srv req with
      | Finished res => Resolved res
      | Invoked res bestMatch subPath =>
          match runHandler (handler bestMatch) req res subPath with
          | (res', Returns) => Resolved res'
          | (res', Throws t) => catchThrown res' t
          | (res', NeverSettles) => Waiting res'
          end
      end
  end.

End WholeCallback.

(* ================================================================== *)
(** * Sockets over time *)
(* ================================================================== *)

(** The ports that are listening after one more socket event, when the
operating system gives every port that is asked for. *)
Definition afterSocketEvent (open : list Z) (e : SocketEvent) : list Z :=
  match e with
  | Listen p => open ++ [p]
  | CloseAllConnections _ => open
  | Close p => remove Z.eq_dec p open
  end.

(** The ports that are listening after a trace of socket events. *)
Definition openSockets (trace : list SocketEvent) : list Z :=
  fold_left afterSocketEvent trace [].

(** At no moment of the trace did two sockets listen. *)
Definition NeverTwoSockets (trace : list SocketEvent) : Prop :=
  forall n, (List.length (openSockets (firstn n trace)) <= 1)%nat.





Section LifeCycleWords.

Variable RouteHandler : Type.

(** The trace and the recorded port tell the same story, and a recorded
port is the port of the server object. *)
Definition SocketsMatchPort (st : State RouteHandler) : Prop :=
  openSockets (sockets st)
  = match serverPort st with Some p => [p] | None => [] end /\
  (forall p, serverPort st = Some p ->
             exists srv, server st = Some srv /\ listenPort srv = p) /\
  NeverTwoSockets (sockets st).

(** [start] and [stop], as opposed to the calls that configure. *)
Definition isLifeCycle (c : Call RouteHandler) : bool :=
  match c with
  | CallStart _ _ => true
  | CallStop => true
  | _ => false
  end.


End LifeCycleWords.

(* ================================================================== *)
(** * More of the JavaScript runtime: [trim], [parseInt], numbers as text *)
(* ================================================================== *)

Module Text.

(** White space and line terminators, the code units that [trim] and
[parseInt] skip: tab, LF, VT, FF, CR, space, no-break space, U+1680,
U+2000 to U+200A, U+2028, U+2029, U+202F, U+205F, U+3000 and U+FEFF. *)
Definition isWhiteSpace (c : N) : bool :=
  ((9 <=? c) && (c <=? 13) || (c =? 32) || (c =? 160) || (c =? 5760)
   || (8192 <=? c) && (c <=? 8202) || (c =? 8232) || (c =? 8233)
   || (c =? 8239) || (c =? 8287) || (c =? 12288) || (c =? 65279))%N.

Fixpoint trimStart (s : jsstring) : jsstring :=
  match s with
  | [] => []
  | c :: t => if isWhiteSpace c then trimStart t else s
  end.

Definition trimEnd (s : jsstring) : jsstring := rev (trimStart (rev s)).

(** [s.trim()]. *)
Definition trim (s : jsstring) : jsstring := trimEnd (trimStart s).

(** A JavaScript number as [parseInt] returns it: NaN or an integer. (For a
digit string beyond the range of a double the runtime returns a rounded
value or Infinity; every use made of the result here is a comparison with
1 and 65535 or a port given to [listen], which tell no such value from the
exact one.) *)
Inductive JsNumber :=
| NaN
| Int (z : Z).

(** The value of a digit in the radix, if it is one. *)
Definition digitValue (radix : N) (c : N) : option N :=
  let v :=
    if (48 <=? c)%N && (c <=? 57)%N then Some (c - 48)%N
    else if (97 <=? c)%N && (c <=? 122)%N then Some (c - 87)%N
    else if (65 <=? c)%N && (c <=? 90)%N then Some (c - 55)%N
    else None in
  match v with
  | Some d => if (d <? radix)%N then Some d else None
  | None => None
  end.

(** The longest prefix of digits, as their values. *)
Fixpoint leadingDigits (radix : N) (s : jsstring) : list N :=
  match s with
  | [] => []
  | c :: t =>
      match digitValue radix c with
      | Some d => d :: leadingDigits radix t
      | None => []
      end
  end.

Definition digitsValue (radix : N) (ds : list N) : N :=
  fold_left (fun acc d => (acc * radix + d)%N) ds 0%N.

(** [parseInt(s)] without a radix: leading white space, a sign, the prefix
0x or 0X for radix 16, then the longest run of digits. *)
Definition parseInt (s : jsstring) : JsNumber :=
  let s1 := trimStart s in
  let negative := match s1 with 45%N :: _ => true | _ => false end in
  let s2 := match s1 with
            | 43%N :: t => t
            | 45%N :: t => t
            | _ => s1
            end in
  let '(radix, s3) :=
    match s2 with
    | 48%N :: 120%N :: t => (16%N, t)
    | 48%N :: 88%N :: t => (16%N, t)
    | _ => (10%N, s2)
    end in
  match leadingDigits radix s3 with
  | [] => NaN
  | ds =>
      let v := Z.of_N (digitsValue radix ds) in
      Int (if negative then (- v)%Z else v)
  end.

(** [isNaN(x)]. *)
Definition isNaN (x : JsNumber) : bool :=
  match x with NaN => true | Int _ => false end.

(** [x < k] and [x > k] for a number that is not NaN. *)
Definition below (x : JsNumber) (k : Z) : bool :=
  match x with NaN => false | Int z => (z <? k)%Z end.

Definition above (x : JsNumber) (k : Z) : bool :=
  match x with NaN => false | Int z => (z >? k)%Z end.

(** [x || d] on numbers: NaN and 0 are falsy. *)
Definition orNumber (x : JsNumber) (d : Z) : Z :=
  match x with
  | NaN => d
  | Int z => if (z =? 0)%Z then d else z
  end.

(** The decimal digits of a number, least significant first. *)
Fixpoint digitsLsd (fuel : nat) (n : N) : list N :=
  match fuel with
  | O => []
  | S f => (n mod 10)%N :: (if (n / 10 =? 0)%N then [] else digitsLsd f (n / 10)%N)
  end.

(** [`${n}`] for a natural number below 2^53. *)
Definition decimal (n : N) : jsstring :=
  List.map (fun d => (48 + d)%N) (rev (digitsLsd (S (N.to_nat (N.log2 n))) n)).

(** [parts.join(sep)]. *)
Fixpoint join (sep : jsstring) (parts : list jsstring) : jsstring :=
  match parts with
  | [] => []
  | [p] => p
  | p :: rest => p ++ sep ++ join sep rest
  end.

End Text.

(* ================================================================== *)
(** * The extension: event bus, /web command, session events *)
(* ================================================================== *)

(** One call of [ctx.ui.notify(text, level)]. *)
Record Notification := mkNotification {
  text : jsstring;
  level : jsstring
}.

Definition info (t : jsstring) : Notification := mkNotification t (JS.lit "info").

(** What a session handler does besides changing the state. *)
Inductive Effect :=
| Notify (n : Notification)
| Emit (event : jsstring).

(** U+2014 and U+2013, the dashes of the messages. *)
Definition emDash : jsstring := [8212%N].
Definition enDash : jsstring := [8211%N].

Definition newline : jsstring := [10%N].

(** The URL that [start] returns, as text. *)
Definition urlText (u : Url) : jsstring :=
  match u with
  | Localhost p => JS.lit "http://localhost:" ++ Text.decimal (Z.to_N p)
  end.

(** [`${getUrl()}`]: a null is written as the word. *)
Definition urlOrNull (u : option Url) : jsstring :=
  match u with
  | Some u' => urlText u'
  | None => JS.lit "null"
  end.

(** The lines that the loops over a mount list add for one mount. *)
Definition mountLine (m : MountInfo) : jsstring :=
  newline ++ JS.lit "  " ++ infoPrefix m ++ JS.lit " " ++ emDash ++ JS.lit " "
          ++ infoLabel m
          ++ (if JS.truthy (infoDescription m)
              then JS.lit " (" ++ JS.orElse (infoDescription m) [] ++ JS.lit ")"
              else []).

Definition mountLines (msg : jsstring) (ms : list MountInfo) : jsstring :=
  fold_left (fun acc m => acc ++ mountLine m) ms msg.

Definition isEmpty (s : jsstring) : bool :=
  match s with [] => true | _ => false end.

Definition enabledWord (b : bool) : jsstring :=
  if b then JS.lit "enabled" else JS.lit "disabled".

Section Extension.

Variable RouteHandler : Type.

(** The handler of the session_start event; the two arguments are
[process.env.PI_WEB_AUTH] and [process.env.API_TOKEN]. *)
Definition sessionStart (envAuth envApiToken : option jsstring)
           (st : State RouteHandler) : State RouteHandler * list Effect :=
  let r1 :=
    if JS.truthy envAuth then
      let v := JS.orElse envAuth [] in
      let colon := JS.indexOf v (JS.lit ":") in
      (if negb (colon =? -1)%Z
       then setAuth (Some (mkAuthConfig (Some (JS.slice v 0 (Some colon)))
                                        (JS.slice v (colon + 1) None))) st
       else setAuth (Some (mkAuthConfig None v)) st,
       [Notify (info (JS.lit "Web server auth configured from PI_WEB_AUTH"))])
    else (st, []) in
  let r2 :=
    if JS.truthy envApiToken then
      (setApiToken envApiToken (fst r1),
       [Notify (info (JS.lit "API token auth configured from API_TOKEN"))])
    else (fst r1, []) in
  (fst r2, snd r1 ++ snd r2 ++ [Emit (JS.lit "web:ready")]).

(** The handler of the session_shutdown event. *)
Definition sessionShutdown (st : State RouteHandler) : State RouteHandler :=
  snd (stop st).

(** The message of /web api status. *)
Definition apiStatusMessage (st : State RouteHandler) : jsstring :=
  let tokenStatus := getApiTokenStatus st in
  let apiMounts := getApiMounts st in
  let msg := JS.lit "API token: " ++ enabledWord (enabled tokenStatus) in
  if (0 <? List.length apiMounts)%nat then
    mountLines (msg ++ newline ++ JS.lit "API mounts ("
                    ++ Text.decimal (N.of_nat (List.length apiMounts))
                    ++ JS.lit "):")
               apiMounts
  else msg ++ newline ++ JS.lit "No API extensions mounted".

(** The message of /web status for a running server. *)
Definition statusMessage (st : State RouteHandler) : jsstring :=
  let mountList := getMounts st in
  let auth := getAuth st in
  let tokenStatus := getApiTokenStatus st in
  let msg := JS.lit "Web server running at " ++ urlOrNull (getUrl st) in
  let msg := msg ++ newline ++ JS.lit "Auth: "
                 ++ match auth with
                    | AuthEnabled user =>
                        JS.lit "enabled (user: " ++ user ++ JS.lit ")"
                    | AuthDisabled => JS.lit "disabled"
                    end in
  let msg := msg ++ newline ++ JS.lit "API token: "
                 ++ enabledWord (enabled tokenStatus) in
  if (0 <? List.length mountList)%nat
  then mountLines (msg ++ newline ++ JS.lit "Mounts:") mountList
  else msg ++ newline ++ JS.lit "No extensions mounted".

(** The message after /web has started the server. *)
Definition startedMessage (url : Url) (st : State RouteHandler) : jsstring :=
  let mountList := getMounts st in
  let msg := JS.lit "Web server: " ++ urlText url in
  if (0 <? List.length mountList)%nat then
    msg ++ newline ++ Text.decimal (N.of_nat (List.length mountList))
        ++ JS.lit " mount"
        ++ (if (1 <? List.length mountList)%nat then JS.lit "s" else [])
        ++ JS.lit ": " ++ Text.join (JS.lit ", ") (List.map infoPrefix mountList)
  else msg.

(** How the handler of a command ends: the state, the notifications, and
the exception when [start] threw. *)
Definition CommandResult : Type :=
  State RouteHandler * list Notification * option JsError.

Definition finish (st : State RouteHandler) (n : Notification) : CommandResult :=
  (st, [n], None).

(** [const url = start(port); ctx.ui.notify(message(url), "info")]; an
exception of [start] leaves the handler before the notification. *)
Definition startAndNotify (dashboard : Exc jsstring) (port : Z)
           (st : State RouteHandler)
           (message : Url -> State RouteHandler -> jsstring) : CommandResult :=
  match start dashboard (Some port) st with
  | (Ok url, st') => finish st' (info (message url st'))
  | (Throw e, st') => (st', [], Some e)
  end.

(** The handler of the /web command; [dashboard] is what reading the
dashboard file gives if the handler comes to call [start]. *)
Definition webCommand (dashboard : Exc jsstring) (args : option jsstring)
           (st : State RouteHandler) : CommandResult :=
  let arg := match args with Some a => Text.trim a | None => [] end in
  if JS.eqb arg (JS.lit "stop") then
    let was := fst (stop st) in
    finish (snd (stop st))
           (info (if was then JS.lit "Web server stopped"
                  else JS.lit "Web server is not running"))
  else if JS.eqb arg (JS.lit "auth") || JS.startsWith arg (JS.lit "auth ") then
    let authArg := Text.trim (JS.slice arg 5 None) in
    if isEmpty authArg || JS.eqb authArg (JS.lit "status") then
      finish st
             (info (match getAuth st with
                    | AuthEnabled user =>
                        JS.lit "Auth enabled (user: " ++ user ++ JS.lit ")"
                    | AuthDisabled => JS.lit "Auth disabled"
                    end))
    else if JS.eqb authArg (JS.lit "off") then
      finish (setAuth None st) (info (JS.lit "Auth disabled"))
    else
      let colon := JS.indexOf authArg (JS.lit ":") in
      if negb (colon =? -1)%Z then
        finish (setAuth (Some (mkAuthConfig
                                 (Some (JS.slice authArg 0 (Some colon)))
                                 (JS.slice authArg (colon + 1) None))) st)
               (info (JS.lit "Auth enabled (user: "
                             ++ JS.slice authArg 0 (Some colon) ++ JS.lit ")"))
      else
        finish (setAuth (Some (mkAuthConfig None authArg)) st)
               (info (JS.lit "Auth enabled (user: pi)"))
  else if JS.eqb arg (JS.lit "api") || JS.startsWith arg (JS.lit "api ") then
    let apiArg := Text.trim (JS.slice arg 4 None) in
    if isEmpty apiArg || JS.eqb apiArg (JS.lit "status") then
      finish st (info (apiStatusMessage st))
    else if JS.eqb apiArg (JS.lit "off") then
      finish (setApiToken None st)
             (info (JS.lit "API token auth disabled " ++ emDash
                           ++ JS.lit " /api/* routes are open"))
    else
      finish (setApiToken (Some apiArg) st)
             (info (JS.lit "API token auth enabled " ++ emDash
                           ++ JS.lit " /api/* requires Bearer token"))
  else if JS.eqb arg (JS.lit "port") || JS.startsWith arg (JS.lit "port ") then
    let portArg := Text.trim (JS.slice arg 5 None) in
    if isEmpty portArg then
      finish st
             (info (match getPort st with
                    | Some current =>
                        if (current =? 0)%Z then JS.lit "Web server is not running"
                        else JS.lit "Current port: "
                                    ++ Text.decimal (Z.to_N current)
                    | None => JS.lit "Web server is not running"
                    end))
    else
      let newPort := Text.parseInt portArg in
      if Text.isNaN newPort || Text.below newPort 1 || Text.above newPort 65535
      then
        finish st (mkNotification
                     (JS.lit "Invalid port number (must be 1" ++ enDash
                             ++ JS.lit "65535)")
                     (JS.lit "error"))
      else
        match newPort with
        | Text.Int p =>
            startAndNotify dashboard p st
              (fun url _ =>
                 JS.lit "Web server restarted on port "
                        ++ Text.decimal (Z.to_N p) ++ JS.lit ": " ++ urlText url)
        | Text.NaN => (st, [], None) (* not reached: NaN was refused above *)
        end
  else if JS.eqb arg (JS.lit "status") then
    if negb (isRunning st) then
      finish st (info (JS.lit "Web server is not running"))
    else finish st (info (statusMessage st))
  else
    let port :=
      Text.orNumber (Text.parseInt (JS.orDefault arg (JS.lit "4100"))) 4100 in
    let wasRunning := fst (stop st) in
    let st1 := snd (stop st) in
    if wasRunning && isEmpty arg then
      finish st1 (info (JS.lit "Web server stopped"))
    else startAndNotify dashboard port st1 startedMessage.

(** What reaches the module through the extension: the four events of the
bus, the command, and the two session events. *)
Inductive ExtensionEvent :=
| BusMount (config : MountConfig RouteHandler)
| BusUnmount (name : jsstring)
| BusMountApi (config : MountConfig RouteHandler)
| BusUnmountApi (name : jsstring)
| Command (dashboard : Exc jsstring) (args : option jsstring)
| SessionStart (envAuth envApiToken : option jsstring)
| SessionShutdown.

Definition handleEvent (st : State RouteHandler) (e : ExtensionEvent)
  : State RouteHandler :=
  match e with
  | BusMount config => mount config st
  | BusUnmount n => snd (unmount n st)
  | BusMountApi config => mountApi config st
  | BusUnmountApi n => snd (unmountApi n st)
  | Command dashboard args => fst (fst (webCommand dashboard args st))
  | SessionStart envAuth envApiToken => fst (sessionStart envAuth envApiToken st)
  | SessionShutdown => sessionShutdown st
  end.

Definition handleEvents (events : list ExtensionEvent)
           (st : State RouteHandler) : State RouteHandler :=
  fold_left handleEvent events st.

End Extension.

Arguments Command {RouteHandler} dashboard args.
Arguments SessionStart {RouteHandler} envAuth envApiToken.
Arguments SessionShutdown {RouteHandler}.
Arguments BusUnmount {RouteHandler} name.
Arguments BusUnmountApi {RouteHandler} name.

(* ================================================================== *)
(** * Words for statements about the extension *)
(* ================================================================== *)

(** White space only. *)
Definition Blank (w : jsstring) : Prop :=
  Forall (fun c => Text.isWhiteSpace c = true) w.

Definition hasColon (v : jsstring) : bool := existsb (N.eqb colon) v.

(** What a Basic credential has to decode to when the credential was
configured with the text [v]. *)
Definition credentialText (v : jsstring) : jsstring :=
  if hasColon v then v else JS.lit "pi:" ++ v.

Section ExtensionWords.

Variable RouteHandler : Type.

(** The session gate lets a request pass exactly when its Basic credential
decodes to [text]. *)
Definition AcceptsOnly (decode : jsstring -> jsstring)
           (st : State RouteHandler) (text : jsstring) : Prop :=
  forall req : Request,
    SessionPasses decode st req <->
    exists encoded,
      authorization req = Some (JS.lit "Basic " ++ encoded) /\
      decode encoded = text.

(** The calls of the module that the extension makes: it never sets the
read token, never sets the empty string as the token, and takes a user
name only from before the first colon. *)
Definition fromExtension (c : Call RouteHandler) : Prop :=
  match c with
  | CallSetApiReadToken _ => False
  | CallSetApiToken (Some []) => False
  | CallSetAuth (Some config) =>
      match cfgUsername config with
      | Some user => ~ In colon user
      | None => True
      end
  | _ => True
  end.

Definition stateOf (r : CommandResult RouteHandler) : State RouteHandler :=
  fst (fst r).

Definition notesOf (r : CommandResult RouteHandler) : list Notification :=
  snd (fst r).

Definition errorOf (r : CommandResult RouteHandler) : option JsError := snd r.

(** What the calls of the extension keep true of the secrets. *)
Definition ExtensionSecrets (st : State RouteHandler) : Prop :=
  apiReadToken st = None /\ apiToken st <> Some [] /\
  forall creds, authCredentials st = Some creds -> ~ In colon (username creds).

(** Nothing but the life cycle differs between the two states. *)
Definition SameConfiguration (st1 st2 : State RouteHandler) : Prop :=
  mounts st1 = mounts st2 /\ authCredentials st1 = authCredentials st2 /\
  apiToken st1 = apiToken st2 /\ apiReadToken st1 = apiReadToken st2.

(** Nothing but the configuration differs between the two states. *)
Definition SameLifeCycle (st1 st2 : State RouteHandler) : Prop :=
  server st1 = server st2 /\ serverPort st1 = serverPort st2 /\
  sockets st1 = sockets st2.

End ExtensionWords.

(* ================================================================== *)
(** * More examples *)
(* ================================================================== *)

(** The calls that produce [extAndSub]. *)
Definition extAndSubCalls : list (Call unit) :=
  [CallMount (sampleMount "ext" "/ext" None);
   CallMount (sampleMount "sub" "ext/sub/" None);
   CallMount (sampleMount "twin" "/ext" None)].

(** The name sub again, at another prefix; and a name that is new. *)
Definition remount : MountConfig unit := sampleMount "sub" "/other" None.

Definition docsMount : MountConfig unit := sampleMount "docs" "/docs" None.

Definition subPage : Request := request "GET" "/ext/sub/x" None.

(** A user name with a colon. *)
Definition colonUser : AuthConfig :=
  mkAuthConfig (Some (JS.lit "a:b")) (JS.lit "pw").

Definition space : jsstring := JS.lit " ".

Definition sampleDashboard : Exc jsstring := Ok (JS.lit "<html>").

(** The two configurations of the status example, with a server running. *)
Definition runningSecret : State unit := snd (start sampleDashboard None piSecret).

Definition runningOther : State unit := snd (start sampleDashboard None piOther).
(* ================================================================== *)
(** * Facts about JavaScript strings *)
(* ================================================================== *)

Lemma eqb_eq (a b : jsstring) : JS.eqb a b = true <-> a = b.
Proof.
  revert b; induction a as [|x a IH]; intros [|y b]; simpl;
    try (split; [discriminate | discriminate]); try tauto.
  rewrite andb_true_iff, N.eqb_eq, IH.
  split; [intros [-> ->]; reflexivity | intros H; inversion H; auto].
Qed.

Lemma eqb_refl (a : jsstring) : JS.eqb a a = true.
Proof. apply eqb_eq; reflexivity. Qed.

Lemma eqb_neq (a b : jsstring) : JS.eqb a b = false <-> a <> b.
Proof.
  rewrite <- eqb_eq. destruct (JS.eqb a b); split; congruence.
Qed.

Lemma startsWith_iff (s p : jsstring) :
  JS.startsWith s p = true <-> exists rest, s = p ++ rest.
Proof.
  revert s; induction p as [|c p IH]; intros s; simpl.
  - split; [intros _; exists s; reflexivity | reflexivity].
  - destruct s as [|d s].
    + split; [discriminate | intros [r H]; discriminate].
    + rewrite andb_true_iff, N.eqb_eq, IH. split.
      * intros [-> [r ->]]. exists r; reflexivity.
      * intros [r H]. inversion H; subst. split; [reflexivity | exists r; reflexivity].
Qed.

Lemma startsWith_app (p rest : jsstring) : JS.startsWith (p ++ rest) p = true.
Proof. apply startsWith_iff. exists rest; reflexivity. Qed.

Lemma slice_from (s : jsstring) (n : nat) :
  JS.slice s (Z.of_nat n) None = skipn n s.
Proof.
  unfold JS.slice, JS.clampIndex.
  destruct (Z.of_nat n <? 0)%Z eqn:E; [apply Z.ltb_lt in E; lia|].
  destruct (Nat.le_gt_cases n (List.length s)) as [Hle|Hgt].
  - rewrite Z.min_l by lia. rewrite Nat2Z.id.
    replace (Z.to_nat (Z.of_nat (List.length s) - Z.of_nat n))
      with (List.length (skipn n s)) by (rewrite length_skipn; lia).
    apply firstn_all.
  - rewrite Z.min_r by lia. rewrite Nat2Z.id, Z.sub_diag. simpl.
    rewrite skipn_all2 by lia. reflexivity.
Qed.

Lemma slice_after (p rest : jsstring) :
  JS.slice (p ++ rest) (JS.length p) None = rest.
Proof.
  unfold JS.length. rewrite slice_from.
  rewrite skipn_app, skipn_all, Nat.sub_diag. reflexivity.
Qed.

Lemma slice_upto (s : jsstring) (n : nat) :
  JS.slice s 0 (Some (Z.of_nat n)) = firstn n s.
Proof.
  unfold JS.slice, JS.clampIndex. simpl (0 <? 0)%Z. cbv iota.
  destruct (Z.of_nat n <? 0)%Z eqn:E; [apply Z.ltb_lt in E; lia|].
  rewrite (Z.min_l 0) by lia. simpl skipn. rewrite Z.sub_0_r.
  destruct (Nat.le_gt_cases n (List.length s)) as [Hle|Hgt].
  - rewrite Z.min_l by lia. rewrite Nat2Z.id. reflexivity.
  - rewrite Z.min_r by lia. rewrite Nat2Z.id.
    rewrite firstn_all. symmetry. apply firstn_all2. lia.
Qed.

(* ================================================================== *)
(** * The router *)
(* ================================================================== *)

Section Router.

Variable RouteHandler : Type.

Implicit Types c best : MountConfig RouteHandler.

Lemma matchesPrefix_iff (path : jsstring) c :
  matchesPrefix path c = true <-> Matches path c.
Proof.
  unfold matchesPrefix, Matches.
  rewrite orb_true_iff, eqb_eq, startsWith_iff.
  split; (intros [H | [rest H]]; [left; exact H | right; exists rest]).
  - rewrite H, <- app_assoc. reflexivity.
  - rewrite H, app_assoc. reflexivity.
Qed.

Lemma matchesPrefix_false (path : jsstring) c :
  matchesPrefix path c = false <-> ~ Matches path c.
Proof.
  rewrite <- matchesPrefix_iff.
  destruct (matchesPrefix path c); split; congruence.
Qed.

Lemma considerMount_invariant (path : jsstring)
      (seen : list (MountConfig RouteHandler)) bestMatch c :
  LoopInvariant path seen bestMatch ->
  LoopInvariant path (seen ++ [c]) (considerMount path bestMatch c).
Proof.
  intros Inv. unfold considerMount.
  destruct (matchesPrefix path c) eqn:M.
  - apply matchesPrefix_iff in M.
    destruct bestMatch as [best|]; simpl in Inv.
    + destruct Inv as (Mb & before & after & -> & Hb & Ha).
      unfold JS.length.
      destruct (Z.of_nat (List.length (prefix c))
                >? Z.of_nat (List.length (prefix best)))%Z eqn:G.
      * assert (List.length (prefix best) < List.length (prefix c))%nat as Lt
            by (apply Z.gtb_lt in G; lia).
        simpl. split; [exact M|].
        exists (before ++ best :: after), []. split; [reflexivity|]. split.
        -- intros c' Hin Hm. apply in_app_or in Hin as [Hin | [<- | Hin]].
           ++ specialize (Hb _ Hin Hm). lia.
           ++ exact Lt.
           ++ specialize (Ha _ Hin Hm). lia.
        -- intros c' [].
      * assert (List.length (prefix c) <= List.length (prefix best))%nat as Le.
        { destruct (Z.gtb_spec (Z.of_nat (List.length (prefix c)))
                               (Z.of_nat (List.length (prefix best))));
            [discriminate | lia]. }
        simpl. split; [exact Mb|].
        exists before, (after ++ [c]). split; [rewrite <- app_assoc; reflexivity|].
        split; [exact Hb|].
        intros c' Hin Hm. apply in_app_or in Hin as [Hin | [<- | []]].
        -- exact (Ha _ Hin Hm).
        -- exact Le.
    + simpl. split; [exact M|]. exists seen, []. split; [reflexivity|]. split.
      * intros c' Hin Hm. exfalso. exact (Inv _ Hin Hm).
      * intros c' [].
  - apply matchesPrefix_false in M.
    destruct bestMatch as [best|]; simpl in *.
    + destruct Inv as (Mb & before & after & -> & Hb & Ha).
      split; [exact Mb|].
      exists before, (after ++ [c]). split; [rewrite <- app_assoc; reflexivity|].
      split; [exact Hb|].
      intros c' Hin Hm. apply in_app_or in Hin as [Hin | [<- | []]].
      * exact (Ha _ Hin Hm).
      * contradiction.
    + intros c' Hin. apply in_app_or in Hin as [Hin | [<- | []]];
        [exact (Inv _ Hin) | exact M].
Qed.

Lemma loop_invariant (path : jsstring) (todo : list (MountConfig RouteHandler)) :
  forall seen bestMatch,
    LoopInvariant path seen bestMatch ->
    LoopInvariant path (seen ++ todo)
                  (fold_left (considerMount path) todo bestMatch).
Proof.
  induction todo as [|c todo IH]; intros seen bestMatch Inv; simpl.
  - rewrite app_nil_r. exact Inv.
  - replace (seen ++ c :: todo) with ((seen ++ [c]) ++ todo)
      by (rewrite <- app_assoc; reflexivity).
    apply IH, considerMount_invariant, Inv.
Qed.

Lemma findBestMatch_invariant (ms : list (jsstring * MountConfig RouteHandler))
      (path : jsstring) :
  LoopInvariant path (mapValues ms) (findBestMatch ms path).
Proof.
  unfold findBestMatch.
  apply (loop_invariant path (mapValues ms) [] None).
  intros c [].
Qed.

Lemma subPathOf_residual (path : jsstring) c :
  Matches path c -> Residual path c (subPathOf path c).
Proof.
  unfold subPathOf, Residual. intros [-> | [rest ->]].
  - exists []. split; [rewrite app_nil_r; reflexivity|].
    rewrite <- (app_nil_r (prefix c)) at 1. rewrite slice_after. reflexivity.
  - exists (JS.lit "/" ++ rest). split; [reflexivity|].
    rewrite slice_after. reflexivity.
Qed.

(** C1. The router selects a registration exactly when some registration
matches the path (the path equals its prefix, or starts with its prefix
followed by "/"); the registration it selects matches, no matching
registration has a longer prefix, and every matching registration that
comes earlier in insertion order has a strictly shorter prefix (first seen
wins a tie); the sub-path handed over is the path without the matched
prefix, or "/" when nothing remains. *)
Theorem router_longest_prefix_first_seen
        (ms : list (jsstring * MountConfig RouteHandler)) (path : jsstring) :
  ((exists c, In c (mapValues ms) /\ Matches path c) <->
   (exists best subPath, route ms path = Some (best, subPath)))
  /\
  (forall best subPath,
      route ms path = Some (best, subPath) ->
      Matches path best /\
      (exists before after,
          mapValues ms = before ++ best :: after /\
          (forall c, In c before -> Matches path c ->
                     (List.length (prefix c) < List.length (prefix best))%nat) /\
          (forall c, In c after -> Matches path c ->
                     (List.length (prefix c) <= List.length (prefix best))%nat)) /\
      Residual path best subPath).
Proof.
  pose proof (findBestMatch_invariant ms path) as Inv.
  unfold route. destruct (findBestMatch ms path) as [b|]; simpl in Inv.
  - destruct Inv as (Mb & Hsplit). split.
    + split; [intros _; eauto|].
      intros _. destruct Hsplit as (before & after & E & _).
      exists b. split; [|exact Mb]. rewrite E. apply in_elt.
    + intros best sub H. inversion H; subst.
      split; [exact Mb|]. split; [exact Hsplit|].
      apply subPathOf_residual, Mb.
  - split.
    + split.
      * intros (c & Hin & Hm). exfalso. exact (Inv c Hin Hm).
      * intros (best & sub & H). discriminate.
    + intros best sub H. discriminate.
Qed.

End Router.

(** Longest prefix wins; the first of two mounts with the same prefix wins;
a path equal to the prefix gives the sub-path "/"; registering a name again
moves it to the new prefix; after [unmount] the shorter prefix takes
over. *)
Example route_examples :
  route (mounts extAndSub) (JS.lit "/ext/sub/page")
  = Some (stored "sub" "/ext/sub", JS.lit "/page") /\
  route (mounts extAndSub) (JS.lit "/ext/other")
  = Some (stored "ext" "/ext", JS.lit "/other") /\
  route (mounts extAndSub) (JS.lit "/ext") = Some (stored "ext" "/ext", JS.lit "/") /\
  route (mounts extAndSub) (JS.lit "/extra") = None /\
  route (mounts (mount (sampleMount "sub" "/moved" None) extAndSub))
        (JS.lit "/ext/sub/page")
  = Some (stored "ext" "/ext", JS.lit "/sub/page") /\
  route (mounts (snd (unmount (JS.lit "sub") extAndSub))) (JS.lit "/ext/sub/page")
  = Some (stored "ext" "/ext", JS.lit "/sub/page").
Proof. repeat split. Qed.

(* ================================================================== *)
(** * Buffers and the comparison of tokens *)
(* ================================================================== *)

Lemma diffBits_zero (a : Buffer.buffer) :
  forall (b : Buffer.buffer) (acc : N),
    List.length a = List.length b ->
    (Buffer.diffBits a b acc = 0%N <-> acc = 0%N /\ a = b).
Proof.
  induction a as [|x a IH]; intros [|y b] acc Hlen; simpl in *; try discriminate.
  - tauto.
  - injection Hlen as Hlen. rewrite (IH b _ Hlen), N.lor_eq_0_iff. split.
    + intros [[-> Hx] ->]. apply N.lxor_eq in Hx. subst. auto.
    + intros [-> H]. inversion H; subst. rewrite N.lxor_nilpotent. auto.
Qed.

Lemma timingSafeEqual_same_length (a b : Buffer.buffer) :
  List.length a = List.length b ->
  Buffer.timingSafeEqual a b = Ok (N.eqb (Buffer.diffBits a b 0) 0).
Proof.
  intros H. unfold Buffer.timingSafeEqual.
  rewrite H, Nat.eqb_refl. reflexivity.
Qed.

Lemma timingSafeEqual_true (a b : Buffer.buffer) :
  Buffer.timingSafeEqual a b = Ok true <-> a = b.
Proof.
  unfold Buffer.timingSafeEqual.
  destruct (Nat.eqb (List.length a) (List.length b)) eqn:E.
  - apply Nat.eqb_eq in E. split.
    + intros H. injection H as H. apply N.eqb_eq in H.
      apply (diffBits_zero a b 0 E) in H. tauto.
    + intros ->. f_equal. apply N.eqb_eq.
      apply (diffBits_zero b b 0 eq_refl). auto.
  - split; [discriminate|]. intros ->. rewrite Nat.eqb_refl in E. discriminate.
Qed.



Lemma cons_eq_inv (A : Type) (x y : A) (l l' : list A) :
  x :: l = y :: l' -> x = y /\ l = l'.
Proof. intros H. injection H; auto. Qed.


Lemma tokensEqual_true (a b : option jsstring) :
  tokensEqual a b = Ok true <->
  exists s t, a = Some s /\ b = Some t /\ s <> [] /\ t <> [] /\
              Buffer.from s = Buffer.from t.
Proof.
  unfold tokensEqual.
  destruct a as [[|x a]|]; cbn [JS.truthy negb orb];
    try (split; [discriminate | intros (s & t & E1 & E2 & N1 & N2 & _);
                                 inversion E1; subst; congruence]).
  destruct b as [[|y b]|]; cbn [JS.truthy negb orb];
    try (split; [discriminate | intros (s & t & E1 & E2 & N1 & N2 & _);
                                 inversion E2; subst; congruence]).
  destruct (Nat.eqb (List.length (Buffer.from (x :: a)))
                    (List.length (Buffer.from (y :: b)))) eqn:E;
    cbn [negb].
  - rewrite timingSafeEqual_true. split.
    + intros H. exists (x :: a), (y :: b). repeat split; try discriminate. exact H.
    + intros (s & t & E1 & E2 & _ & _ & H). inversion E1; inversion E2; subst.
      exact H.
  - split; [discriminate|].
    intros (s & t & E1 & E2 & _ & _ & H). inversion E1; inversion E2; subst.
    rewrite H, Nat.eqb_refl in E. discriminate.
Qed.

Lemma tokensEqual_total (a b : option jsstring) :
  tokensEqual a b = Ok true \/ tokensEqual a b = Ok false.
Proof.
  unfold tokensEqual.
  destruct a as [[|x a]|]; cbn [JS.truthy negb orb]; auto.
  destruct b as [[|y b]|]; cbn [JS.truthy negb orb]; auto.
  destruct (Nat.eqb (List.length (Buffer.from (x :: a)))
                    (List.length (Buffer.from (y :: b)))) eqn:E;
    cbn [negb]; auto.
  apply Nat.eqb_eq in E. rewrite (timingSafeEqual_same_length _ _ E).
  destruct (N.eqb _ _); auto.
Qed.

Lemma tokensEqual_false (a b : option jsstring) :
  tokensEqual a b <> Ok true -> tokensEqual a b = Ok false.
Proof. destruct (tokensEqual_total a b); [contradiction | auto]. Qed.





Lemma afterScheme_iff (header : option jsstring) (p b : jsstring) :
  afterScheme header p (JS.length p) = Some b <-> header = Some (p ++ b).
Proof.
  unfold afterScheme. destruct header as [h|]; [|split; discriminate].
  destruct (JS.startsWith h p) eqn:E.
  - apply startsWith_iff in E as [rest ->]. rewrite slice_after. split.
    + intros H. injection H as ->. reflexivity.
    + intros H. injection H as H. apply app_inv_head in H. subst. reflexivity.
  - split; [discriminate|]. intros H. injection H as ->.
    rewrite startsWith_app in E. discriminate.
Qed.



(* ================================================================== *)
(** * The token gate *)
(* ================================================================== *)

Lemma truthy_iff (token : option jsstring) :
  JS.truthy token = true <-> Configured token.
Proof.
  unfold Configured. destruct token as [[|x t]|]; simpl.
  - split; [discriminate | intros (s & E & N); inversion E; subst; congruence].
  - split; [intros _; eexists; split; [reflexivity | discriminate] | reflexivity].
  - split; [discriminate | intros (s & E & _); discriminate].
Qed.

Lemma tokensEqual_presents (req : Request) (token : option jsstring) :
  tokensEqual (afterScheme (authorization req) (JS.lit "Bearer ") 7) token
  = Ok true <-> Presents req token.
Proof.
  rewrite tokensEqual_true. unfold Presents.
  change 7%Z with (JS.length (JS.lit "Bearer ")). split.
  - intros (s & t & E1 & -> & Ns & Nt & E).
    apply afterScheme_iff in E1. exists s, t. auto.
  - intros (s & t & E1 & -> & Ns & Nt & E). exists s, t.
    apply afterScheme_iff in E1. auto.
Qed.



Section TokenGate.

Variable RouteHandler : Type.

Implicit Types st : State RouteHandler.

Lemma checkApiAuth_open st (req : Request) (res : ServerResponse) :
  ~ Configured (apiToken st) -> ~ Configured (apiReadToken st) ->
  checkApiAuth st req res = Ok (true, res).
Proof.
  intros H1 H2. unfold checkApiAuth.
  rewrite <- truthy_iff in H1, H2.
  destruct (JS.truthy (apiToken st)); [congruence|].
  destruct (JS.truthy (apiReadToken st)); [congruence|]. reflexivity.
Qed.

Lemma checkApiAuth_gated st (req : Request) (res : ServerResponse) :
  Configured (apiToken st) \/ Configured (apiReadToken st) ->
  checkApiAuth st req res =
  (full <- tokensEqual (afterScheme (authorization req) (JS.lit "Bearer ") 7)
                       (apiToken st) ;;
   if full then Ok (true, res)
   else
     read <- tokensEqual (afterScheme (authorization req) (JS.lit "Bearer ") 7)
                         (apiReadToken st) ;;
     if read then
       if isReadMethod req then Ok (true, res) else Ok (false, forbidden res)
     else Ok (false, invalidToken res)).
Proof.
  intros H. unfold checkApiAuth. rewrite <- !truthy_iff in H.
  destruct (JS.truthy (apiToken st)); [reflexivity|].
  destruct (JS.truthy (apiReadToken st)); [reflexivity|].
  destruct H; discriminate.
Qed.

Lemma checkApiAuth_full st (req : Request) (res : ServerResponse) :
  Configured (apiToken st) \/ Configured (apiReadToken st) ->
  Presents req (apiToken st) ->
  checkApiAuth st req res = Ok (true, res).
Proof.
  intros C P. rewrite (checkApiAuth_gated st req res C).
  apply tokensEqual_presents in P. rewrite P. reflexivity.
Qed.


Lemma checkApiAuth_invalid st (req : Request) (res : ServerResponse) :
  Configured (apiToken st) \/ Configured (apiReadToken st) ->
  ~ Presents req (apiToken st) -> ~ Presents req (apiReadToken st) ->
  checkApiAuth st req res = Ok (false, invalidToken res).
Proof.
  intros C NP NP'. rewrite (checkApiAuth_gated st req res C).
  rewrite <- tokensEqual_presents in NP.
  rewrite <- tokensEqual_presents in NP'.
  rewrite (tokensEqual_false _ _ NP). cbn [bindExc].
  rewrite (tokensEqual_false _ _ NP'). reflexivity.
Qed.


End TokenGate.

(** A header written in ASCII is one that the HTTP parser can deliver. *)
Lemma request_latin1 (m p : string) (auth : option string) :
  HeaderLatin1 (request m p auth).
Proof.
  intros h H. destruct auth as [a|]; [|discriminate].
  injection H as <-. unfold JS.lit, JS.latin1.
  apply Forall_map, Forall_forall. intros c _.
  unfold N_of_ascii. destruct c as [[] [] [] [] [] [] [] []]; reflexivity.
Qed.

(** The specification's example, with the tokens "F" and "R": [Bearer F] is
allowed, a POST with [Bearer R] gets the 403, a GET with [Bearer R] is
allowed, a wrong bearer and a missing header get the 401. *)
Example token_gate_examples :
  checkApiAuth tokensFR (request "GET" "/api" (header "Bearer F")) corsResponse
  = Ok (true, corsResponse) /\
  checkApiAuth tokensFR (request "POST" "/api" (header "Bearer R")) corsResponse
  = Ok (false, forbidden corsResponse) /\
  checkApiAuth tokensFR (request "GET" "/api" (header "Bearer R")) corsResponse
  = Ok (true, corsResponse) /\
  checkApiAuth tokensFR (request "GET" "/api" (header "Bearer wrong")) corsResponse
  = Ok (false, invalidToken corsResponse) /\
  checkApiAuth tokensFR (request "GET" "/api" None) corsResponse
  = Ok (false, invalidToken corsResponse).
Proof. repeat split. Qed.


(* ================================================================== *)
(** * The session gate *)
(* ================================================================== *)

Lemma first_occurrence (c : N) (s : jsstring) :
  In c s -> exists u r, s = u ++ c :: r /\ ~ In c u.
Proof.
  induction s as [|x s IH]; intros H; [destruct H|].
  destruct (N.eq_dec x c) as [->|Hne].
  - exists [], s. split; [reflexivity | intros []].
  - destruct H as [H|H]; [contradiction|].
    destruct (IH H) as (u & r & -> & Hu).
    exists (x :: u), r. split; [reflexivity|].
    intros [E|E]; [contradiction | exact (Hu E)].
Qed.

Lemma indexOfFrom_absent (c : N) (s : jsstring) :
  forall i, ~ In c s -> JS.indexOfFrom s [c] i = (-1)%Z.
Proof.
  induction s as [|x s IH]; intros i H; simpl.
  - reflexivity.
  - destruct (N.eqb_spec x c) as [->|Hne].
    + exfalso. apply H. left; reflexivity.
    + simpl. apply IH. intros Hin. apply H. right; exact Hin.
Qed.

Lemma indexOfFrom_first (c : N) (u r : jsstring) :
  forall i, ~ In c u ->
            JS.indexOfFrom (u ++ c :: r) [c] i = (i + Z.of_nat (List.length u))%Z.
Proof.
  induction u as [|x u IH]; intros i H.
  - simpl. rewrite N.eqb_refl. simpl. lia.
  - cbn [app JS.indexOfFrom JS.startsWith].
    destruct (N.eqb_spec x c) as [->|Hne].
    + exfalso. apply H. left; reflexivity.
    + cbn [andb]. rewrite IH by (intros Hin; apply H; right; exact Hin).
      cbn [List.length]. lia.
Qed.

Lemma split_at_colon (u r : jsstring) :
  ~ In colon u ->
  let decoded := u ++ colon :: r in
  let k := JS.indexOf decoded (JS.lit ":") in
  (k =? -1)%Z = false /\
  JS.slice decoded 0 (Some k) = u /\
  JS.slice decoded (k + 1) None = r.
Proof.
  intros Hu decoded k.
  assert (k = Z.of_nat (List.length u)) as ->.
  { unfold k, JS.indexOf, decoded. change (JS.lit ":") with [colon].
    rewrite (@indexOfFrom_first colon u r 0%Z Hu). lia. }
  split; [apply Z.eqb_neq; lia|]. unfold decoded. split.
  - rewrite slice_upto, firstn_app, firstn_all, Nat.sub_diag, app_nil_r.
    reflexivity.
  - replace (Z.of_nat (List.length u) + 1)%Z
      with (Z.of_nat (List.length (u ++ [colon])))
      by (rewrite length_app; simpl; lia).
    replace (u ++ colon :: r) with ((u ++ [colon]) ++ r)
      by (rewrite <- app_assoc; reflexivity).
    rewrite slice_from, skipn_app, skipn_all, Nat.sub_diag. reflexivity.
Qed.

Lemma first_colon_unique (a b x y : jsstring) :
  ~ In colon a -> ~ In colon b ->
  a ++ colon :: x = b ++ colon :: y -> a = b /\ x = y.
Proof.
  revert b. induction a as [|p a IH]; intros [|q b] Ha Hb H.
  - injection H as ->. auto.
  - injection H as H _. exfalso. apply Hb. left. auto.
  - injection H as H _. exfalso. apply Ha. left. auto.
  - injection H as -> H.
    destruct (IH b) as [-> ->]; auto;
      intros Hin; [apply Ha | apply Hb]; right; exact Hin.
Qed.

(** What is not in the table of the base64 decoder, and is not "=", is
skipped. *)
Lemma sextets_skips (a b : jsstring) (c : N) :
  Buffer.unbase64 (c mod 256) = None -> (c mod 256)%N <> Buffer.padding ->
  Buffer.sextets (a ++ c :: b) = Buffer.sextets (a ++ b).
Proof.
  intros U P. induction a as [|x a IH]; cbn [app Buffer.sextets].
  - rewrite U. destruct (N.eqb_spec (c mod 256) Buffer.padding);
      [contradiction | reflexivity].
  - destruct (Buffer.unbase64 (x mod 256)); [f_equal; exact IH|].
    destruct (x mod 256 =? Buffer.padding)%N; [reflexivity | exact IH].
Qed.

(** The decoder reads nothing after the first "=". *)
Lemma sextets_stops (a b : jsstring) :
  Buffer.sextets (a ++ Buffer.padding :: b) = Buffer.sextets a.
Proof.
  induction a as [|x a IH]; cbn [app Buffer.sextets].
  - reflexivity.
  - destruct (Buffer.unbase64 (x mod 256)); [f_equal; exact IH|].
    destruct (x mod 256 =? Buffer.padding)%N; [reflexivity | exact IH].
Qed.

Section SessionGate.

Variable RouteHandler : Type.
Variable base64Decode : jsstring -> jsstring.

Implicit Types st : State RouteHandler.

Lemma basicMatches_iff (creds : Credentials) (header : option jsstring) :
  basicMatches base64Decode creds header = true <->
  ValidBasic base64Decode creds header.
Proof.
  unfold basicMatches, ValidBasic.
  change 6%Z with (JS.length (JS.lit "Basic ")).
  destruct (afterScheme header (JS.lit "Basic ") (JS.length (JS.lit "Basic ")))
    as [encoded|] eqn:A.
  - apply afterScheme_iff in A. subst header.
    destruct (in_dec N.eq_dec colon (base64Decode encoded)) as [Hin|Hout].
    + destruct (first_occurrence _ _ Hin) as (u & r & E & Hu).
      destruct (@split_at_colon u r Hu) as (K & S1 & S2).
      rewrite E, K, S1, S2. cbn [negb].
      rewrite andb_true_iff, !eqb_eq. split.
      * intros [<- <-]. exists encoded. auto.
      * intros (enc' & H1 & H2 & H3). injection H1 as <-. rewrite E in H2.
        apply (@first_colon_unique _ _ _ _ Hu H3 H2).
    + unfold JS.indexOf. change (JS.lit ":") with [colon].
      rewrite (@indexOfFrom_absent colon _ 0%Z Hout). cbn [Z.eqb negb].
      split; [discriminate|].
      intros (enc' & H1 & H2 & _). injection H1 as <-.
      exfalso. apply Hout. rewrite H2. apply in_elt.
  - split; [discriminate|].
    intros (encoded & -> & _).
    assert (afterScheme (Some (JS.lit "Basic " ++ encoded)) (JS.lit "Basic ")
                        (JS.length (JS.lit "Basic ")) = Some encoded) as A'
        by (apply afterScheme_iff; reflexivity).
    rewrite A' in A. discriminate.
Qed.

Lemma checkAuth_header (decode : jsstring -> jsstring) st
      (req : Request) (res : ServerResponse) (encoded encoded' : jsstring) :
  decode encoded = decode encoded' ->
  checkAuth decode st (withAuthorization req (JS.lit "Basic " ++ encoded)) res
  = checkAuth decode st (withAuthorization req (JS.lit "Basic " ++ encoded')) res.
Proof.
  intros E. unfold checkAuth, basicMatches, withAuthorization.
  cbn [authorization]. change 6%Z with (JS.length (JS.lit "Basic ")).
  assert (forall x, afterScheme (Some (JS.lit "Basic " ++ x)) (JS.lit "Basic ")
                                (JS.length (JS.lit "Basic ")) = Some x) as A
      by (intros x; apply afterScheme_iff; reflexivity).
  rewrite !A, E. reflexivity.
Qed.

(** C5, amended. Without configured credentials the session gate allows
every request. With credentials it allows a request exactly when the
Authorization header is "Basic " followed by a value that the runtime
decodes to the configured user name, a colon and the configured password,
where the colon is the first one of the decoded text (so the password may
contain colons); this holds whatever the decoding is. Every other request,
among them one without the header, one with another scheme and one whose
decoded value has no colon, gets one and the same response: status 401,
the header WWW-Authenticate with the challenge Basic realm="pi web server"
and the content type of JSON added to the headers already set, and the
JSON error "Unauthorized". No value is undecodable: the decoder of the
runtime never fails, it skips every character that is not in its table and
reads nothing after the first "=", so the gate answers a value with foreign
characters as it answers the value without them. *)
Theorem session_gate_decision st (req : Request) (res : ServerResponse) :
  (authCredentials st = None ->
   checkAuth base64Decode st req res = (true, res))
  /\
  (forall creds,
      authCredentials st = Some creds ->
      (ValidBasic base64Decode creds (authorization req) <->
       checkAuth base64Decode st req res = (true, res)) /\
      (~ ValidBasic base64Decode creds (authorization req) ->
       checkAuth base64Decode st req res = (false, unauthorized res)) /\
      (authorization req = None ->
       checkAuth base64Decode st req res = (false, unauthorized res)) /\
      (forall h,
          authorization req = Some h ->
          JS.startsWith h (JS.lit "Basic ") = false ->
          checkAuth base64Decode st req res = (false, unauthorized res)) /\
      (forall encoded,
          authorization req = Some (JS.lit "Basic " ++ encoded) ->
          ~ In colon (base64Decode encoded) ->
          checkAuth base64Decode st req res = (false, unauthorized res)))
  /\
  (forall out,
      checkAuth base64Decode st req res = (false, out) ->
      statusCode out = Some 401%Z /\
      headers out
      = headers res
          ++ [(JS.lit "WWW-Authenticate",
               JS.lit "Basic realm=" ++ [34%N] ++ JS.lit "pi web server"
                      ++ [34%N]);
              (JS.lit "Content-Type", JS.lit "application/json")] /\
      body out = Some (ErrorJson (JS.lit "Unauthorized")))
  /\
  (forall (a b : jsstring) (c : N),
      Buffer.unbase64 (c mod 256) = None -> (c mod 256)%N <> Buffer.padding ->
      Buffer.base64ToString (a ++ c :: b) = Buffer.base64ToString (a ++ b) /\
      checkAuth Buffer.base64ToString st
                (withAuthorization req (JS.lit "Basic " ++ a ++ c :: b)) res
      = checkAuth Buffer.base64ToString st
                  (withAuthorization req (JS.lit "Basic " ++ a ++ b)) res)
  /\
  (forall a b : jsstring,
      Buffer.base64ToString (a ++ Buffer.padding :: b) = Buffer.base64ToString a /\
      checkAuth Buffer.base64ToString st
                (withAuthorization req (JS.lit "Basic " ++ a ++ Buffer.padding :: b))
                res
      = checkAuth Buffer.base64ToString st
                  (withAuthorization req (JS.lit "Basic " ++ a)) res).
Proof.
  split; [intros H; unfold checkAuth; rewrite H; reflexivity|].
  split; [|split; [|split]].
  - intros creds H. unfold checkAuth. rewrite H.
    pose proof (basicMatches_iff creds (authorization req)) as B.
    assert (~ ValidBasic base64Decode creds (authorization req) ->
            (if basicMatches base64Decode creds (authorization req)
             then (true, res) else (false, unauthorized res))
            = (false, unauthorized res)) as Deny.
    { intros NV. destruct (basicMatches _ _ _); [|reflexivity].
      exfalso. apply NV, B. reflexivity. }
    split; [|split; [exact Deny|split; [|split]]].
    + rewrite <- B. destruct (basicMatches _ _ _); split; auto; discriminate.
    + intros Hnone. apply Deny. intros (encoded & E & _). congruence.
    + intros h E S. apply Deny. intros (encoded & E' & _).
      assert (h = JS.lit "Basic " ++ encoded) as Hh by congruence.
      rewrite Hh, (startsWith_app (JS.lit "Basic ") encoded) in S.
      discriminate.
    + intros encoded E Hno. apply Deny.
      intros (enc' & E' & D & _). rewrite E in E'. injection E' as <-.
      apply Hno. rewrite D. apply in_elt.
  - intros out. unfold checkAuth.
    destruct (authorization req) as [h|]; destruct (authCredentials st) as [creds|];
      try discriminate;
      (destruct (basicMatches _ _ _); [discriminate|]);
      intros E; injection E as <-; repeat split.
  - intros a b c U P.
    assert (Buffer.base64ToString (a ++ c :: b) = Buffer.base64ToString (a ++ b)) as E.
    { unfold Buffer.base64ToString, Buffer.fromBase64.
      rewrite (@sextets_skips a b c U P). reflexivity. }
    split; [exact E | apply checkAuth_header, E].
  - intros a b.
    assert (Buffer.base64ToString (a ++ Buffer.padding :: b)
            = Buffer.base64ToString a) as E.
    { unfold Buffer.base64ToString, Buffer.fromBase64.
      rewrite (@sextets_stops a b). reflexivity. }
    split; [exact E | apply checkAuth_header, E].
Qed.

End SessionGate.

(** The decoder of the runtime on some inputs: white space and other
foreign characters are skipped, nothing is read after the first "=", the
characters "-" and "_" stand for "+" and "/", a single last character
gives no byte; bytes that are not UTF-8 become U+FFFD, one for each
sequence that breaks off. *)
Example runtime_decoder_examples :
  Buffer.base64ToString (JS.lit "cGk6 c2Vj cmV0") = JS.lit "pi:secret" /\
  Buffer.base64ToString (JS.lit "cGk6c2VjcmV0====") = JS.lit "pi:secret" /\
  Buffer.base64ToString (JS.lit "cGk=6c2VjcmV0") = JS.lit "pi" /\
  Buffer.base64ToString (JS.lit "cGk6c2VjcmV0Q") = JS.lit "pi:secret" /\
  Buffer.fromBase64 (JS.lit "_-8") = [255; 239]%N /\
  Buffer.fromBase64 (JS.lit "/+8") = [255; 239]%N /\
  Buffer.fromBase64 (JS.lit "A") = [] /\
  Buffer.toString [0xE2; 0x82; 0xAC]%N = [0x20AC]%N /\
  Buffer.toString [0xF0; 0x9F; 0x98; 0x80]%N = [0xD83D; 0xDE00]%N /\
  Buffer.toString [0xC3]%N = [0xFFFD]%N /\
  Buffer.toString [0xE0; 0x80]%N = [0xFFFD; 0xFFFD]%N /\
  Buffer.toString [0xFF; 0x41]%N = [0xFFFD; 0x41]%N /\
  Buffer.toString (Buffer.from [0x20AC; 0xD83D; 0xDE00; 0x41]%N)
  = [0x20AC; 0xD83D; 0xDE00; 0x41]%N.
Proof. repeat split. Qed.

(** The claim as it is written fails on a value that is not base64: with
the credentials pi / secret, the header [Basic cGk6c2Vj*cmV0] has a "*" in
its value, which no base64 text has, and passes the gate, because the
decoder skips the "*" and reads "pi:secret". *)
Lemma session_gate_accepts_malformed_base64 :
  let value := JS.lit "cGk6c2Vj*cmV0" in
  In 42%N value /\
  Buffer.unbase64 42 = None /\
  Buffer.base64ToString value = JS.lit "pi:secret" /\
  authCredentials piSecret
  = Some (mkCredentials (JS.lit "pi") (JS.lit "secret")) /\
  checkAuth Buffer.base64ToString piSecret
            (request "GET" "/" (header "Basic cGk6c2Vj*cmV0")) corsResponse
  = (true, corsResponse).
Proof.
  cbv zeta. split; [|repeat split].
  do 8 right. left. reflexivity.
Qed.

(** The specification's example: with the credentials pi / secret the
header [Basic cGk6c2VjcmV0], which encodes "pi:secret", passes the gate;
the encoding of "pi:wrong", a value of which the decoder skips every
character, and a missing header all get the same 401. A password with
colons is compared as a whole. *)
Example session_gate_examples :
  Buffer.base64ToString (JS.lit "cGk6c2VjcmV0") = JS.lit "pi:secret" /\
  checkAuth Buffer.base64ToString piSecret
            (request "GET" "/" (header "Basic cGk6c2VjcmV0")) corsResponse
  = (true, corsResponse) /\
  checkAuth Buffer.base64ToString piSecret
            (request "GET" "/" (header "Basic cGk6d3Jvbmc=")) corsResponse
  = (false, unauthorized corsResponse) /\
  checkAuth Buffer.base64ToString piSecret
            (request "GET" "/" (header "Basic ***")) corsResponse
  = (false, unauthorized corsResponse) /\
  checkAuth Buffer.base64ToString piSecret (request "GET" "/" None) corsResponse
  = (false, unauthorized corsResponse) /\
  checkAuth Buffer.base64ToString piOther
            (request "GET" "/" (header "Basic cGk6YTpiOmM=")) corsResponse
  = (true, corsResponse).
Proof. repeat split. Qed.

(* ================================================================== *)
(** * The mount registry *)
(* ================================================================== *)

Lemma endsWithSlash_cons (c : N) (s : jsstring) :
  s <> [] -> EndsWithSlash (c :: s) -> EndsWithSlash s.
Proof.
  intros Hs [q E]. destruct q as [|d q].
  - injection E as _ E. contradiction.
  - injection E as _ E. exists q. exact E.
Qed.

Lemma forallb_slash (s : jsstring) :
  forallb (N.eqb JS.slash) s = true <-> Forall (fun c => c = JS.slash) s.
Proof.
  rewrite forallb_forall, Forall_forall.
  split; intros H c Hin; specialize (H c Hin);
    [apply N.eqb_eq in H | apply N.eqb_eq]; auto.
Qed.

(** [replace(/\/+$/, "")] cuts a run of slashes off the end, and what it
leaves does not end with a slash. *)
Lemma replaceTrailingSlashes_spec (s : jsstring) :
  exists tail,
    s = JS.replaceTrailingSlashes s ++ tail /\
    Forall (fun c => c = JS.slash) tail /\
    ~ EndsWithSlash (JS.replaceTrailingSlashes s).
Proof.
  induction s as [|c t IH].
  - exists []. repeat split; [constructor|]. intros [[|] E]; discriminate.
  - cbn [JS.replaceTrailingSlashes].
    destruct (JS.allSlashes (c :: t)) eqn:A.
    + exists (c :: t). repeat split.
      * apply forallb_slash. exact A.
      * intros [[|] E]; discriminate.
    + destruct IH as (tail & E & F & NE).
      exists tail. split; [cbn [app]; f_equal; exact E|]. split; [exact F|].
      intros H. destruct (JS.replaceTrailingSlashes t) as [|d r] eqn:R.
      * destruct H as [[|x q] H]; [|destruct q; discriminate].
        injection H as ->. cbn [app] in E. subst t.
        enough (JS.allSlashes (47%N :: tail) = true) as A'
            by (rewrite A' in A; discriminate).
        apply (proj2 (forallb_slash (JS.slash :: tail))).
        constructor; [reflexivity | exact F].
      * apply NE. apply (endsWithSlash_cons (c := c)); [discriminate | exact H].
Qed.

Lemma replaceTrailingSlashes_fixed (s : jsstring) :
  ~ EndsWithSlash s -> JS.replaceTrailingSlashes s = s.
Proof.
  intros NE. destruct (replaceTrailingSlashes_spec s) as (tail & E & F & _).
  destruct tail as [|x tail] using rev_ind.
  - rewrite app_nil_r in E. symmetry. exact E.
  - exfalso. apply NE. apply Forall_app in F as [_ F].
    inversion F; subst. exists (JS.replaceTrailingSlashes s ++ tail).
    rewrite E at 1. rewrite app_assoc. reflexivity.
Qed.

Lemma replaceTrailingSlashes_nil (p : jsstring) :
  JS.replaceTrailingSlashes p = [] <-> p = [] \/ JS.allSlashes p = true.
Proof.
  split.
  - intros R. destruct (replaceTrailingSlashes_spec p) as (tail & E & F & _).
    rewrite R in E. cbn [app] in E. subst tail.
    destruct p as [|c t]; [left; reflexivity | right].
    apply (proj2 (forallb_slash (c :: t))). exact F.
  - intros [-> | A]; [reflexivity|].
    destruct p as [|c t]; [reflexivity|].
    cbn [JS.replaceTrailingSlashes]. rewrite A. reflexivity.
Qed.

Lemma normalizePrefix_shape (p : jsstring) : StoredShape (normalizePrefix p).
Proof.
  unfold normalizePrefix, StoredShape.
  destruct (replaceTrailingSlashes_spec p) as (tail & _ & _ & NE).
  destruct (JS.startsWith (JS.replaceTrailingSlashes p) (JS.lit "/")) eqn:S;
    cbn [negb].
  - apply startsWith_iff in S. split; [exact S | right; exact NE].
  - split; [eexists; reflexivity|].
    destruct (JS.replaceTrailingSlashes p) as [|d r] eqn:R.
    + left. reflexivity.
    + right. intros H. apply NE.
      apply (endsWithSlash_cons (c := JS.slash)); [discriminate | exact H].
Qed.

Lemma normalizePrefix_root (p : jsstring) :
  normalizePrefix p = JS.lit "/" <-> p = [] \/ JS.allSlashes p = true.
Proof.
  rewrite <- replaceTrailingSlashes_nil. unfold normalizePrefix.
  destruct (replaceTrailingSlashes_spec p) as (tail & _ & _ & NE).
  destruct (JS.startsWith (JS.replaceTrailingSlashes p) (JS.lit "/")) eqn:S;
    cbn [negb].
  - split.
    + intros E. exfalso. apply NE. rewrite E. exists []. reflexivity.
    + intros E. rewrite E in S. discriminate.
  - split.
    + intros E. injection E as E. exact E.
    + intros ->. reflexivity.
Qed.

(** Under /api the second normalization, the one of [mount], has nothing
left to do but to remove the slash of a bare "/api/". *)
Lemma normalizePrefix_api (p : jsstring) :
  let stored := normalizePrefix (JS.lit "/api" ++ normalizePrefix p) in
  SpecifiedShape stored /\ UnderApi stored /\
  (normalizePrefix p = JS.lit "/" -> stored = JS.lit "/api") /\
  (normalizePrefix p <> JS.lit "/" ->
   stored = JS.lit "/api" ++ normalizePrefix p).
Proof.
  cbv zeta. destruct (normalizePrefix_shape p) as [[q B] [R | NE]].
  - rewrite R. change (normalizePrefix (JS.lit "/api" ++ JS.lit "/"))
      with (JS.lit "/api").
    repeat split.
    + exists (JS.lit "api"). reflexivity.
    + intros [[|a [|b [|c [|d [|e w]]]]] E]; discriminate.
    + discriminate.
    + left. reflexivity.
    + intros H. contradiction.
  - assert (normalizePrefix p <> []) as Hne by (rewrite B; discriminate).
    assert (~ EndsWithSlash (JS.lit "/api" ++ normalizePrefix p)) as NE'.
    { intros H. apply NE.
      change (JS.lit "/api" ++ normalizePrefix p)
        with (47%N :: 97%N :: 112%N :: 105%N :: normalizePrefix p) in H.
      apply endsWithSlash_cons in H; [|discriminate].
      apply endsWithSlash_cons in H; [|discriminate].
      apply endsWithSlash_cons in H; [|discriminate].
      apply endsWithSlash_cons in H; [exact H | exact Hne]. }
    assert (normalizePrefix (JS.lit "/api" ++ normalizePrefix p)
            = JS.lit "/api" ++ normalizePrefix p) as Fix.
    { unfold normalizePrefix at 1.
      rewrite (replaceTrailingSlashes_fixed NE'). reflexivity. }
    rewrite Fix. repeat split.
    + exists (JS.lit "api" ++ normalizePrefix p). reflexivity.
    + exact NE'.
    + rewrite B. discriminate.
    + right. exists q. rewrite B. reflexivity.
    + intros R. exfalso. apply NE. rewrite R. exists []. reflexivity.
Qed.

Section Registry.

Variable RouteHandler : Type.

Implicit Types st : State RouteHandler.
Implicit Types m : list (jsstring * MountConfig RouteHandler).

Lemma mapSet_values (P : MountConfig RouteHandler -> Prop) (k : jsstring)
      (v : MountConfig RouteHandler) m :
  P v -> Forall P (mapValues m) -> Forall P (mapValues (mapSet k v m)).
Proof.
  intros Pv. induction m as [|[k' v'] r IH]; intros F; simpl.
  - constructor; [exact Pv | constructor].
  - inversion F; subst. destruct (JS.eqb k' k); simpl.
    + constructor; assumption.
    + constructor; [assumption | apply IH; assumption].
Qed.

Lemma mapRemove_values (P : MountConfig RouteHandler -> Prop) (k : jsstring) m :
  Forall P (mapValues m) -> Forall P (mapValues (mapRemove k m)).
Proof.
  induction m as [|[k' v'] r IH]; intros F; simpl.
  - constructor.
  - inversion F; subst. destruct (JS.eqb k' k); simpl.
    + assumption.
    + constructor; [assumption | apply IH; assumption].
Qed.

Lemma mapSet_In (k : jsstring) (v : MountConfig RouteHandler) m :
  In (k, v) (mapSet k v m).
Proof.
  induction m as [|[k' v'] r IH]; simpl.
  - left; reflexivity.
  - destruct (JS.eqb k' k); [left; reflexivity | right; exact IH].
Qed.

Lemma mount_normalized (config : MountConfig RouteHandler) st :
  PrefixesNormalized st -> PrefixesNormalized (mount config st).
Proof.
  unfold PrefixesNormalized, mount. cbn [mounts]. intros F.
  apply mapSet_values; [|exact F]. cbn [prefix]. apply normalizePrefix_shape.
Qed.

Lemma perform_normalized st (c : Call RouteHandler) :
  PrefixesNormalized st -> PrefixesNormalized (perform st c).
Proof.
  intros F. destruct c; cbn [perform].
  - apply mount_normalized, F.
  - unfold PrefixesNormalized, unmount. cbn [snd mounts].
    apply mapRemove_values, F.
  - unfold mountApi. apply mount_normalized, F.
  - unfold PrefixesNormalized, unmountApi, unmount. cbn [snd mounts].
    apply mapRemove_values, F.
  - exact F.
  - exact F.
  - exact F.
  - unfold PrefixesNormalized, start, stop, isRunning in *.
    destruct (server st); destruct dashboard; cbn [snd mounts];
      try exact F;
      destruct (validPort _); cbn [snd mounts]; exact F.
  - unfold PrefixesNormalized, stop in *.
    destruct (server st); cbn [snd mounts]; exact F.
Qed.

Lemma performAll_invariant (Inv : State RouteHandler -> Prop) :
  (forall st c, Inv st -> Inv (perform st c)) ->
  forall calls st, Inv st -> Inv (performAll calls st).
Proof.
  intros Step. induction calls as [|c calls IH]; intros st H; simpl.
  - exact H.
  - apply IH, Step, H.
Qed.

(** C6, amended. After any sequence of calls every prefix in the registry
begins with "/" and, unless it is the bare root "/", does not end with
"/". [mount] stores the bare root exactly when the prefix it is given is
empty or consists of slashes only. [mountApi] always stores a prefix under
/api that begins with "/", does not end with "/" and is not the bare
root. *)
Theorem stored_prefix_shape (calls : list (Call RouteHandler)) :
  PrefixesNormalized (performAll calls initialState)
  /\
  (forall config st,
      exists stored,
        In (name config, stored) (mounts (mount config st)) /\
        StoredShape (prefix stored) /\
        (prefix stored = JS.lit "/" <->
         prefix config = [] \/ JS.allSlashes (prefix config) = true))
  /\
  (forall config st,
      exists stored,
        In (name config, stored) (mounts (mountApi config st)) /\
        SpecifiedShape (prefix stored) /\ UnderApi (prefix stored)).
Proof.
  split; [|split].
  - apply performAll_invariant; [apply perform_normalized | constructor].
  - intros config st. eexists. split; [apply mapSet_In|]. cbn [prefix].
    split; [apply normalizePrefix_shape | apply normalizePrefix_root].
  - intros config st. eexists. split; [apply mapSet_In|].
    cbn [prefix withPrefix name].
    destruct (normalizePrefix_api (prefix config)) as (S & U & _). auto.
Qed.

(** A state that the exported functions can produce records a port only
while a server exists. *)
Lemma perform_port (st : State RouteHandler) (c : Call RouteHandler) :
  PortOnlyWhenRunning st -> PortOnlyWhenRunning (perform st c).
Proof.
  unfold PortOnlyWhenRunning. intros Inv.
  destruct c; cbn [perform]; try exact Inv.
  - unfold start, stop, isRunning.
    destruct (server st) eqn:S; destruct dashboard; cbn [snd server serverPort];
      try (destruct (validPort _); cbn [snd server serverPort]);
      auto; discriminate.
  - unfold stop. destruct (server st) eqn:S; cbn [snd server serverPort]; auto.
Qed.

Lemma reachable_port st : reachable st -> PortOnlyWhenRunning st.
Proof.
  intros [calls ->]. apply performAll_invariant; [apply perform_port|].
  intros _. reflexivity.
Qed.

(** C9. In every state that the exported functions can produce, [stop]
returns true exactly when a server was running; after it [isRunning] is
false and [getPort] and [getUrl] are null; and a second [stop] returns
false and changes nothing, neither the state nor the trace of socket
effects. *)
Theorem stop_idempotent st :
  reachable st ->
  fst (stop st) = isRunning st /\
  isRunning (snd (stop st)) = false /\
  getPort (snd (stop st)) = None /\
  getUrl (snd (stop st)) = None /\
  stop (snd (stop st)) = (false, snd (stop st)).
Proof.
  intros R. pose proof (reachable_port R) as Inv.
  unfold PortOnlyWhenRunning in Inv.
  unfold stop, isRunning, getPort, getUrl.
  destruct (server st) eqn:S; cbn [fst snd server serverPort].
  - repeat split.
  - rewrite S, (Inv eq_refl). repeat split.
Qed.

(** C10. Two states with the same user name behind different passwords, and
with tokens set in the same places whatever their contents, show the same
[getAuth] and the same [getApiTokenStatus]; in particular replacing the
password or the content of a token changes neither. *)
Theorem status_hides_secrets (st1 st2 : State RouteHandler) :
  SameButSecrets st1 st2 ->
  getAuth st1 = getAuth st2 /\
  getApiTokenStatus st1 = getApiTokenStatus st2 /\
  (forall user p1 p2,
      getAuth (setAuth (Some (mkAuthConfig user p1)) st1)
      = getAuth (setAuth (Some (mkAuthConfig user p2)) st1)) /\
  (forall t1 t2,
      getApiTokenStatus (setApiToken (Some t1) st1)
      = getApiTokenStatus (setApiToken (Some t2) st1) /\
      getApiTokenStatus (setApiReadToken (Some t1) st1)
      = getApiTokenStatus (setApiReadToken (Some t2) st1)).
Proof.
  intros (A & T & R). unfold getAuth, getApiTokenStatus. repeat split.
  - destruct (authCredentials st1), (authCredentials st2);
      try contradiction; [f_equal; exact A | reflexivity].
  - destruct (apiToken st1), (apiToken st2), (apiReadToken st1), (apiReadToken st2);
      try reflexivity; exfalso;
      try (destruct T as [T1 T2]; (discriminate (T1 eq_refl) || discriminate (T2 eq_refl)));
      try (destruct R as [R1 R2]; (discriminate (R1 eq_refl) || discriminate (R2 eq_refl))).
Qed.

End Registry.

(** The claim as it is written fails for the bare root: [mount] with the
prefix "/" stores "/", which is the bare root and ends with "/". *)
Lemma mount_stores_bare_root :
  rootMounted = performAll [CallMount (sampleMount "site" "/" None)] initialState /\
  List.map (fun c => prefix c) (mapValues (mounts rootMounted)) = [JS.lit "/"] /\
  EndsWithSlash (JS.lit "/").
Proof. repeat split. exists []. reflexivity. Qed.

(** What [getApiMounts] keeps: the mounts whose prefix begins with the four
characters "/api", whatever follows them. *)
Lemma getApiMounts_iff (RouteHandler : Type) (st : State RouteHandler)
      (info : MountInfo) :
  In info (getApiMounts st) <->
  In info (getMounts st) /\ exists rest, infoPrefix info = JS.lit "/api" ++ rest.
Proof.
  unfold getApiMounts. rewrite filter_In. cbv beta.
  split; (intros [H1 H2]; split; [exact H1 | apply startsWith_iff; exact H2]).
Qed.

(** C7 at the failing input. A mount at /apiary is a mount of the general
namespace: its paths are not API paths and it is not under /api. The value
that the API root returns nevertheless lists it. *)
Theorem api_listing_includes_general_mount :
  List.map (fun c => prefix c) (mapValues (mounts apiaryMounted)) = [JS.lit "/apiary"] /\
  isApiPath (JS.lit "/apiary") = false /\
  ~ UnderApi (JS.lit "/apiary") /\
  List.map infoPrefix (getApiMounts apiaryMounted) = [JS.lit "/apiary"] /\
  handleRequest noDecoding apiaryMounted sampleServer (request "GET" "/api" None)
  = Finished (apiListing apiaryMounted corsResponse) /\
  body (apiListing apiaryMounted corsResponse)
  = Some (ApiListingJson
            [mkMountInfo (JS.lit "apiary") (JS.lit "apiary") None
                         (JS.lit "/apiary") None]
            false false).
Proof.
  repeat split.
  intros [E | [rest E]]; discriminate.
Qed.

(** After [start()] the state is reachable and running: the first [stop]
returns true and the second returns false and changes nothing. *)
Lemma stop_idempotent_witness :
  reachable started /\
  fst (stop started) = true /\
  stop (snd (stop started)) = (false, snd (stop started)).
Proof.
  assert (reachable started) as R by (eexists; reflexivity).
  split; [exact R|].
  destruct (stop_idempotent R) as (H1 & _ & _ & _ & H5).
  split; [exact H1 | exact H5].
Defined.

(** Two configurations with the user pi, with different passwords and
different tokens, show the same status. *)
Lemma status_hides_secrets_witness :
  SameButSecrets piSecret piOther /\
  getAuth piSecret = getAuth piOther /\
  getApiTokenStatus piSecret = getApiTokenStatus piOther.
Proof.
  assert (SameButSecrets piSecret piOther) as S.
  { split; [reflexivity|]. split; split; discriminate. }
  split; [exact S|].
  destruct (status_hides_secrets S) as (H1 & H2 & _).
  split; [exact H1 | exact H2].
Defined.

(* ================================================================== *)
(** * Dispatch under the API namespace *)
(* ================================================================== *)

Lemma isApiPath_iff (p : jsstring) : isApiPath p = true <-> UnderApi p.
Proof.
  unfold isApiPath, UnderApi. rewrite orb_true_iff, eqb_eq, startsWith_iff.
  tauto.
Qed.

(** An API path is neither the dashboard nor the introspection route. *)
Lemma api_path_not_general (p : jsstring) :
  isApiPath p = true ->
  JS.eqb p (JS.lit "/") || JS.eqb p [] = false /\
  JS.eqb p (JS.lit "/_api/mounts") = false.
Proof.
  intros H. apply isApiPath_iff in H. destruct H as [-> | [rest ->]];
    split; reflexivity.
Qed.

Lemma not_root_iff (p : jsstring) :
  JS.eqb p (JS.lit "/api") || JS.eqb p (JS.lit "/api/") = false <->
  p <> JS.lit "/api" /\ p <> JS.lit "/api/".
Proof. rewrite orb_false_iff, !eqb_neq. tauto. Qed.

Section Dispatch.

Variable RouteHandler : Type.
Variable base64Decode : jsstring -> jsstring.

Implicit Types st : State RouteHandler.
Implicit Types best c : MountConfig RouteHandler.

Lemma checkApiAuth_cases st (req : Request) (res : ServerResponse) :
  checkApiAuth st req res = Ok (true, res) \/
  checkApiAuth st req res = Ok (false, forbidden res) \/
  checkApiAuth st req res = Ok (false, invalidToken res).
Proof.
  unfold checkApiAuth.
  destruct (negb (JS.truthy (apiToken st)) && negb (JS.truthy (apiReadToken st)));
    [auto|].
  destruct (tokensEqual_total
              (afterScheme (authorization req) (JS.lit "Bearer ") 7)
              (apiToken st)) as [-> | ->]; cbn [bindExc]; [auto|].
  destruct (tokensEqual_total
              (afterScheme (authorization req) (JS.lit "Bearer ") 7)
              (apiReadToken st)) as [-> | ->]; cbn [bindExc]; [|auto].
  destruct (isReadMethod req); auto.
Qed.

(** A path that matches a mount under /api is an API path. *)
Lemma matches_under_api (path : jsstring) c :
  UnderApi (prefix c) -> Matches path c -> isApiPath path = true.
Proof.
  intros U M. apply isApiPath_iff. unfold UnderApi in *.
  destruct M as [-> | [rest ->]]; [exact U|].
  destruct U as [-> | [r ->]].
  - right. exists rest. reflexivity.
  - right. exists (r ++ JS.lit "/" ++ rest). rewrite <- app_assoc. reflexivity.
Qed.

(** What the callback does with a request that is not a preflight and
whose path is an API path. *)
Lemma handleRequest_api st (srv : HttpServer) (req : Request) :
  method req <> JS.lit "OPTIONS" ->
  isApiPath (pathname req) = true ->
  handleRequest base64Decode st srv req =
  match tryBlock st srv req corsResponse with
  | Ok o => o
  | Throw err => Finished (catchBlock corsResponse err)
  end.
Proof.
  intros M A. unfold handleRequest.
  apply eqb_neq in M. rewrite M, A. reflexivity.
Qed.

(** ... and whose path is not the root of the namespace. *)
Lemma tryBlock_below_root st (srv : HttpServer) (req : Request)
      (res : ServerResponse) :
  isApiPath (pathname req) = true ->
  pathname req <> JS.lit "/api" -> pathname req <> JS.lit "/api/" ->
  tryBlock st srv req res =
  match findBestMatch (mounts st) (pathname req) with
  | Some bestMatch =>
      r <- gateIf (negb (isSet (skipAuth bestMatch))) st req res ;;
      if negb (fst r) then Ok (Finished (snd r))
      else Ok (Invoked (snd r) bestMatch (subPathOf (pathname req) bestMatch))
  | None =>
      r <- checkApiAuth st req res ;;
      if negb (fst r) then Ok (Finished (snd r))
      else Ok (Finished (notFound (snd r)))
  end.
Proof.
  intros A N1 N2. unfold tryBlock.
  rewrite (proj2 (not_root_iff (pathname req)) (conj N1 N2)).
  destruct (api_path_not_general _ A) as [G1 G2]. rewrite G1, G2, A.
  reflexivity.
Qed.

(** The [try] block raises no exception of its own: the comparison of
tokens never meets buffers of different lengths. *)
Lemma tryBlock_total st (srv : HttpServer) (req : Request)
      (res : ServerResponse) :
  exists o, tryBlock st srv req res = Ok o.
Proof.
  assert (forall cond : bool,
             gateIf cond st req res = Ok (true, res) \/
             exists denial, gateIf cond st req res = Ok (false, denial)) as G.
  { intros cond. unfold gateIf. destruct cond; [|auto].
    destruct (checkApiAuth_cases st req res) as [C | [C | C]];
      rewrite C; eauto. }
  unfold tryBlock.
  destruct (JS.eqb (pathname req) (JS.lit "/api")
            || JS.eqb (pathname req) (JS.lit "/api/")).
  - destruct (checkApiAuth_cases st req res) as [C | [C | C]];
      rewrite C; eexists; reflexivity.
  - destruct (JS.eqb (pathname req) (JS.lit "/") || JS.eqb (pathname req) []);
      [eexists; reflexivity|].
    destruct (JS.eqb (pathname req) (JS.lit "/_api/mounts"));
      [eexists; reflexivity|].
    destruct (findBestMatch (mounts st) (pathname req)) as [best|].
    + destruct (G (isApiPath (pathname req) && negb (isSet (skipAuth best))))
        as [E | [denial E]]; rewrite E; eexists; reflexivity.
    + destruct (G (isApiPath (pathname req)))
        as [E | [denial E]]; rewrite E; eexists; reflexivity.
Qed.

(** A preflight is answered with 204 before any gate, whatever the path,
the credentials and the tokens. *)
Lemma preflight_bypasses_gates st (srv : HttpServer) (req : Request) :
  method req = JS.lit "OPTIONS" ->
  handleRequest base64Decode st srv req
  = Finished (end_ (writeHead corsResponse 204 []) NoBody).
Proof.
  intros M. unfold handleRequest. rewrite M. reflexivity.
Qed.

(** C3, amended. Take any state and any request that is not a preflight and
whose path is not the root of the API namespace, and let the router select
a mount under /api. If the mount has [skipAuth] set, its handler is called
with the response untouched by any gate, whatever the Authorization header
and whatever tokens are configured. If it has not, the token gate decides:
the handler is called when the gate allows the request, and the response
is the gate's 403 or 401 when it does not. *)
Theorem skipAuth_bypasses_token_gate st (srv : HttpServer) (req : Request)
        best (subPath : jsstring) :
  method req <> JS.lit "OPTIONS" ->
  pathname req <> JS.lit "/api" -> pathname req <> JS.lit "/api/" ->
  route (mounts st) (pathname req) = Some (best, subPath) ->
  UnderApi (prefix best) ->
  (isSet (skipAuth best) = true ->
   handleRequest base64Decode st srv req = Invoked corsResponse best subPath)
  /\
  (isSet (skipAuth best) = false ->
   (checkApiAuth st req corsResponse = Ok (true, corsResponse) ->
    handleRequest base64Decode st srv req = Invoked corsResponse best subPath) /\
   (forall denial,
       checkApiAuth st req corsResponse = Ok (false, denial) ->
       handleRequest base64Decode st srv req = Finished denial /\
       (denial = forbidden corsResponse \/ denial = invalidToken corsResponse))).
Proof.
  intros M N1 N2 R U.
  pose proof (findBestMatch_invariant (mounts st) (pathname req)) as Inv.
  unfold route in R.
  destruct (findBestMatch (mounts st) (pathname req)) as [b|] eqn:F;
    [|discriminate].
  injection R as -> <-. destruct Inv as [Mb _].
  pose proof (matches_under_api U Mb) as A.
  rewrite (@handleRequest_api st srv req M A).
  rewrite (@tryBlock_below_root st srv req corsResponse A N1 N2), F.
  split.
  - intros ->. reflexivity.
  - intros ->. cbn [negb gateIf]. split.
    + intros ->. reflexivity.
    + intros denial H. rewrite H. cbn [bindExc fst snd negb]. split; [reflexivity|].
      destruct (checkApiAuth_cases st req corsResponse) as [C | [C | C]];
        rewrite C in H; injection H; auto; discriminate.
Qed.

(** C4, amended. Take any state and any request that is not a preflight,
whose path is under the API namespace and matches no mount. The token gate
runs first: when it refuses, its 403 or 401 is the response, and only when
it allows the request is the 404 written (at the root of the namespace the
listing is written instead). In particular, when a token that is not empty
is configured and the request presents neither configured token, the
response is the 401 and not the 404. *)
Theorem unmatched_api_path_is_gated st (srv : HttpServer) (req : Request) :
  method req <> JS.lit "OPTIONS" ->
  UnderApi (pathname req) ->
  (forall c, In c (mapValues (mounts st)) -> ~ Matches (pathname req) c) ->
  (forall denial,
      checkApiAuth st req corsResponse = Ok (false, denial) ->
      handleRequest base64Decode st srv req = Finished denial /\
      (denial = forbidden corsResponse \/ denial = invalidToken corsResponse))
  /\
  (checkApiAuth st req corsResponse = Ok (true, corsResponse) ->
   (pathname req <> JS.lit "/api" -> pathname req <> JS.lit "/api/" ->
    handleRequest base64Decode st srv req = Finished (notFound corsResponse)) /\
   (pathname req = JS.lit "/api" \/ pathname req = JS.lit "/api/" ->
    statusCode (written (handleRequest base64Decode st srv req)) = Some 200%Z))
  /\
  (Configured (apiToken st) \/ Configured (apiReadToken st) ->
   ~ Presents req (apiToken st) -> ~ Presents req (apiReadToken st) ->
   handleRequest base64Decode st srv req = Finished (invalidToken corsResponse))
  /\
  statusCode (invalidToken corsResponse) = Some 401%Z /\
  statusCode (forbidden corsResponse) = Some 403%Z /\
  statusCode (notFound corsResponse) = Some 404%Z.
Proof.
  intros M U NoMatch.
  pose proof (proj2 (isApiPath_iff (pathname req)) U) as A.
  assert (findBestMatch (mounts st) (pathname req) = None) as F.
  { pose proof (findBestMatch_invariant (mounts st) (pathname req)) as Inv.
    destruct (findBestMatch (mounts st) (pathname req)) as [b|]; [|reflexivity].
    destruct Inv as (Mb & before & after & E & _). exfalso.
    apply (NoMatch b); [rewrite E; apply in_elt | exact Mb]. }
  rewrite (@handleRequest_api st srv req M A).
  assert (forall denial,
             checkApiAuth st req corsResponse = Ok (false, denial) ->
             match tryBlock st srv req corsResponse with
             | Ok o => o
             | Throw err => Finished (catchBlock corsResponse err)
             end = Finished denial) as Deny.
  { intros denial H.
    destruct (JS.eqb (pathname req) (JS.lit "/api")
              || JS.eqb (pathname req) (JS.lit "/api/")) eqn:Root.
    - unfold tryBlock. rewrite Root, H. reflexivity.
    - apply not_root_iff in Root as [N1 N2].
      rewrite (@tryBlock_below_root st srv req corsResponse A N1 N2), F, H.
      reflexivity. }
  split; [|split; [|split]].
  - intros denial H. split; [apply Deny, H|].
    destruct (checkApiAuth_cases st req corsResponse) as [C | [C | C]];
      rewrite C in H; injection H; auto; discriminate.
  - intros Allow. split.
    + intros N1 N2.
      rewrite (@tryBlock_below_root st srv req corsResponse A N1 N2), F, Allow.
      reflexivity.
    + intros Root. unfold tryBlock.
      rewrite <- !eqb_eq, <- orb_true_iff in Root. rewrite Root, Allow.
      reflexivity.
  - intros C NF NR. apply Deny.
    apply checkApiAuth_invalid; assumption.
  - repeat split.
Qed.

End Dispatch.

(** The specification's example: with a full token configured, the mount
registered with [skipAuth] under /api/ext is reached at /api/ext/anything
without an Authorization header. *)
Lemma skipAuth_bypasses_token_gate_witness :
  let req := request "GET" "/api/ext/anything" None in
  method req <> JS.lit "OPTIONS" /\
  pathname req <> JS.lit "/api" /\ pathname req <> JS.lit "/api/" /\
  route (mounts extAndAdmin) (pathname req) = Some (extStored, JS.lit "/anything") /\
  UnderApi (prefix extStored) /\
  isSet (skipAuth extStored) = true /\
  handleRequest noDecoding extAndAdmin sampleServer req
  = Invoked corsResponse extStored (JS.lit "/anything").
Proof.
  cbv zeta.
  assert (UnderApi (prefix extStored)) as U
      by (right; exists (JS.lit "ext"); reflexivity).
  repeat (split; [first [discriminate | reflexivity | exact U]|]).
  refine (proj1 (@skipAuth_bypasses_token_gate
                   unit noDecoding extAndAdmin sampleServer
                   (request "GET" "/api/ext/anything" None)
                   extStored (JS.lit "/anything") _ _ _ _ U) _);
    first [discriminate | reflexivity].
Defined.

(** The claim as it is written fails in three ways, each with the full
token "F" configured and no Authorization header. A path that matches the
[skipAuth] mount at /api/ext also matches the longer /api/ext/admin, which
the router selects and which is gated: 401. A [skipAuth] mount at /api
matches the path /api, which the listing answers behind the gate: 401. And
a preflight is answered with 204 before any routing. In none of the three
is the handler of the [skipAuth] mount called. *)
Lemma skipAuth_mount_not_reached :
  (In extStored (mapValues (mounts extAndAdmin)) /\
   skipAuth extStored = Some true /\
   Matches (JS.lit "/api/ext/admin/x") extStored /\
   route (mounts extAndAdmin) (JS.lit "/api/ext/admin/x")
   = Some (adminStored, JS.lit "/x") /\
   handleRequest noDecoding extAndAdmin sampleServer
                 (request "GET" "/api/ext/admin/x" None)
   = Finished (invalidToken corsResponse))
  /\
  (In apiRootStored (mapValues (mounts apiRootMounted)) /\
   skipAuth apiRootStored = Some true /\
   Matches (JS.lit "/api") apiRootStored /\
   handleRequest noDecoding apiRootMounted sampleServer (request "GET" "/api" None)
   = Finished (invalidToken corsResponse))
  /\
  (Matches (JS.lit "/api/ext/x") extStored /\
   handleRequest noDecoding extAndAdmin sampleServer
                 (request "OPTIONS" "/api/ext/x" None)
   = Finished (end_ (writeHead corsResponse 204 []) NoBody)).
Proof.
  repeat split.
  - left. reflexivity.
  - right. exists (JS.lit "admin/x"). reflexivity.
  - left. reflexivity.
  - left. reflexivity.
  - right. exists (JS.lit "x"). reflexivity.
Qed.

(** The specification's example: with a token configured and no
Authorization header, the unmatched /api/nope gets the 401. *)
Lemma unmatched_api_path_is_gated_witness :
  let req := request "GET" "/api/nope" None in
  method req <> JS.lit "OPTIONS" /\
  UnderApi (pathname req) /\
  (forall c, In c (mapValues (mounts tokensFR)) -> ~ Matches (pathname req) c) /\
  handleRequest noDecoding tokensFR sampleServer req
  = Finished (invalidToken corsResponse).
Proof.
  cbv zeta.
  assert (UnderApi (pathname (request "GET" "/api/nope" None))) as U
      by (right; exists (JS.lit "nope"); reflexivity).
  assert (forall c : MountConfig unit,
             In c (mapValues (mounts tokensFR)) ->
             ~ Matches (pathname (request "GET" "/api/nope" None)) c) as NoMatch
      by (intros c []).
  split; [discriminate|]. split; [exact U|]. split; [exact NoMatch|].
  refine (proj1 (proj2 (proj2 (@unmatched_api_path_is_gated
                   unit noDecoding tokensFR sampleServer
                   (request "GET" "/api/nope" None) _ U NoMatch))) _ _ _).
  - discriminate.
  - left. exists (JS.lit "F"). split; [reflexivity | discriminate].
  - intros (s & t & H & _). discriminate.
  - intros (s & t & H & _). discriminate.
Defined.

(** The claim as it is written fails in two ways, for a path under /api
that matches no mount and a request without an Authorization header. With
the tokens "F" and "R" configured, a preflight is answered with 204, not
401. With the full token set to the empty string, which
[getApiTokenStatus] reports as enabled, the gate is open and the answer is
the 404. *)
Lemma unmatched_api_path_not_401 :
  statusCode (written (handleRequest noDecoding tokensFR sampleServer
                                     (request "OPTIONS" "/api/nope" None)))
  = Some 204%Z
  /\
  enabled (getApiTokenStatus emptyFullToken) = true /\
  handleRequest noDecoding emptyFullToken sampleServer
                (request "GET" "/api/nope" None)
  = Finished (notFound corsResponse).
Proof. repeat split. Qed.

(* ================================================================== *)
(** * The registry as its users see it *)
(* ================================================================== *)

Unset Implicit Arguments.

Section RegistryUse.

Variable RouteHandler : Type.

Implicit Types st : State RouteHandler.
Implicit Types m : list (jsstring * MountConfig RouteHandler).
Implicit Types c : MountConfig RouteHandler.

Lemma mapHas_iff (k : jsstring) m : mapHas k m = true <-> In k (mapKeys m).
Proof.
  induction m as [|[k' v'] r IH]; simpl.
  - split; [discriminate | intros []].
  - rewrite orb_true_iff, eqb_eq, IH. tauto.
Qed.

Lemma mapHas_false (k : jsstring) m : mapHas k m = false <-> ~ In k (mapKeys m).
Proof.
  rewrite <- mapHas_iff. destruct (mapHas k m); split; congruence.
Qed.

Lemma mapSet_keys (k : jsstring) (v : MountConfig RouteHandler) m :
  mapKeys (mapSet k v m) = if mapHas k m then mapKeys m else mapKeys m ++ [k].
Proof.
  induction m as [|[k' v'] r IH]; simpl; [reflexivity|].
  destruct (JS.eqb k' k) eqn:E; simpl.
  - apply eqb_eq in E. subst. reflexivity.
  - rewrite IH. destruct (mapHas k r); reflexivity.
Qed.

Lemma mapRemove_absent (k : jsstring) m :
  mapHas k m = false -> mapRemove k m = m.
Proof.
  induction m as [|[k' v'] r IH]; simpl; [reflexivity|].
  intros H. apply orb_false_iff in H as [E H]. rewrite E, (IH H). reflexivity.
Qed.

Lemma mapRemove_filter (k : jsstring) m :
  NoDup (mapKeys m) ->
  mapRemove k m = filter (fun kv => negb (JS.eqb (fst kv) k)) m.
Proof.
  induction m as [|[k' v'] r IH]; simpl; [reflexivity|].
  intros ND. inversion ND as [|? ? Hnot ND']; subst.
  destruct (JS.eqb k' k) eqn:E; simpl.
  - apply eqb_eq in E. subst k'.
    rewrite <- (mapRemove_absent k r) at 1
      by (apply mapHas_false; exact Hnot).
    apply IH, ND'.
  - f_equal. apply IH, ND'.
Qed.

Lemma mapRemove_keys (k : jsstring) m :
  NoDup (mapKeys m) -> NoDup (mapKeys (mapRemove k m)).
Proof.
  intros ND. rewrite (mapRemove_filter k m ND).
  induction m as [|[k' v'] r IH]; simpl; [constructor|].
  inversion ND as [|? ? Hnot ND']; subst.
  destruct (JS.eqb k' k); simpl; [apply IH, ND'|].
  constructor; [|apply IH, ND'].
  intros Hin. apply Hnot. unfold mapKeys in *.
  apply in_map_iff in Hin as ([k2 v2] & E & Hin). simpl in E. subst k2.
  apply filter_In in Hin as [Hin _].
  apply in_map_iff. exists (k', v2). auto.
Qed.

Lemma mapSet_named (k : jsstring) (v : MountConfig RouteHandler) m :
  name v = k ->
  Forall (fun kv => name (snd kv) = fst kv) m ->
  Forall (fun kv => name (snd kv) = fst kv) (mapSet k v m).
Proof.
  intros Hv. induction m as [|[k' v'] r IH]; intros F; simpl.
  - constructor; [exact Hv | constructor].
  - inversion F as [|x l Hx Hl]. destruct (JS.eqb k' k).
    + constructor; [exact Hv | exact Hl].
    + constructor; [exact Hx | apply IH; exact Hl].
Qed.

Lemma mapRemove_named (k : jsstring) m :
  Forall (fun kv => name (snd kv) = fst kv) m ->
  Forall (fun kv => name (snd kv) = fst kv) (mapRemove k m).
Proof.
  induction m as [|[k' v'] r IH]; intros F; simpl; [constructor|].
  inversion F; subst. destruct (JS.eqb k' k); [assumption|].
  constructor; [assumption | apply IH; assumption].
Qed.

Lemma mount_wellkeyed c st : WellKeyed st -> WellKeyed (mount c st).
Proof.
  intros [ND F]. unfold WellKeyed, mount. cbn [mounts]. split.
  - rewrite mapSet_keys. destruct (mapHas (name c) (mounts st)) eqn:H; [exact ND|].
    apply NoDup_app; [exact ND | repeat constructor; intros [] |].
    intros k Hin [<- | []]. apply mapHas_false in H. contradiction.
  - apply mapSet_named; [reflexivity | exact F].
Qed.

Lemma unmount_wellkeyed (n : jsstring) st :
  WellKeyed st -> WellKeyed (snd (unmount n st)).
Proof.
  intros [ND F]. unfold WellKeyed, unmount. cbn [snd mounts]. split.
  - apply mapRemove_keys, ND.
  - apply mapRemove_named, F.
Qed.

Lemma perform_wellkeyed st (call : Call RouteHandler) :
  WellKeyed st -> WellKeyed (perform st call).
Proof.
  intros W. destruct call; cbn [perform].
  - apply mount_wellkeyed, W.
  - apply unmount_wellkeyed, W.
  - unfold mountApi. apply mount_wellkeyed, W.
  - unfold unmountApi. apply unmount_wellkeyed, W.
  - exact W.
  - exact W.
  - exact W.
  - unfold WellKeyed, start, stop, isRunning in *.
    destruct (server st); destruct dashboard; cbn [snd mounts];
      try exact W; destruct (validPort _); cbn [snd mounts]; exact W.
  - unfold WellKeyed, stop in *.
    destruct (server st); cbn [snd mounts]; exact W.
Qed.

Lemma reachable_wellkeyed st : reachable st -> WellKeyed st.
Proof.
  intros [calls ->]. apply performAll_invariant; [apply perform_wellkeyed|].
  split; constructor.
Qed.

Lemma getMounts_names st :
  Forall (fun kv => name (snd kv) = fst kv) (mounts st) ->
  List.map infoName (getMounts st) = mapKeys (mounts st).
Proof.
  unfold getMounts, mapValues, mapKeys. rewrite !map_map. intros F.
  apply map_ext_in. intros kv Hin. cbn [infoName].
  rewrite Forall_forall in F. apply F, Hin.
Qed.

(** X1. Whatever calls were made, no two mounts of the registry have the
same name, every mount is filed under its own name, and [getMounts] shows
each name once. *)
Theorem registry_names_unique (calls : list (Call RouteHandler)) :
  let st := performAll calls initialState in
  NoDup (List.map infoName (getMounts st)) /\
  Forall (fun kv => name (snd kv) = fst kv) (mounts st) /\
  List.length (getMounts st) = List.length (mounts st).
Proof.
  cbv zeta.
  assert (reachable (performAll calls (@initialState RouteHandler))) as R
      by (exists calls; reflexivity).
  destruct (reachable_wellkeyed _ R) as [ND F].
  split; [rewrite (getMounts_names _ F); exact ND|]. split; [exact F|].
  unfold getMounts, mapValues. rewrite !length_map. reflexivity.
Qed.

(** One element of [getMounts()]. *)
Lemma getMounts_map st :
  getMounts st
  = List.map (fun kv => mkMountInfo (name (snd kv))
                                    (JS.orElse (label (snd kv)) (name (snd kv)))
                                    (description (snd kv)) (prefix (snd kv))
                                    (trueOrUndefined (skipAuth (snd kv))))
             (mounts st).
Proof. unfold getMounts, mapValues. rewrite map_map. reflexivity. Qed.

Lemma getMounts_has (n : jsstring) st :
  Forall (fun kv => name (snd kv) = fst kv) (mounts st) ->
  existsb (isNamed n) (getMounts st) = mapHas n (mounts st).
Proof.
  rewrite getMounts_map. induction (mounts st) as [|[k' v'] r IH]; intros F.
  - reflexivity.
  - inversion F as [|x l Hx Hl]. cbn [fst snd] in Hx.
    cbn [List.map existsb mapHas snd]. unfold isNamed at 1. cbn [infoName].
    rewrite Hx, (IH Hl). reflexivity.
Qed.

Lemma mapSet_absent (k : jsstring) (v : MountConfig RouteHandler) m :
  mapHas k m = false -> mapSet k v m = m ++ [(k, v)].
Proof.
  induction m as [|[k' v'] r IH]; simpl; [reflexivity|].
  intros H. apply orb_false_iff in H as [E H]. rewrite E, (IH H). reflexivity.
Qed.

Lemma orElse_some (a : option jsstring) (d : jsstring) :
  JS.orElse (Some (JS.orElse a d)) d = JS.orElse a d.
Proof. reflexivity. Qed.

Lemma mapSet_replaces (k : jsstring) (v : MountConfig RouteHandler)
      (f : MountConfig RouteHandler -> MountInfo) m :
  (forall w, infoName (f w) = name w) ->
  NoDup (mapKeys m) ->
  Forall (fun kv => name (snd kv) = fst kv) m ->
  mapHas k m = true ->
  List.map (fun kv => f (snd kv)) (mapSet k v m)
  = List.map (fun i => if isNamed k i then f v else i)
             (List.map (fun kv => f (snd kv)) m).
Proof.
  intros Hf. induction m as [|[k' v'] r IH]; intros ND F H.
  - discriminate.
  - inversion ND as [|x l Hnot ND' Ex]. inversion F as [|y l' Hy Hl Ey].
    cbn [fst snd] in Hy.
    cbn [mapSet List.map snd]. unfold isNamed at 1. rewrite Hf, Hy.
    destruct (JS.eqb k' k) eqn:E.
    + cbn [List.map snd]. f_equal. apply eqb_eq in E.
      rewrite map_map. apply map_ext_in. intros [k2 v2] Hin. cbn [snd].
      unfold isNamed. rewrite Hf.
      rewrite Forall_forall in Hl. pose proof (Hl _ Hin) as Hn.
      cbn [fst snd] in Hn. rewrite Hn.
      destruct (JS.eqb k2 k) eqn:E2; [|reflexivity].
      apply eqb_eq in E2. exfalso. apply Hnot.
      unfold mapKeys. apply in_map_iff. exists (k2, v2).
      split; [cbn [fst]; congruence | exact Hin].
    + cbn [List.map snd]. f_equal. apply IH; [exact ND' | exact Hl|].
      cbn [mapHas] in H. rewrite E in H. exact H.
Qed.

(** X2. [mount] is an insert-or-replace on what [getMounts] shows: a mount
of a name that is already registered takes the place of the old one in the
listing, a mount of a new name goes to the end, and every other entry
stays as and where it was. The entry shown has the normalized prefix and
the name as the default label. *)
Theorem mount_upserts st c :
  reachable st ->
  getMounts (mount c st) = upsert (infoOf c) (getMounts st).
Proof.
  intros R. destruct (reachable_wellkeyed _ R) as [ND F].
  unfold upsert. cbn [infoOf infoName].
  rewrite (getMounts_has (name c) st F).
  destruct (mapHas (name c) (mounts st)) eqn:H.
  - rewrite !getMounts_map. unfold mount. cbn [mounts].
    exact (mapSet_replaces
             (name c)
             (mkMountConfig (name c) (Some (JS.orElse (label c) (name c)))
                            (description c) (normalizePrefix (prefix c))
                            (handler c) (skipAuth c))
             (fun w => mkMountInfo (name w) (JS.orElse (label w) (name w))
                                   (description w) (prefix w)
                                   (trueOrUndefined (skipAuth w)))
             (mounts st) (fun w => eq_refl) ND F H).
  - unfold mount. rewrite !getMounts_map. cbn [mounts].
    rewrite (mapSet_absent _ _ _ H), map_app. reflexivity.
Qed.

(** X3. [unmount] returns true exactly when the name is in the listing;
afterwards the listing is the old one without that name, in the old order;
and a second [unmount] of the name returns false and changes nothing. *)
Theorem unmount_removes st (n : jsstring) :
  reachable st ->
  fst (unmount n st) = existsb (isNamed n) (getMounts st) /\
  getMounts (snd (unmount n st))
  = filter (fun info => negb (isNamed n info)) (getMounts st) /\
  unmount n (snd (unmount n st)) = (false, snd (unmount n st)).
Proof.
  intros R. destruct (reachable_wellkeyed _ R) as [ND F].
  split; [|split].
  - rewrite (getMounts_has n st F). reflexivity.
  - rewrite !getMounts_map. unfold unmount. cbn [snd mounts].
    rewrite (mapRemove_filter n _ ND).
    clear ND. induction (mounts st) as [|[k' v'] r IH]; [reflexivity|].
    inversion F as [|y l' Hy Hl]. cbn [fst snd] in Hy.
    cbn [filter List.map fst snd]. unfold isNamed at 1. cbn [infoName].
    replace (JS.eqb (name v') n) with (JS.eqb k' n) by (rewrite Hy; reflexivity).
    destruct (JS.eqb k' n); cbn [negb].
    + apply IH, Hl.
    + cbn [List.map snd]. f_equal. apply IH, Hl.
  - assert (mapHas n (mapRemove n (mounts st)) = false) as Gone.
    { apply mapHas_false. rewrite (mapRemove_filter n _ ND).
      unfold mapKeys. intros Hin. apply in_map_iff in Hin as ([k2 v2] & E & Hin).
      cbn [fst] in E. subst k2. apply filter_In in Hin as [_ Hin].
      cbn [fst] in Hin. rewrite eqb_refl in Hin. discriminate. }
    unfold unmount. cbn [snd fst mounts server serverPort authCredentials
                         apiToken apiReadToken sockets].
    rewrite Gone, (mapRemove_absent _ _ Gone). reflexivity.
Qed.

(** X4. Registering a name that is not in the registry and removing it
again gives back the state as it was. *)
Theorem unmount_undoes_mount st c :
  fst (unmount (name c) st) = false ->
  unmount (name c) (mount c st) = (true, st).
Proof.
  unfold unmount, mount. cbn [fst snd mounts server serverPort authCredentials
                              apiToken apiReadToken sockets].
  intros H. rewrite (mapSet_absent _ _ _ H).
  assert (forall m v, mapHas (name c) m = false ->
                      mapHas (name c) (m ++ [(name c, v)]) = true /\
                      mapRemove (name c) (m ++ [(name c, v)]) = m) as Last.
  { induction m as [|[k' v'] r IH]; intros v Hm.
    - cbn. rewrite eqb_refl. auto.
    - cbn [mapHas] in Hm. apply orb_false_iff in Hm as [E Hm].
      cbn [app mapHas mapRemove]. rewrite E.
      destruct (IH v Hm) as [H1 H2]. rewrite H1, H2. auto. }
  destruct (Last (mounts st)
                 (mkMountConfig (name c)
                                (Some (JS.orElse (label c) (name c)))
                                (description c) (normalizePrefix (prefix c))
                                (handler c) (skipAuth c)) H) as [H1 H2].
  rewrite H1, H2. destruct st; reflexivity.
Qed.

Lemma route_selects_registered m (path : jsstring) c (subPath : jsstring) :
  route m path = Some (c, subPath) -> In c (mapValues m).
Proof.
  unfold route. pose proof (findBestMatch_invariant m path) as Inv.
  destruct (findBestMatch m path) as [b|]; [|discriminate].
  intros H. injection H as <- _.
  destruct Inv as (_ & before & after & E & _). rewrite E. apply in_elt.
Qed.

(** X5. Routing follows the registry. After [unmount] of a name the router
never selects a mount of that name. After [mount], a selected mount that
has the name just registered is the new registration: it has the new
normalized prefix and the new handler, so the prefix that the name had
before no longer leads to it. *)
Theorem routing_follows_registry st (path : jsstring) :
  reachable st ->
  (forall n best subPath,
      route (mounts (snd (unmount n st))) path = Some (best, subPath) ->
      name best <> n)
  /\
  (forall c best subPath,
      route (mounts (mount c st)) path = Some (best, subPath) ->
      name best = name c ->
      prefix best = normalizePrefix (prefix c) /\ handler best = handler c /\
      skipAuth best = skipAuth c).
Proof.
  intros R. split.
  - intros n best subPath H E.
    apply route_selects_registered in H.
    pose proof (unmount_wellkeyed n st (reachable_wellkeyed _ R)) as [ND F].
    destruct (reachable_wellkeyed _ R) as [ND0 _].
    unfold mapValues in H. apply in_map_iff in H as ([k v] & Ev & Hin).
    cbn [snd] in Ev. subst v.
    rewrite Forall_forall in F. pose proof (F _ Hin) as Hk. cbn [fst snd] in Hk.
    unfold unmount in Hin. cbn [snd mounts] in Hin.
    rewrite (mapRemove_filter n _ ND0) in Hin.
    apply filter_In in Hin as [_ Hin]. cbn [fst] in Hin.
    rewrite <- Hk, E, eqb_refl in Hin. discriminate.
  - intros c best subPath H E.
    apply route_selects_registered in H.
    pose proof (mount_wellkeyed c st (reachable_wellkeyed _ R)) as [ND F].
    unfold mapValues in H. apply in_map_iff in H as ([k v] & Ev & Hin).
    cbn [snd] in Ev. subst v.
    rewrite Forall_forall in F. pose proof (F _ Hin) as Hk. cbn [fst snd] in Hk.
    rewrite E in Hk. subst k.
    assert (forall m (k : jsstring) (v w : MountConfig RouteHandler),
               NoDup (mapKeys m) -> In (k, v) m -> In (k, w) m -> v = w) as Uniq.
    { induction m as [|[k' v'] r IH]; intros k v w N Hv Hw; [destruct Hv|].
      inversion N as [|x l Hnot N']. subst.
      assert (forall u, In (k, u) r -> In k (mapKeys r)) as Key
          by (intros u Hu; unfold mapKeys; apply in_map_iff;
              exists (k, u); auto).
      destruct Hv as [Hv | Hv], Hw as [Hw | Hw].
      - congruence.
      - injection Hv as -> _. exfalso. apply Hnot, (Key _ Hw).
      - injection Hw as -> _. exfalso. apply Hnot, (Key _ Hv).
      - apply (IH k v w N' Hv Hw). }
    pose proof (Uniq _ _ _ _ ND Hin (@mapSet_In RouteHandler (name c) _ (mounts st))) as Eq.
    rewrite Eq. auto.
Qed.

End RegistryUse.

(* ================================================================== *)
(** * Prefixes and sub-paths *)
(* ================================================================== *)

Lemma endsWithSlash_snoc (r l : jsstring) :
  l <> [] -> Forall (fun c => c = JS.slash) l -> EndsWithSlash (r ++ l).
Proof.
  intros Hl F. destruct l as [|x l] using rev_ind; [congruence|].
  apply Forall_app in F as [_ F]. inversion F as [|y z Hy Hz]. subst.
  exists (r ++ l). rewrite app_assoc. reflexivity.
Qed.

(** The text without its trailing slashes is determined by the text. *)
Lemma replaceTrailingSlashes_unique (s r t : jsstring) :
  s = r ++ t -> Forall (fun c => c = JS.slash) t -> ~ EndsWithSlash r ->
  JS.replaceTrailingSlashes s = r.
Proof.
  intros E F NE.
  destruct (replaceTrailingSlashes_spec s) as (t' & E' & F' & NE').
  rewrite E in E' at 1. apply app_eq_app in E' as [l [[H1 H2] | [H1 H2]]].
  - destruct l as [|x l]; [rewrite app_nil_r in H1; auto|].
    exfalso. apply NE. rewrite H1. apply endsWithSlash_snoc; [discriminate|].
    rewrite H2 in F'. apply Forall_app in F'. tauto.
  - destruct l as [|x l]; [rewrite app_nil_r in H1; auto|].
    exfalso. apply NE'. rewrite H1. apply endsWithSlash_snoc; [discriminate|].
    rewrite H2 in F. apply Forall_app in F. tauto.
Qed.

Lemma replaceTrailingSlashes_more (p t : jsstring) :
  Forall (fun c => c = JS.slash) t ->
  JS.replaceTrailingSlashes (p ++ t) = JS.replaceTrailingSlashes p.
Proof.
  intros F. destruct (replaceTrailingSlashes_spec p) as (t' & E' & F' & NE').
  apply (replaceTrailingSlashes_unique _ _ (t' ++ t)).
  - rewrite E' at 1. rewrite app_assoc. reflexivity.
  - apply Forall_app. auto.
  - exact NE'.
Qed.

Lemma normalizePrefix_idempotent (p : jsstring) :
  normalizePrefix (normalizePrefix p) = normalizePrefix p.
Proof.
  destruct (normalizePrefix_shape p) as [B [R | NE]].
  - rewrite R. reflexivity.
  - unfold normalizePrefix at 1.
    rewrite (@replaceTrailingSlashes_fixed (normalizePrefix p) NE).
    apply startsWith_iff in B. rewrite B. reflexivity.
Qed.

Lemma normalizePrefix_leading (p : jsstring) :
  JS.startsWith p (JS.lit "/") = false ->
  normalizePrefix (JS.lit "/" ++ p) = normalizePrefix p.
Proof.
  intros S. destruct p as [|c t]; [reflexivity|].
  change (JS.lit "/") with [47%N] in *.
  cbn [JS.startsWith] in S. rewrite andb_true_r in S.
  assert (N.eqb 47 c = false) as S'
      by (rewrite N.eqb_sym; exact S).
  assert (JS.allSlashes (c :: t) = false) as A1.
  { unfold JS.allSlashes, JS.slash. cbn [forallb]. rewrite S'. reflexivity. }
  assert (JS.allSlashes (47%N :: c :: t) = false) as A2.
  { unfold JS.allSlashes, JS.slash. cbn [forallb].
    rewrite S', andb_false_r. reflexivity. }
  unfold normalizePrefix. change (JS.lit "/") with [47%N].
  cbn [app JS.replaceTrailingSlashes]. rewrite A2, A1.
  cbn [JS.startsWith]. rewrite N.eqb_refl, S. reflexivity.
Qed.

Section PrefixUse.

Variable RouteHandler : Type.

Implicit Types st : State RouteHandler.
Implicit Types c : MountConfig RouteHandler.

(** X6. The prefix that [mount] stores does not depend on how the caller
wrote the slashes: normalizing a normalized prefix changes nothing,
trailing slashes are dropped however many there are, and a prefix written
without its leading slash is the same mount as with it. So the calls
[mount] and [mountApi] with "chat", "/chat", "chat/" or "/chat//" all
produce the same state. *)
Theorem mount_ignores_slash_spelling st c (t : jsstring) :
  Forall (fun u => u = JS.slash) t ->
  normalizePrefix (normalizePrefix (prefix c)) = normalizePrefix (prefix c) /\
  mount (withPrefix c (prefix c ++ t)) st = mount c st /\
  mountApi (withPrefix c (prefix c ++ t)) st = mountApi c st /\
  (JS.startsWith (prefix c) (JS.lit "/") = false ->
   mount (withPrefix c (JS.lit "/" ++ prefix c)) st = mount c st /\
   mountApi (withPrefix c (JS.lit "/" ++ prefix c)) st = mountApi c st).
Proof.
  intros F.
  assert (normalizePrefix (prefix c ++ t) = normalizePrefix (prefix c)) as T
      by (unfold normalizePrefix; rewrite (replaceTrailingSlashes_more _ _ F);
          reflexivity).
  split; [apply normalizePrefix_idempotent|]. split; [|split].
  - unfold mount, withPrefix. cbn [prefix name label description handler skipAuth].
    rewrite T. reflexivity.
  - unfold mountApi, mount, withPrefix.
    cbn [prefix name label description handler skipAuth]. rewrite T. reflexivity.
  - intros S. pose proof (normalizePrefix_leading _ S) as L. split.
    + unfold mount, withPrefix.
      cbn [prefix name label description handler skipAuth]. rewrite L. reflexivity.
    + unfold mountApi, mount, withPrefix.
      cbn [prefix name label description handler skipAuth]. rewrite L. reflexivity.
Qed.

(** X7. The sub-path that a handler receives always begins with "/", and
unless it is the "/" that stands for an empty remainder, the prefix followed
by the sub-path is the request path. *)
Theorem subPath_begins_with_slash
        (ms : list (jsstring * MountConfig RouteHandler)) (path : jsstring)
        c (subPath : jsstring) :
  route ms path = Some (c, subPath) ->
  BeginsWithSlash subPath /\
  (path = prefix c ++ subPath \/ (path = prefix c /\ subPath = JS.lit "/")).
Proof.
  unfold route. pose proof (findBestMatch_invariant ms path) as Inv.
  destruct (findBestMatch ms path) as [b|]; [|discriminate].
  intros H. injection H as <- <-. destruct Inv as [M _].
  unfold subPathOf. destruct M as [E | [rest E]].
  - assert (JS.slice path (JS.length (prefix b)) None = []) as Sl.
    { rewrite E. rewrite <- (app_nil_r (prefix b)) at 1.
      apply slice_after. }
    rewrite Sl. cbn [JS.orDefault].
    split; [exists []; reflexivity | right; auto].
  - assert (JS.slice path (JS.length (prefix b)) None = JS.lit "/" ++ rest) as Sl
        by (rewrite E; apply slice_after).
    rewrite Sl. change (JS.lit "/" ++ rest) with (47%N :: rest).
    cbn [JS.orDefault].
    split; [exists rest; reflexivity | left; exact E].
Qed.

End PrefixUse.

(* ================================================================== *)
(** * The request callback as a whole *)
(* ================================================================== *)

Section Callback.

Variable RouteHandler : Type.
Variable base64Decode : jsstring -> jsstring.

Implicit Types st : State RouteHandler.

(** Everything the [try] block can end in. *)
Lemma tryBlock_outcomes st (srv : HttpServer) (req : Request)
      (res : ServerResponse) :
  exists o,
    tryBlock st srv req res = Ok o /\
    (o = Finished (forbidden res) \/
     o = Finished (invalidToken res) \/
     o = Finished (apiRootAnswer st res) \/
     o = Finished (dashboardAnswer srv res) \/
     o = Finished (mountsAnswer st res) \/
     o = Finished (notFound res) \/
     exists best, o = Invoked res best (subPathOf (pathname req) best)).
Proof.
  assert (forall cond : bool,
             gateIf cond st req res = Ok (true, res) \/
             gateIf cond st req res = Ok (false, forbidden res) \/
             gateIf cond st req res = Ok (false, invalidToken res)) as G.
  { intros cond. unfold gateIf. destruct cond; [|auto].
    apply checkApiAuth_cases. }
  unfold tryBlock.
  destruct (JS.eqb (pathname req) (JS.lit "/api")
            || JS.eqb (pathname req) (JS.lit "/api/")).
  - destruct (@checkApiAuth_cases _ st req res) as [C | [C | C]];
      rewrite C; eexists; (split; [reflexivity|]); cbn [fst snd negb]; auto.
  - destruct (JS.eqb (pathname req) (JS.lit "/") || JS.eqb (pathname req) []);
      [eexists; split; [reflexivity | auto 10]|].
    destruct (JS.eqb (pathname req) (JS.lit "/_api/mounts"));
      [eexists; split; [reflexivity | auto 10]|].
    destruct (findBestMatch (mounts st) (pathname req)) as [best|].
    + destruct (G (isApiPath (pathname req) && negb (isSet (skipAuth best))))
        as [E | [E | E]]; rewrite E;
        eexists; (split; [reflexivity|]); cbn [fst snd negb]; eauto 10.
    + destruct (G (isApiPath (pathname req))) as [E | [E | E]]; rewrite E;
        eexists; (split; [reflexivity|]); cbn [fst snd negb]; auto 10.
Qed.

(** Everything the callback can end in, given the response [res] that the
[try] block starts with. *)
Lemma handleRequest_outcomes st (srv : HttpServer) (req : Request) :
  let o := handleRequest base64Decode st srv req in
  let res := corsResponse in
  o = Finished (preflightAnswer res) \/
  o = Finished (unauthorized res) \/
  o = Finished (forbidden res) \/
  o = Finished (invalidToken res) \/
  o = Finished (apiRootAnswer st res) \/
  o = Finished (dashboardAnswer srv res) \/
  o = Finished (mountsAnswer st res) \/
  o = Finished (notFound res) \/
  exists best, o = Invoked res best (subPathOf (pathname req) best).
Proof.
  cbv zeta. unfold handleRequest.
  destruct (JS.eqb (method req) (JS.lit "OPTIONS")); [left; reflexivity|].
  fold corsResponse.
  assert (forall res,
             match tryBlock st srv req res with
             | Ok o => o
             | Throw err => Finished (catchBlock res err)
             end = Finished (forbidden res) \/
             match tryBlock st srv req res with
             | Ok o => o
             | Throw err => Finished (catchBlock res err)
             end = Finished (invalidToken res) \/
             match tryBlock st srv req res with
             | Ok o => o
             | Throw err => Finished (catchBlock res err)
             end = Finished (apiRootAnswer st res) \/
             match tryBlock st srv req res with
             | Ok o => o
             | Throw err => Finished (catchBlock res err)
             end = Finished (dashboardAnswer srv res) \/
             match tryBlock st srv req res with
             | Ok o => o
             | Throw err => Finished (catchBlock res err)
             end = Finished (mountsAnswer st res) \/
             match tryBlock st srv req res with
             | Ok o => o
             | Throw err => Finished (catchBlock res err)
             end = Finished (notFound res) \/
             exists best,
               match tryBlock st srv req res with
               | Ok o => o
               | Throw err => Finished (catchBlock res err)
               end = Invoked res best (subPathOf (pathname req) best)) as T.
  { intros res. destruct (tryBlock_outcomes st srv req res) as (o & E & H).
    rewrite E. exact H. }
  destruct (isApiPath (pathname req)); cbn [negb fst snd].
  - right. right. apply T.
  - unfold checkAuth. destruct (authCredentials st) as [creds|];
      cbn [negb fst snd]; [|right; right; apply T].
    destruct (basicMatches base64Decode creds (authorization req));
      cbn [negb fst snd]; [right; right; apply T | right; left; reflexivity].
Qed.

(** Before a handler runs, whatever the callback has written has the three
CORS headers first. *)
Lemma handleRequest_cors st (srv : HttpServer) (req : Request) :
  HasCors (written (handleRequest base64Decode st srv req)).
Proof.
  destruct (handleRequest_outcomes st srv req)
    as [E | [E | [E | [E | [E | [E | [E | [E | [best E]]]]]]]]];
    rewrite E; cbn [written]; eexists; reflexivity.
Qed.



(** The [try] block outside the API namespace: no token gate. *)
Lemma tryBlock_general st (srv : HttpServer) (req : Request)
      (res : ServerResponse) :
  isApiPath (pathname req) = false ->
  tryBlock st srv req res =
  Ok (if isDashboardPath (pathname req) then Finished (dashboardAnswer srv res)
      else if isMountListPath (pathname req) then Finished (mountsAnswer st res)
      else match findBestMatch (mounts st) (pathname req) with
           | Some best => Invoked res best (subPathOf (pathname req) best)
           | None => Finished (notFound res)
           end).
Proof.
  intros A. unfold tryBlock, isDashboardPath, isMountListPath.
  assert (JS.eqb (pathname req) (JS.lit "/api")
          || JS.eqb (pathname req) (JS.lit "/api/") = false) as Root.
  { unfold isApiPath in A. apply orb_false_iff in A as [A1 A2].
    rewrite A1. cbn [orb]. apply eqb_neq. intros E. rewrite E in A2.
    discriminate. }
  rewrite Root, A.
  destruct (JS.eqb (pathname req) (JS.lit "/") || JS.eqb (pathname req) []);
    [reflexivity|].
  destruct (JS.eqb (pathname req) (JS.lit "/_api/mounts")); [reflexivity|].
  destruct (findBestMatch (mounts st) (pathname req)); reflexivity.
Qed.

Lemma handleRequest_general st (srv : HttpServer) (req : Request) :
  method req <> JS.lit "OPTIONS" ->
  isApiPath (pathname req) = false ->
  handleRequest base64Decode st srv req =
  if fst (checkAuth base64Decode st req corsResponse)
  then if isDashboardPath (pathname req)
       then Finished (dashboardAnswer srv corsResponse)
       else if isMountListPath (pathname req)
            then Finished (mountsAnswer st corsResponse)
            else match findBestMatch (mounts st) (pathname req) with
                 | Some best =>
                     Invoked corsResponse best (subPathOf (pathname req) best)
                 | None => Finished (notFound corsResponse)
                 end
  else Finished (unauthorized corsResponse).
Proof.
  intros M A. unfold handleRequest. apply eqb_neq in M. rewrite M, A.
  fold corsResponse. cbn [negb]. unfold checkAuth.
  destruct (authCredentials st) as [creds|]; cbn [fst snd negb].
  - destruct (basicMatches base64Decode creds (authorization req));
      cbn [fst snd negb]; [|reflexivity].
    rewrite (tryBlock_general st srv req corsResponse A). reflexivity.
  - rewrite (tryBlock_general st srv req corsResponse A). reflexivity.
Qed.

Lemma checkAuth_passes st (req : Request) (res : ServerResponse) :
  fst (checkAuth base64Decode st req res) = true <->
  SessionPasses base64Decode st req.
Proof.
  unfold checkAuth, SessionPasses.
  destruct (authCredentials st) as [creds|]; cbn [fst].
  - pose proof (@basicMatches_iff base64Decode creds (authorization req)) as B.
    destruct (basicMatches base64Decode creds (authorization req)); cbn [fst].
    + split; [|reflexivity]. intros _. right. exists creds.
      split; [reflexivity | apply B; reflexivity].
    + split; [discriminate|]. intros [H | (c & H & V)]; [discriminate|].
      injection H as <-. apply B in V. discriminate.
  - split; [intros _; left; reflexivity | reflexivity].
Qed.

(** X10. Outside the API namespace nothing is served without the session
credentials once they are configured: a request that is not a preflight
and does not carry the configured Basic credential gets the 401 with the
challenge, whatever its path, the mounts, their [skipAuth] flags and the
bearer tokens; no handler is called. *)
Theorem general_namespace_needs_session st (srv : HttpServer) (req : Request) :
  method req <> JS.lit "OPTIONS" ->
  isApiPath (pathname req) = false ->
  ~ SessionPasses base64Decode st req ->
  handleRequest base64Decode st srv req = Finished (unauthorized corsResponse).
Proof.
  intros M A NP. rewrite (handleRequest_general st srv req M A).
  rewrite <- (checkAuth_passes st req corsResponse) in NP.
  destruct (fst (checkAuth base64Decode st req corsResponse));
    [exfalso; apply NP; reflexivity | reflexivity].
Qed.

(** X11. Outside the API namespace, a request that passes the session gate
and is not a preflight is answered without any look at the bearer tokens
or at [skipAuth]: "/" (or an empty path) gets the dashboard and
/_api/mounts gets the list of all mounts, before any mount is considered,
so a mount can never take these two paths over; every other path goes to
the handler of the mount that the router selects, with the sub-path, and
gets the 404 when the router selects none. *)
Theorem general_namespace_dispatch st (srv : HttpServer) (req : Request) :
  method req <> JS.lit "OPTIONS" ->
  isApiPath (pathname req) = false ->
  SessionPasses base64Decode st req ->
  (isDashboardPath (pathname req) = true ->
   handleRequest base64Decode st srv req
   = Finished (dashboardAnswer srv corsResponse))
  /\
  (isDashboardPath (pathname req) = false ->
   isMountListPath (pathname req) = true ->
   handleRequest base64Decode st srv req
   = Finished (mountsAnswer st corsResponse))
  /\
  (isDashboardPath (pathname req) = false ->
   isMountListPath (pathname req) = false ->
   (forall best subPath,
       route (mounts st) (pathname req) = Some (best, subPath) ->
       handleRequest base64Decode st srv req
       = Invoked corsResponse best subPath) /\
   (route (mounts st) (pathname req) = None ->
    handleRequest base64Decode st srv req = Finished (notFound corsResponse))).
Proof.
  intros M A P. rewrite (handleRequest_general st srv req M A).
  apply (checkAuth_passes st req corsResponse) in P. rewrite P.
  split; [intros ->; reflexivity|]. split; [intros -> ->; reflexivity|].
  intros -> ->. unfold route.
  destruct (findBestMatch (mounts st) (pathname req)) as [b|]; split.
  - intros best subPath H. injection H as <- <-. reflexivity.
  - discriminate.
  - discriminate.
  - reflexivity.
Qed.

(** X12. The two layers do not see each other. The answer to a request
under the API namespace depends on the registry and on the two tokens, not
on the session credentials; the answer to a request outside it depends on
the registry and on the session credentials, not on the tokens. *)
Theorem auth_layers_are_independent (st1 st2 : State RouteHandler)
        (srv : HttpServer) (req : Request) :
  mounts st1 = mounts st2 ->
  (isApiPath (pathname req) = true ->
   apiToken st1 = apiToken st2 -> apiReadToken st1 = apiReadToken st2 ->
   handleRequest base64Decode st1 srv req = handleRequest base64Decode st2 srv req)
  /\
  (isApiPath (pathname req) = false ->
   authCredentials st1 = authCredentials st2 ->
   handleRequest base64Decode st1 srv req = handleRequest base64Decode st2 srv req).
Proof.
  intros Ms. split.
  - intros A T R. unfold handleRequest. rewrite A. cbn [negb fst snd].
    destruct (JS.eqb (method req) (JS.lit "OPTIONS")); [reflexivity|].
    assert (forall res, checkApiAuth st1 req res = checkApiAuth st2 req res) as CA
        by (intros res; unfold checkApiAuth; rewrite T, R; reflexivity).
    assert (forall res, tryBlock st1 srv req res = tryBlock st2 srv req res) as TB.
    { intros res. unfold tryBlock, gateIf, getApiMounts, getMounts.
      rewrite Ms, T, R, !CA. reflexivity. }
    rewrite TB. reflexivity.
  - intros A C.
    destruct (JS.eqb (method req) (JS.lit "OPTIONS")) eqn:M.
    + unfold handleRequest. rewrite M. reflexivity.
    + apply eqb_neq in M.
      rewrite (handleRequest_general st1 srv req M A),
              (handleRequest_general st2 srv req M A).
      unfold checkAuth, mountsAnswer, getMounts. rewrite Ms, C. reflexivity.
Qed.

End Callback.

(* ================================================================== *)
(** * The callback from its first statement to the end of its promise *)
(* ================================================================== *)

Section CallbackRun.

Variable RouteHandler : Type.
Variable base64Decode : jsstring -> jsstring.
Variable runHandler :
  RouteHandler -> Request -> ServerResponse -> jsstring
  -> ServerResponse * HandlerEnd.

Implicit Types st : State RouteHandler.

(** The [catch] block adds the status 500 and the content type to what the
handler left, or leaves it as it is. *)
Lemma catchThrown_headers (res : ServerResponse) (t : Thrown) :
  headers (responseOf (catchThrown res t)) = headers res \/
  headers (responseOf (catchThrown res t))
  = headers res ++ [(JS.lit "Content-Type", JS.lit "application/json")].
Proof.
  destruct t as [err | | e]; unfold catchThrown, catchBlock;
    destruct (negb (headersSent res)); cbn [responseOf];
    first [left; reflexivity | right; reflexivity].
Qed.

(** X8. The three CORS headers come first on whatever the callback writes
itself and on the response object that it hands to a handler, on every
path, for every method, with or without credentials. The 500 that the
[catch] block writes after a handler threw adds the content type to the
headers as the handler left them, so the response at the end of the
callback carries the CORS headers whenever the handler left them in place.
The one run without them is the run in which [new URL] throws: it ends
before the first header is set, and nothing at all is written. *)
Theorem cors_headers_always st (srv : HttpServer) (a : Arrival) :
  match a with
  | Unparsable err =>
      responseOf (requestCallback base64Decode runHandler st srv a)
      = freshResponse
  | Parsed req =>
      HasCors (written (handleRequest base64Decode st srv req)) /\
      (forall res,
          handleRequest base64Decode st srv req = Finished res ->
          requestCallback base64Decode runHandler st srv a = Resolved res) /\
      (forall res best subPath,
          handleRequest base64Decode st srv req = Invoked res best subPath ->
          HasCors res /\
          (HasCors (fst (runHandler (handler best) req res subPath)) ->
           HasCors (responseOf
                      (requestCallback base64Decode runHandler st srv a))))
  end.
Proof.
  destruct a as [req | err]; [|reflexivity].
  pose proof (handleRequest_cors RouteHandler base64Decode st srv req) as C.
  split; [exact C|]. split.
  - intros res E. unfold requestCallback. rewrite E. reflexivity.
  - intros res best subPath E. rewrite E in C. cbn [written] in C.
    split; [exact C|]. intros K. unfold requestCallback. rewrite E.
    destruct (runHandler (handler best) req res subPath) as [after hend].
    cbn [fst] in K. destruct hend as [|t|]; cbn [responseOf]; try exact K.
    destruct K as (rest & K).
    destruct (catchThrown_headers after t) as [H | H]; rewrite K in H.
    + exists rest. exact H.
    + eexists. rewrite H. reflexivity.
Qed.


End CallbackRun.

(* ================================================================== *)
(** * Sockets over time *)
(* ================================================================== *)

Lemma openSockets_app (t l : list SocketEvent) :
  openSockets (t ++ l) = fold_left afterSocketEvent l (openSockets t).
Proof. unfold openSockets. apply fold_left_app. Qed.

Lemma neverTwo_app (t l : list SocketEvent) :
  NeverTwoSockets t ->
  (forall k, (List.length (fold_left afterSocketEvent (firstn k l)
                                     (openSockets t)) <= 1)%nat) ->
  NeverTwoSockets (t ++ l).
Proof.
  intros Ht Hl n. rewrite firstn_app.
  destruct (Nat.le_gt_cases n (List.length t)) as [Le | Gt].
  - replace (n - List.length t)%nat with 0%nat by lia.
    cbn [firstn]. rewrite app_nil_r. apply Ht.
  - rewrite firstn_all2 by lia. rewrite openSockets_app. apply Hl.
Qed.

Section LifeCycle.

Variable RouteHandler : Type.

Implicit Types st : State RouteHandler.

Lemma stop_sockets st :
  SocketsMatchPort st ->
  SocketsMatchPort (snd (stop st)) /\
  serverPort (snd (stop st)) = None /\ server (snd (stop st)) = None.
Proof.
  intros Inv. pose proof Inv as (O & L & N). unfold stop.
  destruct (server st) as [srv|] eqn:S; cbn [snd].
  - split; [|split; reflexivity]. unfold SocketsMatchPort.
    cbn [sockets serverPort server].
    assert (openSockets (sockets st) = [] \/
            openSockets (sockets st) = [listenPort srv]) as Open.
    { rewrite O. destruct (serverPort st) as [p|] eqn:P; [|auto].
      destruct (L p eq_refl) as (srv' & E & <-). right. congruence. }
    split; [|split].
    + rewrite openSockets_app. cbn [fold_left afterSocketEvent].
      destruct Open as [-> | ->]; cbn [remove];
        [reflexivity | destruct (Z.eq_dec _ _); [reflexivity | congruence]].
    + intros p H. discriminate.
    + apply neverTwo_app; [exact N|]. intros [|[|[|k]]];
        cbn [firstn fold_left afterSocketEvent];
        destruct Open as [-> | ->]; cbn [remove List.length];
        try destruct (Z.eq_dec _ _); cbn [List.length]; lia.
  - split; [exact Inv|].
    split; [|exact S].
    destruct (serverPort st) as [p|] eqn:P; [|reflexivity].
    destruct (L p eq_refl) as (srv & E & _). congruence.
Qed.

Lemma perform_sockets st (call : Call RouteHandler) :
  SocketsMatchPort st -> SocketsMatchPort (perform st call).
Proof.
  intros Inv. destruct call; cbn [perform]; try exact Inv.
  - destruct (stop_sockets st Inv) as ((O & L & N) & P & S).
    unfold start.
    assert ((if isRunning st then snd (stop st) else st) = snd (stop st)) as St.
    { unfold isRunning, stop. destruct (server st); reflexivity. }
    rewrite St. destruct dashboard as [html|e]; cbn [snd];
      [|exact (conj O (conj L N))].
    rewrite P in O.
    destruct (validPort _); cbn [snd]; unfold SocketsMatchPort;
      cbn [sockets serverPort server].
    + split; [|split].
      * rewrite openSockets_app, O. reflexivity.
      * intros p H. injection H as <-. eexists. split; reflexivity.
      * apply neverTwo_app; [exact N|]. rewrite O.
        intros [|[|k]]; cbn; lia.
    + rewrite P. split; [exact O|]. split; [intros p H; discriminate | exact N].
  - apply stop_sockets, Inv.
Qed.







(** X14. [start] is [stop] followed by a fresh start. With a readable
dashboard and a port that [listen] accepts it returns the URL of the port,
records the port, and its socket events are those of [stop] and then one
[listen]; [getUrl] then shows the URL unless the port is 0, for which it
shows null although the server runs. When the dashboard file cannot be
read, the exception goes to the caller and the state is the one [stop]
leaves: a server that was running is gone. Without a port the port is
4100. *)
Theorem start_is_stop_then_listen st (dashboard : Exc jsstring) (port : Z) :
  (forall html,
      dashboard = Ok html -> validPort port = true ->
      fst (start dashboard (Some port) st) = Ok (Localhost port) /\
      isRunning (snd (start dashboard (Some port) st)) = true /\
      getPort (snd (start dashboard (Some port) st)) = Some port /\
      (getUrl (snd (start dashboard (Some port) st)) = None <-> port = 0%Z) /\
      (port <> 0%Z ->
       getUrl (snd (start dashboard (Some port) st)) = Some (Localhost port)) /\
      sockets (snd (start dashboard (Some port) st))
      = sockets (snd (stop st)) ++ [Listen port])
  /\
  (forall e,
      dashboard = Throw e ->
      start dashboard (Some port) st = (Throw e, snd (stop st)) /\
      isRunning (snd (start dashboard (Some port) st)) = false)
  /\
  start dashboard None st = start dashboard (Some 4100%Z) st.
Proof.
  assert ((if isRunning st then snd (stop st) else st) = snd (stop st)) as St.
  { unfold isRunning, stop. destruct (server st); reflexivity. }
  split; [|split].
  - intros html -> V. unfold start. rewrite St, V. cbn [fst snd].
    unfold isRunning, getPort, getUrl. cbn [server serverPort sockets].
    repeat split.
    + destruct (Z.eqb_spec port 0); [auto | discriminate].
    + intros ->. reflexivity.
    + intros H. destruct (Z.eqb_spec port 0); [contradiction | reflexivity].
  - intros e ->. unfold start. rewrite St. cbn [snd]. split; [reflexivity|].
    unfold stop, isRunning. destruct (server st) eqn:S; cbn [snd server];
      [reflexivity | rewrite S; reflexivity].
  - reflexivity.
Qed.

Lemma perform_lifecycle_only st (call : Call RouteHandler) :
  isLifeCycle call = true ->
  mounts (perform st call) = mounts st /\
  authCredentials (perform st call) = authCredentials st /\
  apiToken (perform st call) = apiToken st /\
  apiReadToken (perform st call) = apiReadToken st.
Proof.
  destruct call; try discriminate; intros _; cbn [perform].
  - unfold start, stop, isRunning.
    destruct (server st); destruct dashboard; cbn [snd];
      try (destruct (validPort _)); cbn [snd]; repeat split.
  - unfold stop. destruct (server st); cbn [snd]; repeat split.
Qed.

Lemma perform_config_only st (call : Call RouteHandler) :
  isLifeCycle call = false ->
  server (perform st call) = server st /\
  serverPort (perform st call) = serverPort st /\
  sockets (perform st call) = sockets st.
Proof.
  destruct call; try discriminate; intros _; cbn [perform]; repeat split.
Qed.

Lemma perform_lifecycle_depends st1 st2 (call : Call RouteHandler) :
  isLifeCycle call = true ->
  server st1 = server st2 -> serverPort st1 = serverPort st2 ->
  sockets st1 = sockets st2 ->
  server (perform st1 call) = server (perform st2 call) /\
  serverPort (perform st1 call) = serverPort (perform st2 call) /\
  sockets (perform st1 call) = sockets (perform st2 call).
Proof.
  destruct st1 as [s1 p1 m1 a1 t1 r1 k1], st2 as [s2 p2 m2 a2 t2 r2 k2].
  cbn [server serverPort sockets].
  destruct call; try discriminate; intros _ S P T; subst; cbn [perform].
  - unfold start, stop, isRunning. cbn [server serverPort sockets].
    destruct s2; destruct dashboard; cbn [snd server serverPort sockets];
      try (destruct (validPort _)); cbn [snd server serverPort sockets];
      repeat split.
  - unfold stop. cbn [server serverPort sockets].
    destruct s2; cbn [snd server serverPort sockets]; repeat split.
Qed.

Lemma perform_config_depends st1 st2 (call : Call RouteHandler) :
  isLifeCycle call = false ->
  mounts st1 = mounts st2 -> authCredentials st1 = authCredentials st2 ->
  apiToken st1 = apiToken st2 -> apiReadToken st1 = apiReadToken st2 ->
  mounts (perform st1 call) = mounts (perform st2 call) /\
  authCredentials (perform st1 call) = authCredentials (perform st2 call) /\
  apiToken (perform st1 call) = apiToken (perform st2 call) /\
  apiReadToken (perform st1 call) = apiReadToken (perform st2 call).
Proof.
  destruct call; try discriminate; intros _ M A T R; cbn [perform];
    unfold mountApi, unmountApi, mount, unmount, setAuth, setApiToken,
    setApiReadToken; cbn [snd mounts authCredentials apiToken apiReadToken];
    rewrite <- ?M; auto.
Qed.

(** X15. Configuration and life cycle do not touch each other. The
registry, the session credentials and the tokens after any sequence of
calls are those that the same sequence without its [start] and [stop]
calls produces, so they survive every restart and every failed start; and
the server, the port and the socket events are those of the [start] and
[stop] calls alone. *)
Theorem configuration_survives_restarts (calls : list (Call RouteHandler)) :
  let st := performAll calls initialState in
  let configured :=
    performAll (filter (fun c => negb (isLifeCycle c)) calls) initialState in
  let cycled := performAll (filter (@isLifeCycle RouteHandler) calls) initialState in
  (mounts st = mounts configured /\
   authCredentials st = authCredentials configured /\
   apiToken st = apiToken configured /\
   apiReadToken st = apiReadToken configured)
  /\
  (server st = server cycled /\
   serverPort st = serverPort cycled /\
   sockets st = sockets cycled).
Proof.
  cbv zeta.
  assert (forall cs (a b c : State RouteHandler),
             (mounts a = mounts b /\ authCredentials a = authCredentials b /\
              apiToken a = apiToken b /\ apiReadToken a = apiReadToken b) ->
             (server a = server c /\ serverPort a = serverPort c /\
              sockets a = sockets c) ->
             (mounts (performAll cs a)
              = mounts (performAll (filter (fun c => negb (isLifeCycle c)) cs) b) /\
              authCredentials (performAll cs a)
              = authCredentials
                  (performAll (filter (fun c => negb (isLifeCycle c)) cs) b) /\
              apiToken (performAll cs a)
              = apiToken (performAll (filter (fun c => negb (isLifeCycle c)) cs) b) /\
              apiReadToken (performAll cs a)
              = apiReadToken
                  (performAll (filter (fun c => negb (isLifeCycle c)) cs) b)) /\
             (server (performAll cs a)
              = server (performAll (filter (@isLifeCycle RouteHandler) cs) c) /\
              serverPort (performAll cs a)
              = serverPort (performAll (filter (@isLifeCycle RouteHandler) cs) c) /\
              sockets (performAll cs a)
              = sockets (performAll (filter (@isLifeCycle RouteHandler) cs) c))) as G.
  { induction cs as [|call cs IH]; intros a b c Hb Hc; [auto|].
    cbn [performAll fold_left filter].
    destruct (isLifeCycle call) eqn:LC; cbn [negb];
      cbn [performAll fold_left] in *.
    - apply IH.
      + destruct (perform_lifecycle_only a call LC) as (M & A & T & R).
        rewrite M, A, T, R. exact Hb.
      + destruct Hc as (S & P & T).
        apply (perform_lifecycle_depends a c call LC S P T).
    - apply IH.
      + destruct Hb as (M & A & T & R).
        apply (perform_config_depends a b call LC M A T R).
      + destruct (perform_config_only a call LC) as (S & P & T).
        rewrite S, P, T. exact Hc. }
  apply G; repeat split.
Qed.

End LifeCycle.

(* ================================================================== *)
(** * Text and numbers *)
(* ================================================================== *)

Example text_examples :
  Text.parseInt (JS.lit "  8080abc") = Text.Int 8080 /\
  Text.parseInt (JS.lit "0x1F") = Text.Int 31 /\
  Text.parseInt (JS.lit "-12") = Text.Int (-12) /\
  Text.parseInt (JS.lit "abc") = Text.NaN /\
  Text.parseInt (JS.lit "0x") = Text.NaN /\
  Text.parseInt [] = Text.NaN /\
  Text.parseInt (JS.lit "+7.9") = Text.Int 7 /\
  Text.decimal 0 = JS.lit "0" /\
  Text.decimal 65535 = JS.lit "65535" /\
  Text.decimal 4100 = JS.lit "4100" /\
  Text.trim (JS.lit "  auth  a b  ") = JS.lit "auth  a b" /\
  Text.join (JS.lit ", ") [JS.lit "/a"; JS.lit "/b"; JS.lit "/c"] = JS.lit "/a, /b, /c".
Proof. repeat split. Qed.

Lemma digitsLsd_small (fuel : nat) :
  forall n, Forall (fun d => (d < 10)%N) (Text.digitsLsd fuel n).
Proof.
  induction fuel as [|f IH]; intros n; cbn [Text.digitsLsd]; [constructor|].
  constructor; [apply N.mod_lt; discriminate|].
  destruct (n / 10 =? 0)%N; [constructor | apply IH].
Qed.

(** The digits, least significant first, give the number back. *)
Lemma digitsLsd_value (fuel : nat) :
  forall n, (n < 2 ^ N.of_nat fuel)%N ->
            fold_right (fun d acc => (d + 10 * acc)%N) 0%N (Text.digitsLsd fuel n) = n.
Proof.
  induction fuel as [|f IH]; intros n Hn.
  - cbn in Hn. assert (n = 0%N) as -> by lia. reflexivity.
  - cbn [Text.digitsLsd fold_right].
    pose proof (N.div_mod n 10 ltac:(discriminate)) as DM.
    destruct (N.eqb_spec (n / 10) 0) as [E | NE].
    + cbn [fold_right]. rewrite E in DM. lia.
    + rewrite IH; [lia|].
      rewrite Nat2N.inj_succ, N.pow_succ_r' in Hn.
      apply N.Div0.div_lt_upper_bound.
      assert (0 < 2 ^ N.of_nat f)%N by (apply N.neq_0_lt_0, N.pow_nonzero; discriminate).
      lia.
Qed.

Lemma log2_fuel (n : N) : (n < 2 ^ N.of_nat (S (N.to_nat (N.log2 n))))%N.
Proof.
  rewrite Nat2N.inj_succ, N2Nat.id.
  destruct (N.eq_dec n 0) as [-> | NZ]; [reflexivity|].
  apply N.log2_spec. lia.
Qed.

Lemma digitsValue_rev (ds : list N) :
  Text.digitsValue 10 (rev ds)
  = fold_right (fun d acc => (d + 10 * acc)%N) 0%N ds.
Proof.
  unfold Text.digitsValue.
  induction ds as [|d ds IH]; [reflexivity|].
  cbn [rev fold_right]. rewrite fold_left_app. cbn [fold_left].
  rewrite IH. lia.
Qed.

Lemma digit_cases (d : N) :
  (d < 10)%N ->
  d = 0%N \/ d = 1%N \/ d = 2%N \/ d = 3%N \/ d = 4%N \/
  d = 5%N \/ d = 6%N \/ d = 7%N \/ d = 8%N \/ d = 9%N.
Proof. lia. Qed.

Lemma leadingDigits_decimal (ds : list N) :
  Forall (fun d => (d < 10)%N) ds ->
  Text.leadingDigits 10 (List.map (fun d => (48 + d)%N) ds) = ds.
Proof.
  induction 1 as [|d ds Hd Hds IH]; [reflexivity|].
  cbn [List.map Text.leadingDigits]. rewrite IH.
  destruct (digit_cases d Hd) as [-> | [-> | [-> | [-> | [-> | [-> | [-> | [-> | [-> | ->]]]]]]]]];
    reflexivity.
Qed.

(** Reading a number written with decimal digits. *)
Lemma parseInt_digits (ds : list N) :
  ds <> [] -> Forall (fun d => (d < 10)%N) ds ->
  Text.parseInt (List.map (fun d => (48 + d)%N) ds)
  = Text.Int (Z.of_N (Text.digitsValue 10 ds)).
Proof.
  intros NE F. destruct ds as [|d ds]; [congruence|].
  inversion F as [|x l Hd Hds]. subst.
  pose proof (leadingDigits_decimal (d :: ds) F) as LD.
  assert (forall c t,
             (48 <= c <= 57)%N ->
             (forall u w, t = u :: w -> u <> 120%N /\ u <> 88%N) ->
             Text.parseInt (c :: t)
             = match Text.leadingDigits 10 (c :: t) with
               | [] => Text.NaN
               | e :: es => Text.Int (Z.of_N (Text.digitsValue 10 (e :: es)))
               end) as P.
  { intros c t Hc Ht. unfold Text.parseInt.
    assert (Text.isWhiteSpace c = false) as W.
    { unfold Text.isWhiteSpace.
      repeat match goal with
             | |- context [(?a <=? ?b)%N] => destruct (N.leb_spec a b); try lia
             | |- context [(?a =? ?b)%N] => destruct (N.eqb_spec a b); try lia
             end; reflexivity. }
    cbn [Text.trimStart]. rewrite W.
    assert (c = 48 \/ c = 49 \/ c = 50 \/ c = 51 \/ c = 52 \/ c = 53 \/ c = 54
            \/ c = 55 \/ c = 56 \/ c = 57)%N as Cs by lia.
    destruct Cs as [-> | [-> | [-> | [-> | [-> | [-> | [-> | [-> | [-> | ->]]]]]]]]];
      try reflexivity.
    destruct t as [|u w]; [reflexivity|].
    destruct (Ht u w eq_refl) as [N1 N2].
    destruct u as [|pu]; [reflexivity|].
    do 7 (destruct pu as [pu|pu|]; try reflexivity);
      try (exfalso; apply N1; reflexivity);
      try (exfalso; apply N2; reflexivity). }
  cbn [List.map] in *. rewrite P, LD; [reflexivity | lia |].
  intros u w E. destruct ds as [|d2 ds']; [discriminate|].
  cbn [List.map] in E. apply cons_eq_inv in E as [<- _].
  inversion Hds as [|y l2 Hd2 Hl2]. lia.
Qed.

(** Writing a number and reading it back. *)
Lemma parseInt_decimal (n : N) :
  Text.parseInt (Text.decimal n) = Text.Int (Z.of_N n).
Proof.
  unfold Text.decimal.
  set (ds := Text.digitsLsd (S (N.to_nat (N.log2 n))) n).
  rewrite parseInt_digits.
  - rewrite digitsValue_rev. unfold ds.
    rewrite (digitsLsd_value _ n (log2_fuel n)). reflexivity.
  - unfold ds. cbn [Text.digitsLsd]. intros E.
    apply (f_equal (@List.length N)) in E.
    rewrite length_rev in E. discriminate.
  - apply Forall_rev. apply digitsLsd_small.
Qed.

(* ================================================================== *)
(** * Trimming *)
(* ================================================================== *)

Lemma trimStart_length (s : jsstring) :
  (List.length (Text.trimStart s) <= List.length s)%nat.
Proof.
  induction s as [|c s IH]; cbn [Text.trimStart List.length]; [lia|].
  destruct (Text.isWhiteSpace c); cbn [List.length]; lia.
Qed.

Lemma trimEnd_length (s : jsstring) :
  (List.length (Text.trimEnd s) <= List.length s)%nat.
Proof.
  unfold Text.trimEnd. rewrite length_rev.
  pose proof (trimStart_length (rev s)) as L. rewrite length_rev in L. exact L.
Qed.

Lemma trimStart_blank (w x : jsstring) :
  Blank w -> Text.trimStart (w ++ x) = Text.trimStart x.
Proof.
  induction 1 as [|c w Hc Hw IH]; [reflexivity|].
  cbn [app Text.trimStart]. rewrite Hc. exact IH.
Qed.

Lemma trimEnd_blank (x w : jsstring) :
  Blank w -> Text.trimEnd (x ++ w) = Text.trimEnd x.
Proof.
  intros B. unfold Text.trimEnd. rewrite rev_app_distr.
  rewrite trimStart_blank; [reflexivity|]. apply Forall_rev, B.
Qed.

Lemma trimEnd_keeps (s : jsstring) (d : N) :
  Text.isWhiteSpace d = false -> Text.trimEnd (s ++ [d]) = s ++ [d].
Proof.
  intros W. unfold Text.trimEnd. rewrite rev_app_distr.
  cbn [rev app Text.trimStart]. rewrite W.
  cbn [rev]. rewrite rev_involutive. reflexivity.
Qed.

(** A text that [trim] leaves alone is empty, or begins and ends with a code
unit that is not white space. *)
Lemma trimmed_ends (v : jsstring) :
  Text.trim v = v -> v <> [] ->
  (exists c t, v = c :: t /\ Text.isWhiteSpace c = false) /\
  (exists s d, v = s ++ [d] /\ Text.isWhiteSpace d = false).
Proof.
  intros T NE. unfold Text.trim in T.
  pose proof (trimEnd_length (Text.trimStart v)) as L1.
  pose proof (trimStart_length v) as L2. rewrite T in L1.
  assert (Text.trimStart v = v) as S.
  { destruct v as [|c t]; [reflexivity|]. cbn [Text.trimStart] in *.
    destruct (Text.isWhiteSpace c); [|reflexivity].
    pose proof (trimStart_length t). cbn [List.length] in *. lia. }
  rewrite S in T. split.
  - destruct v as [|c t]; [congruence|]. exists c, t. split; [reflexivity|].
    cbn [Text.trimStart] in S. destruct (Text.isWhiteSpace c); [|reflexivity].
    pose proof (trimStart_length t) as L. rewrite S in L.
    cbn [List.length] in L. lia.
  - destruct (exists_last NE) as (s & d & E). exists s, d. split; [exact E|].
    rewrite E in T. unfold Text.trimEnd in T. rewrite rev_app_distr in T.
    cbn [rev app Text.trimStart] in T.
    destruct (Text.isWhiteSpace d); [|reflexivity].
    apply (f_equal (@List.length N)) in T.
    rewrite length_rev, length_app in T. cbn [List.length] in T.
    pose proof (trimStart_length (rev s)) as L. rewrite length_rev in L. lia.
Qed.

Lemma trim_keeps (v : jsstring) (c : N) (t s : jsstring) (d : N) :
  v = c :: t -> v = s ++ [d] ->
  Text.isWhiteSpace c = false -> Text.isWhiteSpace d = false ->
  Text.trim v = v.
Proof.
  intros E1 E2 Wc Wd. unfold Text.trim.
  assert (Text.trimStart v = v) as ->.
  { rewrite E1. cbn [Text.trimStart]. rewrite Wc. reflexivity. }
  rewrite E2. apply trimEnd_keeps, Wd.
Qed.

(** White space around a text is what [trim] removes. *)
Lemma trim_padded (w1 v w3 : jsstring) :
  Blank w1 -> Blank w3 -> Text.trim v = v ->
  Text.trim (w1 ++ v ++ w3) = v.
Proof.
  intros B1 B3 T. unfold Text.trim. rewrite trimStart_blank by exact B1.
  destruct v as [|c0 t0] eqn:V.
  - cbn [app]. rewrite <- (app_nil_r w3), trimStart_blank by exact B3.
    reflexivity.
  - rewrite <- V in *.
    destruct (trimmed_ends v T) as ((c & t & E1 & Wc) & (s & d & E2 & Wd));
      [congruence|].
    assert (Text.trimStart (v ++ w3) = v ++ w3) as ->.
    { rewrite E1. cbn [app Text.trimStart]. rewrite Wc. reflexivity. }
    rewrite trimEnd_blank by exact B3. rewrite E2. apply trimEnd_keeps, Wd.
Qed.

(** The argument of a subcommand: after [trim] the command text is the
word, the white space after it, and the argument; cutting the word off and
trimming again leaves the argument. *)
Lemma command_text (word : jsstring) (c : N) (t w1 w2 w3 v : jsstring) :
  word = c :: t -> Text.isWhiteSpace c = false ->
  Blank w1 -> Blank w2 -> Blank w3 -> Text.trim v = v -> v <> [] ->
  Text.trim (w1 ++ word ++ w2 ++ v ++ w3) = word ++ w2 ++ v /\
  Text.trim (JS.slice (word ++ w2 ++ v) (JS.length word) None) = v.
Proof.
  intros E Wc B1 B2 B3 T NE. split.
  - replace (w1 ++ word ++ w2 ++ v ++ w3) with (w1 ++ (word ++ w2 ++ v) ++ w3)
      by (rewrite <- !app_assoc; reflexivity).
    apply trim_padded; [exact B1 | exact B3 |].
    destruct (trimmed_ends v T NE) as (_ & (s & d & E2 & Wd)).
    apply (trim_keeps (word ++ w2 ++ v) c (t ++ w2 ++ v) (word ++ w2 ++ s) d);
      [rewrite E; reflexivity | rewrite E2, <- !app_assoc; reflexivity
       | exact Wc | exact Wd].
  - rewrite (@slice_after word (w2 ++ v)).
    rewrite <- (app_nil_r v) at 1.
    apply trim_padded; [exact B2 | constructor | exact T].
Qed.

(* ================================================================== *)
(** * The /web command and the session events *)
(* ================================================================== *)

Lemma hasColon_iff (v : jsstring) : hasColon v = true <-> In colon v.
Proof.
  unfold hasColon. rewrite existsb_exists. split.
  - intros (x & I & E). apply N.eqb_eq in E. subst x. exact I.
  - intros I. exists colon. split; [exact I | apply N.eqb_refl].
Qed.

(** [indexOf(":")] and the two slices, on a text with and without a
colon. *)
Lemma credential_split (v : jsstring) :
  (hasColon v = true /\ (JS.indexOf v (JS.lit ":") =? -1)%Z = false /\
   exists u r, v = u ++ colon :: r /\ ~ In colon u /\
               JS.slice v 0 (Some (JS.indexOf v (JS.lit ":"))) = u /\
               JS.slice v (JS.indexOf v (JS.lit ":") + 1) None = r) \/
  (hasColon v = false /\ (JS.indexOf v (JS.lit ":") =? -1)%Z = true).
Proof.
  destruct (hasColon v) eqn:H.
  - left. apply hasColon_iff in H.
    destruct (@first_occurrence colon v H) as (u & r & E & Nu).
    pose proof (@split_at_colon u r Nu) as P. cbv zeta in P.
    rewrite <- E in P. destruct P as (K & S1 & S2).
    split; [reflexivity|]. split; [exact K|].
    exists u, r. repeat split; assumption.
  - right. split; [reflexivity|].
    assert (~ In colon v) as NI.
    { intros I. apply hasColon_iff in I. congruence. }
    unfold JS.indexOf. change (JS.lit ":") with [colon].
    rewrite (@indexOfFrom_absent colon v 0%Z NI). reflexivity.
Qed.

Section ExtensionUse.

Variable RouteHandler : Type.

Implicit Types st : State RouteHandler.

Lemma accepts_only (decode : jsstring -> jsstring) st (creds : Credentials) :
  authCredentials st = Some creds -> ~ In colon (username creds) ->
  AcceptsOnly decode st (username creds ++ colon :: password creds).
Proof.
  intros A NI req. unfold SessionPasses, ValidBasic. split.
  - intros [N | (c & E & enc & H1 & H2 & _)]; [congruence|].
    assert (c = creds) as -> by congruence. exists enc. split; assumption.
  - intros (enc & H1 & H2). right. exists creds. split; [exact A|].
    exists enc. repeat split; assumption.
Qed.

(** What [setAuth] stores for a credential text, in the two ways the
extension calls it. *)
Lemma credential_stored (v : jsstring) st :
  let k := JS.indexOf v (JS.lit ":") in
  let st' :=
    if negb (k =? -1)%Z
    then setAuth (Some (mkAuthConfig (Some (JS.slice v 0 (Some k)))
                                     (JS.slice v (k + 1) None))) st
    else setAuth (Some (mkAuthConfig None v)) st in
  exists creds,
    st' = mkState (server st) (serverPort st) (mounts st) (Some creds)
                  (apiToken st) (apiReadToken st) (sockets st) /\
    username creds = (if negb (k =? -1)%Z then JS.slice v 0 (Some k)
                      else JS.lit "pi") /\
    username creds ++ colon :: password creds = credentialText v /\
    ~ In colon (username creds).
Proof.
  cbv zeta. unfold credentialText.
  destruct (credential_split v) as [(C & K & u & r & E & Nu & S1 & S2) | (C & K)];
    rewrite K, C; cbn [negb].
  - rewrite S1, S2. exists (mkCredentials u r). unfold setAuth.
    cbn [cfgUsername cfgPassword JS.orElse username password].
    repeat split; [symmetry; exact E | exact Nu].
  - exists (mkCredentials (JS.lit "pi") v). unfold setAuth.
    cbn [cfgUsername cfgPassword JS.orElse username password].
    repeat split. intros I. cbn in I. unfold colon in I.
    destruct I as [I | [I | []]]; discriminate.
Qed.

(** X16. The text after /web auth is the credential: whatever blanks
surround the words, the command stores the text before the first colon as
the user and the rest as the password, or the user pi and the whole text
when there is no colon; from then on the session gate lets a request pass
exactly when its Basic value decodes to that text (with pi: put before a
text that has no colon). It reports the user and touches nothing else. The
texts status and off cannot be given as passwords. *)
Theorem auth_command_sets_credential
        (dashboard : Exc jsstring) (w1 w2 w3 v : jsstring) st :
  Blank w1 -> Blank w2 -> Blank w3 ->
  Text.trim v = v -> v <> [] -> v <> JS.lit "status" -> v <> JS.lit "off" ->
  let r := webCommand dashboard
                      (Some (w1 ++ JS.lit "auth " ++ w2 ++ v ++ w3)) st in
  exists creds,
    authCredentials (stateOf r) = Some creds /\
    username creds ++ colon :: password creds = credentialText v /\
    (forall decode, AcceptsOnly decode (stateOf r) (credentialText v)) /\
    getAuth (stateOf r) = AuthEnabled (username creds) /\
    notesOf r = [info (JS.lit "Auth enabled (user: " ++ username creds
                              ++ JS.lit ")")] /\
    errorOf r = None /\
    mounts (stateOf r) = mounts st /\
    apiToken (stateOf r) = apiToken st /\
    apiReadToken (stateOf r) = apiReadToken st /\
    SameLifeCycle (stateOf r) st.
Proof.
  intros B1 B2 B3 T NE NS NO r.
  destruct (command_text (JS.lit "auth ") 97%N (JS.lit "uth ") w1 w2 w3 v
                         eq_refl eq_refl B1 B2 B3 T NE) as (A1 & A2).
  assert (isEmpty v = false) as E1 by (destruct v; [congruence | reflexivity]).
  apply eqb_neq in NS, NO.
  destruct (credential_stored v st) as (creds & St & U & Tx & NI).
  cbv zeta in St, U.
  assert (r = (mkState (server st) (serverPort st) (mounts st) (Some creds)
                       (apiToken st) (apiReadToken st) (sockets st),
               [info (JS.lit "Auth enabled (user: " ++ username creds
                             ++ JS.lit ")")], None)) as R.
  { unfold r, webCommand. rewrite A1.
    replace (JS.eqb (JS.lit "auth " ++ w2 ++ v) (JS.lit "stop")) with false
      by reflexivity.
    rewrite (@startsWith_app (JS.lit "auth ") (w2 ++ v)), orb_true_r.
    cbv zeta. change 5%Z with (JS.length (JS.lit "auth ")).
    rewrite A2, E1, NS, NO. cbn [orb].
    rewrite U. destruct (negb (JS.indexOf v (JS.lit ":") =? -1)%Z);
      unfold finish; rewrite St; reflexivity. }
  exists creds. rewrite R. unfold stateOf, notesOf, errorOf.
  cbn [fst snd authCredentials mounts apiToken apiReadToken].
  split; [reflexivity|]. split; [exact Tx|]. split.
  { intros decode. rewrite <- Tx. apply accepts_only; [reflexivity | exact NI]. }
  repeat split.
Qed.

(** X17. The text after /web api is the token, except that off removes it:
after the command the status shows the token as enabled exactly when one
was given, a request that carries the text as its bearer value passes the
token gate and a request without an Authorization header gets the 401;
after off, with no read token, every request passes. Nothing else
changes. The texts status and off cannot be given as tokens. *)
Theorem api_command_sets_token
        (dashboard : Exc jsstring) (w1 w2 w3 v : jsstring) st :
  Blank w1 -> Blank w2 -> Blank w3 ->
  Text.trim v = v -> v <> [] -> v <> JS.lit "status" ->
  let r := webCommand dashboard
                      (Some (w1 ++ JS.lit "api " ++ w2 ++ v ++ w3)) st in
  apiToken (stateOf r)
  = (if JS.eqb v (JS.lit "off") then None else Some v) /\
  enabled (getApiTokenStatus (stateOf r)) = negb (JS.eqb v (JS.lit "off")) /\
  (v <> JS.lit "off" ->
   forall (req : Request) (res : ServerResponse),
     (authorization req = Some (JS.lit "Bearer " ++ v) ->
      checkApiAuth (stateOf r) req res = Ok (true, res)) /\
     (authorization req = None ->
      checkApiAuth (stateOf r) req res = Ok (false, invalidToken res))) /\
  (v = JS.lit "off" -> ~ Configured (apiReadToken st) ->
   forall (req : Request) (res : ServerResponse),
     checkApiAuth (stateOf r) req res = Ok (true, res)) /\
  (exists n, notesOf r = [n]) /\ errorOf r = None /\
  mounts (stateOf r) = mounts st /\
  authCredentials (stateOf r) = authCredentials st /\
  apiReadToken (stateOf r) = apiReadToken st /\
  SameLifeCycle (stateOf r) st.
Proof.
  intros B1 B2 B3 T NE NS r.
  destruct (command_text (JS.lit "api ") 97%N (JS.lit "pi ") w1 w2 w3 v
                         eq_refl eq_refl B1 B2 B3 T NE) as (A1 & A2).
  assert (isEmpty v = false) as E1 by (destruct v; [congruence | reflexivity]).
  apply eqb_neq in NS.
  assert (exists n,
             r = (setApiToken (if JS.eqb v (JS.lit "off") then None else Some v)
                              st, [n], None)) as (n & R).
  { unfold r, webCommand. rewrite A1.
    replace (JS.eqb (JS.lit "api " ++ w2 ++ v) (JS.lit "stop")) with false
      by reflexivity.
    replace (JS.eqb (JS.lit "api " ++ w2 ++ v) (JS.lit "auth")) with false
      by reflexivity.
    replace (JS.startsWith (JS.lit "api " ++ w2 ++ v) (JS.lit "auth "))
      with false by reflexivity.
    rewrite (@startsWith_app (JS.lit "api ") (w2 ++ v)), orb_true_r.
    cbv zeta. change 4%Z with (JS.length (JS.lit "api ")).
    rewrite A2, E1, NS. cbn [orb].
    destruct (JS.eqb v (JS.lit "off")); eexists; reflexivity. }
  rewrite R. unfold stateOf, notesOf, errorOf, getApiTokenStatus.
  cbn [fst snd setApiToken apiToken apiReadToken mounts authCredentials enabled].
  split; [reflexivity|]. split; [destruct (JS.eqb v (JS.lit "off")); reflexivity|].
  split.
  { intros NO req res. apply eqb_neq in NO. rewrite NO.
    assert (Configured (Some v)) as C by (exists v; split; [reflexivity | exact NE]).
    split; intros H.
    - apply checkApiAuth_full; cbn [apiToken apiReadToken]; [left; exact C|].
      exists v, v. repeat split; assumption.
    - apply checkApiAuth_invalid; cbn [apiToken apiReadToken];
        [left; exact C | |]; intros (b & t & H' & _); congruence. }
  split.
  { intros O NR req res. apply eqb_eq in O. rewrite O.
    apply checkApiAuth_open; cbn [apiToken apiReadToken]; [|exact NR].
    intros (s & H & _). discriminate. }
  split; [exists n; reflexivity|]. repeat split.
Qed.

(** X18. A user name with a colon locks everyone out. [setAuth] stores the
name as it is given, and the gate takes the user of a request from before
the first colon of the decoded credential: no request passes the session
gate, and every request outside the API namespace other than a preflight
gets the 401, whatever credential it carries. *)
Theorem colon_in_username_locks_out
        (decode : jsstring -> jsstring) st (config : AuthConfig)
        (user : jsstring) :
  cfgUsername config = Some user -> In colon user ->
  forall (srv : HttpServer) (req : Request),
    ~ SessionPasses decode (setAuth (Some config) st) req /\
    (method req <> JS.lit "OPTIONS" -> isApiPath (pathname req) = false ->
     handleRequest decode (setAuth (Some config) st) srv req
     = Finished (unauthorized corsResponse)).
Proof.
  intros U I srv req.
  assert (~ SessionPasses decode (setAuth (Some config) st) req) as NP.
  { unfold SessionPasses, setAuth, ValidBasic. cbn [authCredentials].
    rewrite U. cbn [JS.orElse].
    intros [H | (c & H & enc & _ & _ & NI)]; [discriminate|].
    injection H as <-. apply NI. exact I. }
  split; [exact NP|]. intros M A.
  rewrite (handleRequest_general RouteHandler decode _ srv req M A).
  rewrite <- (checkAuth_passes RouteHandler decode _ req corsResponse) in NP.
  destruct (fst (checkAuth decode (setAuth (Some config) st) req corsResponse));
    [exfalso; apply NP; reflexivity | reflexivity].
Qed.

(** ** The extension as a caller of the module *)

Lemma performAll_app (a b : list (Call RouteHandler)) st :
  performAll (a ++ b) st = performAll b (performAll a st).
Proof. unfold performAll. apply fold_left_app. Qed.

Lemma startAndNotify_state (dashboard : Exc jsstring) (port : Z) st
      (message : Url -> State RouteHandler -> jsstring) :
  stateOf (startAndNotify dashboard port st message)
  = snd (start dashboard (Some port) st).
Proof.
  unfold startAndNotify, stateOf.
  destruct (start dashboard (Some port) st) as [[url|e] st']; reflexivity.
Qed.

(** Whatever the command text is, the handler changes the state by calls of
the module, at most two of them. *)
Lemma webCommand_calls (dashboard : Exc jsstring) (args : option jsstring) st :
  exists calls,
    Forall (@fromExtension RouteHandler) calls /\
    stateOf (webCommand dashboard args st) = performAll calls st.
Proof.
  unfold webCommand.
  set (arg := match args with Some a => Text.trim a | None => [] end).
  destruct (JS.eqb arg (JS.lit "stop")).
  { exists [@CallStop RouteHandler]. split; [repeat constructor | reflexivity]. }
  destruct (JS.eqb arg (JS.lit "auth") || JS.startsWith arg (JS.lit "auth ")).
  { cbv zeta. set (authArg := Text.trim (JS.slice arg 5 None)).
    destruct (isEmpty authArg || JS.eqb authArg (JS.lit "status")).
    { exists []. split; [constructor | reflexivity]. }
    destruct (JS.eqb authArg (JS.lit "off")).
    { exists [CallSetAuth None]. split; [repeat constructor | reflexivity]. }
    destruct (credential_split authArg)
      as [(C & K & u & r & E & Nu & S1 & S2) | (C & K)]; rewrite K; cbn [negb].
    - eexists [CallSetAuth (Some _)]. split; [|reflexivity].
      constructor; [|constructor]. cbn [fromExtension cfgUsername].
      rewrite S1. exact Nu.
    - eexists [CallSetAuth (Some _)]. split; [|reflexivity].
      repeat constructor. }
  destruct (JS.eqb arg (JS.lit "api") || JS.startsWith arg (JS.lit "api ")).
  { cbv zeta. set (apiArg := Text.trim (JS.slice arg 4 None)).
    destruct (isEmpty apiArg || JS.eqb apiArg (JS.lit "status")) eqn:E.
    { exists []. split; [constructor | reflexivity]. }
    destruct (JS.eqb apiArg (JS.lit "off")).
    { exists [CallSetApiToken None]. split; [repeat constructor | reflexivity]. }
    exists [CallSetApiToken (Some apiArg)]. split; [|reflexivity].
    constructor; [|constructor]. cbn [fromExtension].
    destruct apiArg; [discriminate E | exact I]. }
  destruct (JS.eqb arg (JS.lit "port") || JS.startsWith arg (JS.lit "port ")).
  { cbv zeta. set (portArg := Text.trim (JS.slice arg 5 None)).
    destruct (isEmpty portArg). { exists []. split; [constructor | reflexivity]. }
    destruct (Text.isNaN (Text.parseInt portArg)
              || Text.below (Text.parseInt portArg) 1
              || Text.above (Text.parseInt portArg) 65535).
    { exists []. split; [constructor | reflexivity]. }
    destruct (Text.parseInt portArg) as [|p].
    { exists []. split; [constructor | reflexivity]. }
    exists [CallStart dashboard (Some p)]. split; [repeat constructor|].
    apply startAndNotify_state. }
  destruct (JS.eqb arg (JS.lit "status")).
  { exists []. split; [constructor|]. destruct (negb (isRunning st)); reflexivity. }
  cbv zeta. destruct (fst (stop st) && isEmpty arg).
  { exists [@CallStop RouteHandler]. split; [repeat constructor | reflexivity]. }
  eexists [@CallStop RouteHandler ; CallStart dashboard (Some _)].
  split; [repeat constructor|]. apply startAndNotify_state.
Qed.

Lemma sessionStart_calls (envAuth envApiToken : option jsstring) st :
  exists calls,
    Forall (@fromExtension RouteHandler) calls /\
    fst (sessionStart envAuth envApiToken st) = performAll calls st.
Proof.
  unfold sessionStart. cbv zeta. cbn [fst snd].
  assert (exists a,
             Forall (@fromExtension RouteHandler) a /\
             fst (if JS.truthy envAuth
                  then
                    (if negb (JS.indexOf (JS.orElse envAuth []) (JS.lit ":") =? -1)%Z
                     then setAuth (Some (mkAuthConfig
                        (Some (JS.slice (JS.orElse envAuth []) 0
                           (Some (JS.indexOf (JS.orElse envAuth []) (JS.lit ":")))))
                        (JS.slice (JS.orElse envAuth [])
                           (JS.indexOf (JS.orElse envAuth []) (JS.lit ":") + 1) None))) st
                     else setAuth (Some (mkAuthConfig None (JS.orElse envAuth []))) st,
                     [Notify (info (JS.lit "Web server auth configured from PI_WEB_AUTH"))])
                  else (st, []))
             = performAll a st) as (a & Fa & Ea).
  { destruct (JS.truthy envAuth); cbn [fst].
    - destruct (credential_split (JS.orElse envAuth []))
        as [(C & K & u & r & E & Nu & S1 & S2) | (C & K)]; rewrite K; cbn [negb].
      + eexists [CallSetAuth (Some _)]. split; [|reflexivity].
        constructor; [|constructor]. cbn [fromExtension cfgUsername].
        rewrite S1. exact Nu.
      + eexists [CallSetAuth (Some _)]. split; [|reflexivity].
        repeat constructor.
    - exists []. split; [constructor | reflexivity]. }
  rewrite Ea. destruct (JS.truthy envApiToken) eqn:T; cbn [fst].
  - exists (a ++ [CallSetApiToken envApiToken]). rewrite performAll_app.
    split; [|reflexivity]. apply Forall_app. split; [exact Fa|].
    constructor; [|constructor].
    destruct envApiToken as [[|x t]|]; try discriminate T. exact I.
  - exists a. split; [exact Fa | reflexivity].
Qed.

Lemma handleEvent_calls st (e : ExtensionEvent RouteHandler) :
  exists calls,
    Forall (@fromExtension RouteHandler) calls /\
    handleEvent st e = performAll calls st.
Proof.
  destruct e as [c | n | c | n | d a | ea et |]; cbn [handleEvent].
  - exists [CallMount c]. split; [repeat constructor | reflexivity].
  - exists [CallUnmount n]. split; [repeat constructor | reflexivity].
  - exists [CallMountApi c]. split; [repeat constructor | reflexivity].
  - exists [CallUnmountApi n]. split; [repeat constructor | reflexivity].
  - apply webCommand_calls.
  - apply sessionStart_calls.
  - exists [@CallStop RouteHandler]. split; [repeat constructor | reflexivity].
Qed.

Lemma handleEvents_calls (events : list (ExtensionEvent RouteHandler)) :
  forall st, exists calls,
    Forall (@fromExtension RouteHandler) calls /\
    handleEvents events st = performAll calls st.
Proof.
  induction events as [|e events IH]; intros st.
  - exists []. split; [constructor | reflexivity].
  - cbn [handleEvents fold_left].
    destruct (handleEvent_calls st e) as (a & Fa & Ea).
    destruct (IH (handleEvent st e)) as (b & Fb & Eb).
    exists (a ++ b). split; [apply Forall_app; split; assumption|].
    rewrite performAll_app, <- Ea. exact Eb.
Qed.

Lemma perform_secrets st (c : Call RouteHandler) :
  fromExtension c -> ExtensionSecrets st -> ExtensionSecrets (perform st c).
Proof.
  intros F (R & T & A).
  destruct c as [m | n | m | n | config | token | token | d p |]; cbn [perform].
  - split; [exact R|]. split; [exact T | exact A].
  - split; [exact R|]. split; [exact T | exact A].
  - split; [exact R|]. split; [exact T | exact A].
  - split; [exact R|]. split; [exact T | exact A].
  - split; [exact R|]. split; [exact T|].
    unfold setAuth. cbn [authCredentials]. intros creds H.
    destruct config as [config|]; [|discriminate].
    injection H as <-. cbn [username fromExtension] in *.
    destruct (cfgUsername config) as [user|]; cbn [JS.orElse]; [exact F|].
    intros I. cbn in I. unfold colon in I.
    destruct I as [I | [I | []]]; discriminate.
  - split; [exact R|]. split; [|exact A].
    unfold setApiToken. cbn [apiToken]. intros H. rewrite H in F. exact F.
  - destruct F.
  - destruct (perform_lifecycle_only RouteHandler st (CallStart d p) eq_refl)
      as (_ & A' & T' & R').
    cbn [perform] in *. unfold ExtensionSecrets. rewrite A', T', R'.
    split; [exact R|]. split; [exact T | exact A].
  - destruct (perform_lifecycle_only RouteHandler st (@CallStop RouteHandler) eq_refl)
      as (_ & A' & T' & R').
    cbn [perform] in *. unfold ExtensionSecrets. rewrite A', T', R'.
    split; [exact R|]. split; [exact T | exact A].
Qed.

Lemma performAll_secrets (calls : list (Call RouteHandler)) :
  Forall (@fromExtension RouteHandler) calls ->
  forall st, ExtensionSecrets st -> ExtensionSecrets (performAll calls st).
Proof.
  induction 1 as [|c calls Fc Fcs IH]; intros st S; [exact S|].
  cbn [performAll fold_left]. apply IH, perform_secrets; assumption.
Qed.

(** X19. Through the extension the status never misleads. Whatever events
arrive (bus events, commands with any text, session events with any
environment), the state is one that calls of the module produce, the read
token is never set, and the token is never the empty string: so the status
shows the token as enabled exactly when the gate is closed, a request
without an Authorization header being refused then and every request
passing otherwise. And the stored user name never holds a colon: whenever
session credentials are set there is a credential that passes, the user
name, a colon and the password. *)
Theorem extension_keeps_status_honest
        (events : list (ExtensionEvent RouteHandler)) :
  let st := handleEvents events initialState in
  reachable st /\
  apiReadToken st = None /\
  (enabled (getApiTokenStatus st) = true <-> Configured (apiToken st)) /\
  (enabled (getApiTokenStatus st) = false ->
   forall (req : Request) (res : ServerResponse),
     checkApiAuth st req res = Ok (true, res)) /\
  (enabled (getApiTokenStatus st) = true ->
   forall (req : Request) (res : ServerResponse),
     authorization req = None ->
     checkApiAuth st req res = Ok (false, invalidToken res)) /\
  (forall creds,
      authCredentials st = Some creds ->
      forall decode,
        AcceptsOnly decode st (username creds ++ colon :: password creds)).
Proof.
  cbv zeta.
  destruct (handleEvents_calls events initialState) as (calls & F & E).
  rewrite E.
  assert (ExtensionSecrets (performAll calls (@initialState RouteHandler)))
    as (R & T & A).
  { apply performAll_secrets; [exact F|].
    split; [reflexivity|]. split; [discriminate|]. intros creds H. discriminate. }
  set (st := performAll calls initialState) in *.
  assert (enabled (getApiTokenStatus st) = true <-> Configured (apiToken st)) as S.
  { unfold getApiTokenStatus, Configured. cbn [enabled].
    destruct (apiToken st) as [[|x t]|]; cbn [notNull].
    - congruence.
    - split; [intros _; eexists; split; [reflexivity | discriminate] | reflexivity].
    - split; [discriminate | intros (s & H & _); discriminate]. }
  split; [exists calls; reflexivity|]. split; [exact R|]. split; [exact S|].
  split; [|split].
  - intros D req res. apply checkApiAuth_open.
    + intros C. apply S in C. congruence.
    + rewrite R. intros (s & H & _). discriminate.
  - intros En req res H. apply checkApiAuth_invalid.
    + left. apply S, En.
    + intros (b & t & H' & _). congruence.
    + intros (b & t & H' & _). congruence.
  - intros creds H decode. apply accepts_only; [exact H | apply A, H].
Qed.

(** ** Ports *)

Lemma start_after_stop (dashboard : Exc jsstring) (port : option Z) st :
  start dashboard port (snd (stop st)) = start dashboard port st.
Proof.
  unfold start, isRunning, stop. destruct (server st) eqn:S; cbn [snd server].
  - reflexivity.
  - rewrite S. reflexivity.
Qed.

Lemma stop_running st :
  fst (stop st) = isRunning st /\ isRunning (snd (stop st)) = false.
Proof.
  unfold stop, isRunning. destruct (server st) eqn:S; cbn [fst snd server];
    [split; reflexivity | rewrite S; split; reflexivity].
Qed.

Lemma stop_configuration st : SameConfiguration (snd (stop st)) st.
Proof.
  unfold stop, SameConfiguration. destruct (server st); cbn [snd];
    repeat split.
Qed.

Lemma start_configuration (dashboard : Exc jsstring) (port : option Z) st :
  SameConfiguration (snd (start dashboard port st)) st.
Proof.
  destruct (perform_lifecycle_only RouteHandler st (CallStart dashboard port) eq_refl)
    as (M & A & T & R).
  split; [exact M|]. split; [exact A|]. split; [exact T | exact R].
Qed.

(** X20. /web port restarts the server on the port that [parseInt] reads
from the text, when that is a number from 1 to 65535: the server then
listens on it, whatever it did before, and the message names the port and
the URL. Any other text (no number at its start, 0, a negative number, a
number above 65535) changes nothing and gives one notification of level
error. When the dashboard file cannot be read, a valid port still stops
the running server, and the handler ends with the exception and without a
notification. Mounts, credentials and tokens stay as they are. *)
Theorem port_command_restarts
        (dashboard : Exc jsstring) (w1 w2 w3 v : jsstring) st :
  Blank w1 -> Blank w2 -> Blank w3 -> Text.trim v = v -> v <> [] ->
  let r := webCommand dashboard
                      (Some (w1 ++ JS.lit "port " ++ w2 ++ v ++ w3)) st in
  (forall p,
      Text.parseInt v = Text.Int p -> (1 <= p <= 65535)%Z ->
      (forall html,
          dashboard = Ok html ->
          server (stateOf r) = Some (mkHttpServer p html) /\
          getPort (stateOf r) = Some p /\
          sockets (stateOf r) = sockets (snd (stop st)) ++ [Listen p] /\
          notesOf r
          = [info (JS.lit "Web server restarted on port "
                          ++ Text.decimal (Z.to_N p)
                          ++ JS.lit ": http://localhost:"
                          ++ Text.decimal (Z.to_N p))] /\
          errorOf r = None) /\
      (forall e, dashboard = Throw e -> r = (snd (stop st), [], Some e)))
  /\
  ((Text.parseInt v = Text.NaN \/
    exists p, Text.parseInt v = Text.Int p /\ (p < 1 \/ 65535 < p)%Z) ->
   r = (st, [mkNotification (JS.lit "Invalid port number (must be 1" ++ enDash
                                    ++ JS.lit "65535)")
                            (JS.lit "error")], None))
  /\
  SameConfiguration (stateOf r) st.
Proof.
  intros B1 B2 B3 T NE r.
  destruct (command_text (JS.lit "port ") 112%N (JS.lit "ort ") w1 w2 w3 v
                         eq_refl eq_refl B1 B2 B3 T NE) as (A1 & A2).
  assert (isEmpty v = false) as E1 by (destruct v; [congruence | reflexivity]).
  assert (r = if Text.isNaN (Text.parseInt v) || Text.below (Text.parseInt v) 1
                 || Text.above (Text.parseInt v) 65535
              then finish st
                     (mkNotification
                        (JS.lit "Invalid port number (must be 1" ++ enDash
                                ++ JS.lit "65535)") (JS.lit "error"))
              else match Text.parseInt v with
                   | Text.Int p =>
                       startAndNotify dashboard p st
                         (fun url _ =>
                            JS.lit "Web server restarted on port "
                                   ++ Text.decimal (Z.to_N p) ++ JS.lit ": "
                                   ++ urlText url)
                   | Text.NaN => (st, [], None)
                   end) as R.
  { unfold r, webCommand. rewrite A1.
    replace (JS.eqb (JS.lit "port " ++ w2 ++ v) (JS.lit "stop")) with false
      by reflexivity.
    replace (JS.eqb (JS.lit "port " ++ w2 ++ v) (JS.lit "auth")) with false
      by reflexivity.
    replace (JS.startsWith (JS.lit "port " ++ w2 ++ v) (JS.lit "auth "))
      with false by reflexivity.
    replace (JS.eqb (JS.lit "port " ++ w2 ++ v) (JS.lit "api")) with false
      by reflexivity.
    replace (JS.startsWith (JS.lit "port " ++ w2 ++ v) (JS.lit "api "))
      with false by reflexivity.
    rewrite (@startsWith_app (JS.lit "port ") (w2 ++ v)), orb_true_r.
    cbv zeta. change 5%Z with (JS.length (JS.lit "port ")).
    rewrite A2, E1. reflexivity. }
  split; [|split].
  - intros p P Range.
    assert (r = startAndNotify dashboard p st
                  (fun url _ =>
                     JS.lit "Web server restarted on port "
                            ++ Text.decimal (Z.to_N p) ++ JS.lit ": "
                            ++ urlText url)) as R'.
    { rewrite R, P. cbn [Text.isNaN Text.below Text.above orb].
      destruct (Z.ltb_spec p 1); [lia|].
      destruct (p >? 65535)%Z eqn:G; [apply Z.gtb_lt in G; lia|]. reflexivity. }
    assert (validPort p = true) as V.
    { unfold validPort. apply andb_true_iff. split; apply Z.leb_le; lia. }
    assert ((if isRunning st then snd (stop st) else st) = snd (stop st)) as St.
    { unfold isRunning, stop. destruct (server st); reflexivity. }
    split.
    + intros html ->. rewrite R'. unfold startAndNotify, start.
      rewrite St, V. unfold finish, stateOf, notesOf, errorOf, getPort.
      cbn [fst snd server serverPort sockets urlText]. repeat split.
    + intros e ->. rewrite R'. unfold startAndNotify, start.
      rewrite St. reflexivity.
  - intros Bad. rewrite R.
    destruct Bad as [-> | (p & -> & Out)]; [reflexivity|].
    cbn [Text.isNaN Text.below Text.above orb].
    destruct (Z.ltb_spec p 1); [reflexivity|].
    destruct (p >? 65535)%Z eqn:G; [reflexivity|].
    assert (~ (p > 65535)%Z) by (intros H'; apply Z.gtb_gt in H'; congruence).
    lia.
  - rewrite R.
    destruct (Text.isNaN (Text.parseInt v) || Text.below (Text.parseInt v) 1
              || Text.above (Text.parseInt v) 65535);
      [repeat split|].
    destruct (Text.parseInt v) as [|p]; [repeat split|].
    rewrite startAndNotify_state. apply start_configuration.
Qed.

Lemma digit_not_blank (c : N) :
  (48 <= c <= 57)%N -> Text.isWhiteSpace c = false.
Proof.
  intros H. unfold Text.isWhiteSpace.
  repeat match goal with
         | |- context [(?a <=? ?b)%N] => destruct (N.leb_spec a b); try lia
         | |- context [(?a =? ?b)%N] => destruct (N.eqb_spec a b); try lia
         end; reflexivity.
Qed.

Lemma decimal_digits (n : N) :
  Text.decimal n <> [] /\ Forall (fun c => (48 <= c <= 57)%N) (Text.decimal n).
Proof.
  unfold Text.decimal. split.
  - intros E. apply (f_equal (@List.length N)) in E.
    rewrite length_map, length_rev in E. cbn [Text.digitsLsd List.length] in E.
    discriminate.
  - apply Forall_map, Forall_rev.
    apply (Forall_impl _ (P := fun d => (d < 10)%N)); [intros d; lia|].
    apply digitsLsd_small.
Qed.

Lemma trim_digits (v : jsstring) :
  Forall (fun c => (48 <= c <= 57)%N) v -> Text.trim v = v.
Proof.
  intros F. destruct v as [|c t] eqn:V; [reflexivity|]. rewrite <- V in *.
  assert (v <> []) as NE by congruence.
  destruct (exists_last NE) as (s & d & E).
  apply (trim_keeps v c t s d V E); apply digit_not_blank.
  - rewrite V in F. inversion F; assumption.
  - rewrite E in F. apply Forall_app in F as [_ F]. inversion F; assumption.
Qed.

(** A text that begins with a digit is none of the words of the command. *)
Lemma digit_is_no_word (c : N) (t : jsstring) :
  (48 <= c <= 57)%N ->
  forall (word : jsstring) (h : N) (r : jsstring),
    word = h :: r -> (97 <= h)%N ->
    JS.eqb (c :: t) word = false /\
    JS.startsWith (c :: t) word = false.
Proof.
  intros D word h r -> H.
  assert ((c =? h)%N = false) as E by (apply N.eqb_neq; lia).
  assert ((h =? c)%N = false) as E' by (apply N.eqb_neq; lia).
  cbn [JS.eqb JS.startsWith]. rewrite ?E, ?E'. split; reflexivity.
Qed.

(** X21. The bare /web toggles and /web with a number restarts. Without
text (none, or blanks only) the command stops a running server and says
so, and starts a stopped one on port 4100. With the decimal digits of a
number (below 2^53, where the numbers of the runtime are exact) it always
ends with a fresh start on that port, on 4100 for the
number 0, whether or not a server was running. A number above 65535
therefore stops a running server and then fails: the handler ends with the
exception of [listen] and without a notification, no socket is listening
and no port is recorded (in a state where a port is recorded only for a
running server, as in every reachable state), while [isRunning] answers
true. *)
Theorem toggle_command
        (dashboard : Exc jsstring) (w1 w3 : jsstring) (n : N) st :
  Blank w1 -> Blank w3 -> (n < 2 ^ 53)%N ->
  let bare := webCommand dashboard (Some (w1 ++ w3)) st in
  let numbered := webCommand dashboard (Some (w1 ++ Text.decimal n ++ w3)) st in
  let port := if (n =? 0)%N then 4100%Z else Z.of_N n in
  webCommand dashboard None st = bare /\
  (isRunning st = true ->
   bare = (snd (stop st), [info (JS.lit "Web server stopped")], None)) /\
  (isRunning st = false ->
   bare = startAndNotify dashboard 4100 st (@startedMessage RouteHandler)) /\
  stateOf numbered = snd (start dashboard (Some port) st) /\
  (forall html,
      dashboard = Ok html -> (n <= 65535)%N ->
      isRunning (stateOf numbered) = true /\
      getPort (stateOf numbered) = Some port /\
      sockets (stateOf numbered) = sockets (snd (stop st)) ++ [Listen port] /\
      notesOf numbered
      = [info (startedMessage (Localhost port) (stateOf numbered))] /\
      errorOf numbered = None) /\
  (forall html,
      dashboard = Ok html -> (65535 < n)%N -> PortOnlyWhenRunning st ->
      notesOf numbered = [] /\
      errorOf numbered = Some (mkError (JS.lit "ERR_SOCKET_BAD_PORT")) /\
      isRunning (stateOf numbered) = true /\
      getPort (stateOf numbered) = None /\
      sockets (stateOf numbered) = sockets (snd (stop st))).
Proof.
  intros B1 B3 _ bare numbered port.
  assert (Text.trim (w1 ++ w3) = []) as TB.
  { apply (trim_padded w1 [] w3 B1 B3 eq_refl). }
  assert (forall a, Text.trim a = [] ->
                    webCommand dashboard (Some a) st
                    = if fst (stop st) && true
                      then finish (snd (stop st)) (info (JS.lit "Web server stopped"))
                      else startAndNotify dashboard 4100 (snd (stop st))
                                          (@startedMessage RouteHandler)) as Bare.
  { intros a Ta. unfold webCommand. rewrite Ta. reflexivity. }
  destruct (stop_running st) as (WR & _).
  assert (snd (stop st) = st \/ isRunning st = true) as Idle.
  { unfold stop, isRunning. destruct (server st); [right | left]; reflexivity. }
  split; [|split; [|split]].
  - unfold bare. rewrite (Bare _ TB). reflexivity.
  - intros Run. unfold bare. rewrite (Bare _ TB), WR, Run. reflexivity.
  - intros Off. unfold bare. rewrite (Bare _ TB), WR, Off. cbn [andb].
    destruct Idle as [-> | Run]; [reflexivity | congruence].
  - destruct (decimal_digits n) as (NE & D).
    pose proof (trim_digits _ D) as TD.
    pose proof (trim_padded w1 (Text.decimal n) w3 B1 B3 TD) as TN.
    destruct (Text.decimal n) as [|c t] eqn:Dec; [congruence|].
    assert (48 <= c <= 57)%N as Dc by (inversion D; assumption).
    assert (numbered
            = startAndNotify dashboard port (snd (stop st))
                             (@startedMessage RouteHandler)) as R.
    { unfold numbered, webCommand. rewrite TN.
      destruct (digit_is_no_word c t Dc (JS.lit "stop") 115%N (JS.lit "top") eq_refl ltac:(lia)) as (-> & _).
      destruct (digit_is_no_word c t Dc (JS.lit "auth") 97%N (JS.lit "uth") eq_refl ltac:(lia)) as (-> & _).
      destruct (digit_is_no_word c t Dc (JS.lit "auth ") 97%N (JS.lit "uth ") eq_refl ltac:(lia)) as (_ & ->).
      destruct (digit_is_no_word c t Dc (JS.lit "api") 97%N (JS.lit "pi") eq_refl ltac:(lia)) as (-> & _).
      destruct (digit_is_no_word c t Dc (JS.lit "api ") 97%N (JS.lit "pi ") eq_refl ltac:(lia)) as (_ & ->).
      destruct (digit_is_no_word c t Dc (JS.lit "port") 112%N (JS.lit "ort") eq_refl ltac:(lia)) as (-> & _).
      destruct (digit_is_no_word c t Dc (JS.lit "port ") 112%N (JS.lit "ort ") eq_refl ltac:(lia)) as (_ & ->).
      destruct (digit_is_no_word c t Dc (JS.lit "status") 115%N (JS.lit "tatus") eq_refl ltac:(lia)) as (-> & _).
      cbn [orb JS.orDefault isEmpty]. rewrite andb_false_r.
      rewrite <- Dec, parseInt_decimal. unfold Text.orNumber, port.
      destruct (N.eqb_spec n 0) as [-> | NZ]; [reflexivity|].
      destruct (Z.eqb_spec (Z.of_N n) 0); [lia | reflexivity]. }
    assert ((if isRunning (snd (stop st)) then snd (stop (snd (stop st)))
             else snd (stop st)) = snd (stop st)) as St.
    { destruct (stop_running st) as (_ & ->). reflexivity. }
    split; [|split].
    + rewrite R, startAndNotify_state, start_after_stop. reflexivity.
    + intros html -> Le. rewrite R.
      assert (validPort port = true) as V.
      { unfold validPort, port. apply andb_true_iff.
        destruct (n =? 0)%N; split; apply Z.leb_le; lia. }
      unfold startAndNotify, start. rewrite St, V.
      unfold finish, stateOf, notesOf, errorOf, getPort, isRunning.
      cbn [fst snd server serverPort sockets]. repeat split.
    + intros html -> Gt PR. rewrite R.
      assert (validPort port = false) as V.
      { unfold validPort, port. apply andb_false_iff. right.
        destruct (N.eqb_spec n 0); [lia|]. apply Z.leb_gt. lia. }
      unfold startAndNotify, start. rewrite St, V.
      unfold stateOf, notesOf, errorOf, getPort, isRunning.
      cbn [fst snd server serverPort sockets]. repeat split.
      unfold stop. destruct (server st) eqn:S; cbn [snd serverPort];
        [reflexivity | apply PR, S].
Qed.

(** ** What every command keeps *)

(** The handler ends in one of two ways: with one notification, after at
most one call that leaves the registry and the read token alone, or with
the notification that follows [start]. *)
Lemma webCommand_shape (dashboard : Exc jsstring) (args : option jsstring) st :
  (exists st' n,
      webCommand dashboard args st = finish st' n /\
      mounts st' = mounts st /\ apiReadToken st' = apiReadToken st) \/
  (exists p st1 message,
      webCommand dashboard args st = startAndNotify dashboard p st1 message /\
      (st1 = st \/ st1 = snd (stop st))).
Proof.
  assert (mounts (snd (stop st)) = mounts st /\
          apiReadToken (snd (stop st)) = apiReadToken st) as Stop.
  { destruct (stop_configuration st) as (M & _ & _ & R). split; assumption. }
  unfold webCommand.
  set (arg := match args with Some a => Text.trim a | None => [] end).
  destruct (JS.eqb arg (JS.lit "stop")).
  { left. do 2 eexists. split; [reflexivity | exact Stop]. }
  destruct (JS.eqb arg (JS.lit "auth") || JS.startsWith arg (JS.lit "auth ")).
  { cbv zeta. set (authArg := Text.trim (JS.slice arg 5 None)).
    destruct (isEmpty authArg || JS.eqb authArg (JS.lit "status")).
    { left. do 2 eexists. split; [reflexivity | split; reflexivity]. }
    destruct (JS.eqb authArg (JS.lit "off")).
    { left. do 2 eexists. split; [reflexivity | split; reflexivity]. }
    destruct (negb (JS.indexOf authArg (JS.lit ":") =? -1)%Z);
      left; do 2 eexists; (split; [reflexivity | split; reflexivity]). }
  destruct (JS.eqb arg (JS.lit "api") || JS.startsWith arg (JS.lit "api ")).
  { cbv zeta. set (apiArg := Text.trim (JS.slice arg 4 None)).
    destruct (isEmpty apiArg || JS.eqb apiArg (JS.lit "status")).
    { left. do 2 eexists. split; [reflexivity | split; reflexivity]. }
    destruct (JS.eqb apiArg (JS.lit "off"));
      left; do 2 eexists; (split; [reflexivity | split; reflexivity]). }
  destruct (JS.eqb arg (JS.lit "port") || JS.startsWith arg (JS.lit "port ")).
  { cbv zeta. set (portArg := Text.trim (JS.slice arg 5 None)).
    destruct (isEmpty portArg).
    { left. do 2 eexists. split; [reflexivity | split; reflexivity]. }
    destruct (Text.parseInt portArg) as [|p];
      cbn [Text.isNaN Text.below Text.above orb].
    { left. do 2 eexists. split; [reflexivity | split; reflexivity]. }
    destruct ((p <? 1)%Z || (p >? 65535)%Z).
    { left. do 2 eexists. split; [reflexivity | split; reflexivity]. }
    right. do 3 eexists. split; [reflexivity | left; reflexivity]. }
  destruct (JS.eqb arg (JS.lit "status")).
  { destruct (negb (isRunning st));
      left; do 2 eexists; (split; [reflexivity | split; reflexivity]). }
  cbv zeta. destruct (fst (stop st) && isEmpty arg).
  { left. do 2 eexists. split; [reflexivity | exact Stop]. }
  right. do 3 eexists. split; [reflexivity | right; reflexivity].
Qed.

(** X22. No command text makes the /web command touch the registry or the
read token. The handler gives exactly one notification and ends normally,
or it gives none and ends with an exception, and that only when it called
[start] and the dashboard file could not be read or [listen] refused the
port; no port is recorded then, when the state before recorded a port only
for a running server, as every reachable state does. *)
Theorem command_keeps_registry
        (dashboard : Exc jsstring) (args : option jsstring) st :
  let r := webCommand dashboard args st in
  mounts (stateOf r) = mounts st /\
  apiReadToken (stateOf r) = apiReadToken st /\
  ((errorOf r = None /\ exists n, notesOf r = [n]) \/
   (exists e,
       errorOf r = Some e /\ notesOf r = [] /\
       (dashboard = Throw e \/ e = mkError (JS.lit "ERR_SOCKET_BAD_PORT")) /\
       (PortOnlyWhenRunning st -> getPort (stateOf r) = None))).
Proof.
  cbv zeta.
  destruct (webCommand_shape dashboard args st)
    as [(st' & n & -> & M & R) | (p & st1 & message & -> & Hst1)].
  - unfold finish, stateOf, notesOf, errorOf. cbn [fst snd].
    split; [exact M|]. split; [exact R|]. left. split; [reflexivity|].
    exists n. reflexivity.
  - assert (mounts st1 = mounts st /\ apiReadToken st1 = apiReadToken st /\
            (PortOnlyWhenRunning st -> serverPort (snd (stop st1)) = None))
      as (M1 & R1 & P1).
    { assert (PortOnlyWhenRunning st -> serverPort (snd (stop st)) = None) as PS.
      { intros PR. unfold stop. destruct (server st) eqn:S; cbn [snd serverPort];
          [reflexivity | apply PR, S]. }
      destruct Hst1 as [-> | ->]; [repeat split; exact PS|].
      destruct (stop_configuration st) as (M & _ & _ & R).
      split; [exact M|]. split; [exact R|]. intros PR.
      destruct (stop_running st) as (_ & Off).
      unfold stop at 1. unfold isRunning in Off.
      destruct (server (snd (stop st))); [discriminate|]. cbn [snd].
      apply PS, PR. }
    destruct (start_configuration dashboard (Some p) st1) as (M & _ & _ & R).
    pose proof (startAndNotify_state dashboard p st1 message) as SS.
    split; [rewrite SS, M; exact M1|]. split; [rewrite SS, R; exact R1|].
    unfold startAndNotify, start.
    assert ((if isRunning st1 then snd (stop st1) else st1) = snd (stop st1)) as St.
    { unfold isRunning, stop. destruct (server st1); reflexivity. }
    rewrite St. destruct dashboard as [html|e].
    + destruct (validPort p).
      * left. split; [reflexivity|]. eexists. reflexivity.
      * right. eexists. split; [reflexivity|]. split; [reflexivity|].
        split; [right; reflexivity|]. intros PR.
        unfold stateOf, getPort. cbn [fst snd serverPort]. apply P1, PR.
    + right. exists e. split; [reflexivity|]. split; [reflexivity|].
      split; [left; reflexivity|]. intros PR.
      unfold stateOf, getPort. cbn [fst snd]. apply P1, PR.
Qed.

(** X23. The session start takes the credentials from the environment as
they are, without trimming: a value of PI_WEB_AUTH that is not empty
becomes the credential in the way of /web auth (before the first colon the
user, after it the password, the user pi without a colon), and the gate
then lets a request pass exactly when its Basic value decodes to it; a
value of API_TOKEN that is not empty becomes the token. A variable that is
not set or empty changes nothing. The handler neither starts nor stops the
server nor touches the registry, and its last effect, the only event it
emits, is web:ready. *)
Theorem session_start_bootstrap (envAuth envApiToken : option jsstring) st :
  let st' := fst (sessionStart envAuth envApiToken st) in
  let effects := snd (sessionStart envAuth envApiToken st) in
  (forall v,
      envAuth = Some v -> v <> [] ->
      (exists creds,
          authCredentials st' = Some creds /\
          username creds ++ colon :: password creds = credentialText v) /\
      forall decode, AcceptsOnly decode st' (credentialText v)) /\
  (JS.truthy envAuth = false -> authCredentials st' = authCredentials st) /\
  (forall t, envApiToken = Some t -> t <> [] -> apiToken st' = Some t) /\
  (JS.truthy envApiToken = false -> apiToken st' = apiToken st) /\
  mounts st' = mounts st /\ apiReadToken st' = apiReadToken st /\
  SameLifeCycle st' st /\
  (exists notes,
      effects = List.map Notify notes ++ [Emit (JS.lit "web:ready")] /\
      List.length notes
      = ((if JS.truthy envAuth then 1 else 0)
         + (if JS.truthy envApiToken then 1 else 0))%nat).
Proof.
  cbv zeta. unfold sessionStart. cbv zeta. cbn [fst snd].
  pose proof (credential_stored (JS.orElse envAuth []) st) as CS.
  cbv zeta in CS. destruct CS as (creds & St & _ & Tx & NI).
  set (withAuth :=
         if negb (JS.indexOf (JS.orElse envAuth []) (JS.lit ":") =? -1)%Z
         then setAuth (Some (mkAuthConfig
                (Some (JS.slice (JS.orElse envAuth []) 0
                   (Some (JS.indexOf (JS.orElse envAuth []) (JS.lit ":")))))
                (JS.slice (JS.orElse envAuth [])
                   (JS.indexOf (JS.orElse envAuth []) (JS.lit ":") + 1) None))) st
         else setAuth (Some (mkAuthConfig None (JS.orElse envAuth []))) st) in *.
  assert (authCredentials withAuth = Some creds /\ apiToken withAuth = apiToken st
          /\ mounts withAuth = mounts st /\ apiReadToken withAuth = apiReadToken st
          /\ SameLifeCycle withAuth st) as (A1 & A2 & A3 & A4 & A5).
  { rewrite St. repeat split. }
  clearbody withAuth. clear St.
  assert (forall v, envAuth = Some v -> v <> [] -> JS.truthy envAuth = true) as TA.
  { intros v -> NE. destruct v; [congruence | reflexivity]. }
  assert (forall t, envApiToken = Some t -> t <> [] ->
                    JS.truthy envApiToken = true) as TT.
  { intros t -> NE. destruct t; [congruence | reflexivity]. }
  split; [|split; [|split; [|split]]].
  - intros v E NE. rewrite (TA v E NE). cbn [fst]. rewrite E in Tx.
    cbn [JS.orElse] in Tx.
    assert (authCredentials
              (fst (if JS.truthy envApiToken
                    then (setApiToken envApiToken withAuth,
                          [Notify (info (JS.lit "API token auth configured from API_TOKEN"))])
                    else (withAuth, []))) = Some creds) as AC.
    { destruct (JS.truthy envApiToken); cbn [fst]; exact A1. }
    split; [exists creds; split; [exact AC | exact Tx]|].
    intros decode. rewrite <- Tx. apply accepts_only; [exact AC | exact NI].
  - intros ->. cbn [fst]. destruct (JS.truthy envApiToken); reflexivity.
  - intros t E NE. rewrite (TT t E NE). cbn [fst]. exact E.
  - intros ->. cbn [fst]. destruct (JS.truthy envAuth); [exact A2 | reflexivity].
  - destruct A5 as (L1 & L2 & L3). unfold SameLifeCycle.
    destruct (JS.truthy envAuth), (JS.truthy envApiToken);
      cbn [fst snd app setApiToken mounts apiReadToken server serverPort sockets];
      (split; [first [exact A3 | reflexivity]|]);
      (split; [first [exact A4 | reflexivity]|]);
      (split; [first [exact (conj L1 (conj L2 L3)) | repeat split]|]).
    + eexists [_; _]. split; reflexivity.
    + eexists [_]. split; reflexivity.
    + eexists [_]. split; reflexivity.
    + exists []. split; reflexivity.
Qed.

(** X24. The session shutdown leaves nothing listening. Whatever events came
before, after the shutdown handler no server is running, no port is
recorded and every socket that was opened has been closed; the registry,
the credentials and the tokens stay as they were, and a second shutdown
changes nothing. Before it, at most one socket was ever open at a time. *)
Theorem shutdown_closes_the_socket
        (events : list (ExtensionEvent RouteHandler)) :
  let st := handleEvents events initialState in
  let off := handleEvents (events ++ [SessionShutdown]) initialState in
  NeverTwoSockets (sockets st) /\
  isRunning off = false /\ getPort off = None /\ getUrl off = None /\
  openSockets (sockets off) = [] /\
  NeverTwoSockets (sockets off) /\
  SameConfiguration off st /\
  handleEvents (events ++ [SessionShutdown; SessionShutdown]) initialState = off.
Proof.
  cbv zeta. unfold handleEvents. rewrite !fold_left_app.
  cbn [fold_left handleEvent]. fold (handleEvents events (@initialState RouteHandler)).
  destruct (handleEvents_calls events initialState) as (calls & _ & ->).
  assert (SocketsMatchPort (performAll calls (@initialState RouteHandler))) as Inv.
  { apply performAll_invariant; [apply perform_sockets|].
    split; [reflexivity|]. split; [intros p H; discriminate|].
    intros n. destruct n; cbn; lia. }
  set (st := performAll calls initialState) in *.
  destruct (stop_sockets RouteHandler st Inv) as ((O & L & N) & P & S).
  unfold sessionShutdown.
  split; [apply Inv|]. split; [unfold isRunning; rewrite S; reflexivity|].
  split; [exact P|]. split; [unfold getUrl; rewrite P; reflexivity|].
  split; [rewrite O, P; reflexivity|]. split; [exact N|].
  split; [apply stop_configuration|].
  unfold stop at 1. rewrite S. reflexivity.
Qed.

(** What the commands that only report answer. *)
Lemma report_commands (dashboard : Exc jsstring) (a : jsstring) st :
  (Text.trim a = JS.lit "status" ->
   webCommand dashboard (Some a) st
   = finish st (info (if negb (isRunning st)
                      then JS.lit "Web server is not running"
                      else statusMessage st))) /\
  (Text.trim a = JS.lit "auth" \/ Text.trim a = JS.lit "auth status" ->
   webCommand dashboard (Some a) st
   = finish st (info (match getAuth st with
                      | AuthEnabled user =>
                          JS.lit "Auth enabled (user: " ++ user ++ JS.lit ")"
                      | AuthDisabled => JS.lit "Auth disabled"
                      end))) /\
  (Text.trim a = JS.lit "api" \/ Text.trim a = JS.lit "api status" ->
   webCommand dashboard (Some a) st = finish st (info (apiStatusMessage st))) /\
  (Text.trim a = JS.lit "port" ->
   webCommand dashboard (Some a) st
   = finish st (info (match getPort st with
                      | Some current =>
                          if (current =? 0)%Z
                          then JS.lit "Web server is not running"
                          else JS.lit "Current port: "
                                      ++ Text.decimal (Z.to_N current)
                      | None => JS.lit "Web server is not running"
                      end))).
Proof.
  split; [|split; [|split]].
  - intros T. unfold webCommand. rewrite T.
    destruct (negb (isRunning st)); reflexivity.
  - intros [T | T]; unfold webCommand; rewrite T; reflexivity.
  - intros [T | T]; unfold webCommand; rewrite T; reflexivity.
  - intros T. unfold webCommand. rewrite T. reflexivity.
Qed.

(** X25. The reports of the command show no secret. For two states that
differ at most in the password and in the contents of the tokens, each of
/web status, /web auth, /web auth status, /web api, /web api status and
/web port gives the same single notification in both, and changes neither
state. *)
Theorem reports_hide_secrets
        (dashboard : Exc jsstring) (w1 w3 word : jsstring)
        (st1 st2 : State RouteHandler) :
  Blank w1 -> Blank w3 ->
  In word [JS.lit "status"; JS.lit "auth"; JS.lit "auth status";
           JS.lit "api"; JS.lit "api status"; JS.lit "port"] ->
  SameButSecrets st1 st2 -> mounts st1 = mounts st2 -> SameLifeCycle st1 st2 ->
  let r1 := webCommand dashboard (Some (w1 ++ word ++ w3)) st1 in
  let r2 := webCommand dashboard (Some (w1 ++ word ++ w3)) st2 in
  stateOf r1 = st1 /\ stateOf r2 = st2 /\
  notesOf r1 = notesOf r2 /\ (exists n, notesOf r1 = [n]) /\
  errorOf r1 = None /\ errorOf r2 = None.
Proof.
  intros B1 B3 W (A & T & R) M (L1 & L2 & L3) r1 r2.
  assert (getAuth st1 = getAuth st2) as GA.
  { unfold getAuth. destruct (authCredentials st1), (authCredentials st2);
      try contradiction; [f_equal; exact A | reflexivity]. }
  assert (enabled (getApiTokenStatus st1) = enabled (getApiTokenStatus st2)) as GT.
  { unfold getApiTokenStatus. cbn [enabled].
    destruct (apiToken st1), (apiToken st2); try reflexivity; exfalso;
      destruct T as [T1 T2];
      (discriminate (T1 eq_refl) || discriminate (T2 eq_refl)). }
  assert (getMounts st1 = getMounts st2) as GM
      by (unfold getMounts; rewrite M; reflexivity).
  assert (statusMessage st1 = statusMessage st2) as SM.
  { unfold statusMessage, getUrl. cbv zeta. rewrite GA, GT, GM, L2. reflexivity. }
  assert (apiStatusMessage st1 = apiStatusMessage st2) as AM.
  { unfold apiStatusMessage, getApiMounts. cbv zeta. rewrite GT, GM. reflexivity. }
  assert (isRunning st1 = isRunning st2) as IR
      by (unfold isRunning; rewrite L1; reflexivity).
  assert (Text.trim word = word) as TW.
  { cbn [In] in W.
    destruct W as [<- | [<- | [<- | [<- | [<- | [<- | []]]]]]]; reflexivity. }
  pose proof (trim_padded w1 word w3 B1 B3 TW) as TP.
  destruct (report_commands dashboard (w1 ++ word ++ w3) st1) as (S1 & A1 & P1 & Q1).
  destruct (report_commands dashboard (w1 ++ word ++ w3) st2) as (S2 & A2 & P2 & Q2).
  rewrite TP in *. unfold r1, r2, stateOf, notesOf, errorOf. cbn [In] in W.
  destruct W as [<- | [<- | [<- | [<- | [<- | [<- | []]]]]]].
  - rewrite (S1 eq_refl), (S2 eq_refl). unfold finish. cbn [fst snd].
    rewrite IR, SM. repeat split. eexists; reflexivity.
  - rewrite (A1 (or_introl eq_refl)), (A2 (or_introl eq_refl)).
    unfold finish. cbn [fst snd]. rewrite GA. repeat split. eexists; reflexivity.
  - rewrite (A1 (or_intror eq_refl)), (A2 (or_intror eq_refl)).
    unfold finish. cbn [fst snd]. rewrite GA. repeat split. eexists; reflexivity.
  - rewrite (P1 (or_introl eq_refl)), (P2 (or_introl eq_refl)).
    unfold finish. cbn [fst snd]. rewrite AM. repeat split. eexists; reflexivity.
  - rewrite (P1 (or_intror eq_refl)), (P2 (or_intror eq_refl)).
    unfold finish. cbn [fst snd]. rewrite AM. repeat split. eexists; reflexivity.
  - rewrite (Q1 eq_refl), (Q2 eq_refl).
    unfold finish, getPort. cbn [fst snd]. rewrite L2. repeat split.
    eexists; reflexivity.
Qed.

End ExtensionUse.

(* ================================================================== *)
(** * The properties on examples *)
(* ================================================================== *)

(** Registering the name sub again in a registry of ext, sub and twin
replaces the entry where it stands. *)
Lemma mount_upserts_witness :
  reachable extAndSub /\
  getMounts (mount remount extAndSub)
  = upsert (infoOf remount) (getMounts extAndSub) /\
  List.map infoPrefix (getMounts (mount remount extAndSub))
  = [JS.lit "/ext"; JS.lit "/other"; JS.lit "/ext"].
Proof.
  assert (reachable extAndSub) as R by (exists extAndSubCalls; reflexivity).
  split; [exact R|].
  split; [exact (mount_upserts unit extAndSub remount R) | reflexivity].
Defined.

(** Removing sub from the same registry. *)
Lemma unmount_removes_witness :
  reachable extAndSub /\
  fst (unmount (JS.lit "sub") extAndSub)
  = existsb (isNamed (JS.lit "sub")) (getMounts extAndSub) /\
  getMounts (snd (unmount (JS.lit "sub") extAndSub))
  = filter (fun info => negb (isNamed (JS.lit "sub") info)) (getMounts extAndSub) /\
  unmount (JS.lit "sub") (snd (unmount (JS.lit "sub") extAndSub))
  = (false, snd (unmount (JS.lit "sub") extAndSub)).
Proof.
  assert (reachable extAndSub) as R by (exists extAndSubCalls; reflexivity).
  split; [exact R|].
  exact (unmount_removes unit extAndSub (JS.lit "sub") R).
Defined.

(** The name docs is new to the registry: registering and removing it
gives the registry back. *)
Lemma unmount_undoes_mount_witness :
  fst (unmount (name docsMount) extAndSub) = false /\
  unmount (name docsMount) (mount docsMount extAndSub) = (true, extAndSub).
Proof.
  split; [reflexivity|].
  exact (unmount_undoes_mount unit extAndSub docsMount eq_refl).
Defined.

(** After sub is removed, /ext/sub/x goes to ext. *)
Lemma routing_follows_registry_witness :
  reachable extAndSub /\
  route (mounts (snd (unmount (JS.lit "sub") extAndSub))) (pathname subPage)
  = Some (stored "ext" "/ext", JS.lit "/sub/x") /\
  name (stored "ext" "/ext") <> JS.lit "sub".
Proof.
  assert (reachable extAndSub) as R by (exists extAndSubCalls; reflexivity).
  assert (route (mounts (snd (unmount (JS.lit "sub") extAndSub))) (pathname subPage)
          = Some (stored "ext" "/ext", JS.lit "/sub/x")) as H by reflexivity.
  split; [exact R|]. split; [exact H|].
  exact (proj1 (routing_follows_registry unit extAndSub (pathname subPage) R)
               (JS.lit "sub") (stored "ext" "/ext") (JS.lit "/sub/x") H).
Defined.

(** The prefixes ext/sub, ext/sub// and /ext/sub are one prefix. *)
Lemma mount_ignores_slash_spelling_witness :
  let c := sampleMount "sub" "ext/sub" None in
  Forall (fun u => u = JS.slash) (JS.lit "//") /\
  mount (withPrefix c (prefix c ++ JS.lit "//")) initialState
  = mount c initialState /\
  mount (withPrefix c (JS.lit "/" ++ prefix c)) initialState
  = mount c initialState.
Proof.
  cbv zeta.
  assert (Forall (fun u => u = JS.slash) (JS.lit "//")) as F
      by (repeat constructor).
  destruct (mount_ignores_slash_spelling
              unit initialState (sampleMount "sub" "ext/sub" None) (JS.lit "//") F)
    as (_ & H2 & _ & H4).
  split; [exact F|]. split; [exact H2 | exact (proj1 (H4 eq_refl))].
Defined.

(** The handler of sub receives /x for /ext/sub/x. *)
Lemma subPath_begins_with_slash_witness :
  route (mounts extAndSub) (pathname subPage)
  = Some (stored "sub" "/ext/sub", JS.lit "/x") /\
  BeginsWithSlash (JS.lit "/x") /\
  (pathname subPage = prefix (stored "sub" "/ext/sub") ++ JS.lit "/x" \/
   (pathname subPage = prefix (stored "sub" "/ext/sub") /\
    JS.lit "/x" = JS.lit "/")).
Proof.
  assert (route (mounts extAndSub) (pathname subPage)
          = Some (stored "sub" "/ext/sub", JS.lit "/x")) as H by reflexivity.
  split; [exact H|].
  exact (subPath_begins_with_slash unit (mounts extAndSub) (pathname subPage)
                                   (stored "sub" "/ext/sub") (JS.lit "/x") H).
Defined.

(** With the password secret configured, a request without credentials
gets the 401. *)
Lemma general_namespace_needs_session_witness :
  let req := request "GET" "/ext" None in
  method req <> JS.lit "OPTIONS" /\
  isApiPath (pathname req) = false /\
  ~ SessionPasses noDecoding piSecret req /\
  handleRequest noDecoding piSecret sampleServer req
  = Finished (unauthorized corsResponse).
Proof.
  cbv zeta.
  assert (~ SessionPasses noDecoding piSecret (request "GET" "/ext" None)) as NP.
  { intros [H | (c & _ & enc & H & _)]; discriminate H. }
  split; [discriminate|]. split; [reflexivity|]. split; [exact NP|].
  refine (general_namespace_needs_session
            unit noDecoding piSecret sampleServer (request "GET" "/ext" None)
            _ eq_refl NP).
  discriminate.
Defined.

(** Without credentials configured, /ext/sub/x reaches the handler of
sub. *)
Lemma general_namespace_dispatch_witness :
  method subPage <> JS.lit "OPTIONS" /\
  isApiPath (pathname subPage) = false /\
  SessionPasses noDecoding extAndSub subPage /\
  handleRequest noDecoding extAndSub sampleServer subPage
  = Invoked corsResponse (stored "sub" "/ext/sub") (JS.lit "/x").
Proof.
  assert (method subPage <> JS.lit "OPTIONS") as M by discriminate.
  assert (SessionPasses noDecoding extAndSub subPage) as P by (left; reflexivity).
  split; [exact M|]. split; [reflexivity|]. split; [exact P|].
  destruct (general_namespace_dispatch
              unit noDecoding extAndSub sampleServer subPage M eq_refl P)
    as (_ & _ & H3).
  destruct (H3 eq_refl eq_refl) as (H4 & _).
  exact (H4 (stored "sub" "/ext/sub") (JS.lit "/x") eq_refl).
Defined.

(** Under /api the session credentials make no difference. *)
Lemma auth_layers_are_independent_witness :
  let req := request "GET" "/api/x" None in
  mounts piSecret = mounts tokensFR /\
  handleRequest noDecoding piSecret sampleServer req
  = handleRequest noDecoding tokensFR sampleServer req.
Proof.
  cbv zeta. split; [reflexivity|].
  exact (proj1 (auth_layers_are_independent
                  unit noDecoding piSecret tokensFR sampleServer
                  (request "GET" "/api/x" None) eq_refl)
               eq_refl eq_refl eq_refl).
Defined.

(** /web auth ann:secret, with blanks between and after. *)
Lemma auth_command_sets_credential_witness :
  let r := webCommand sampleDashboard
                      (Some ([] ++ JS.lit "auth " ++ space
                                ++ JS.lit "ann:secret" ++ space))
                      (@initialState unit) in
  Blank space /\
  Text.trim (JS.lit "ann:secret") = JS.lit "ann:secret" /\
  authCredentials (stateOf r)
  = Some (mkCredentials (JS.lit "ann") (JS.lit "secret")) /\
  AcceptsOnly noDecoding (stateOf r) (JS.lit "ann:secret").
Proof.
  cbv zeta.
  assert (Blank space) as B by (repeat constructor).
  destruct (auth_command_sets_credential
              unit sampleDashboard [] space space (JS.lit "ann:secret")
              initialState (Forall_nil _) B B eq_refl
              ltac:(discriminate) ltac:(discriminate) ltac:(discriminate))
    as (creds & _ & _ & H3 & _).
  split; [exact B|]. split; [reflexivity|]. split; [reflexivity|].
  exact (H3 noDecoding).
Defined.

(** /web api s3cret. *)
Lemma api_command_sets_token_witness :
  let r := webCommand sampleDashboard
                      (Some ([] ++ JS.lit "api " ++ space
                                ++ JS.lit "s3cret" ++ []))
                      (@initialState unit) in
  Blank space /\
  apiToken (stateOf r) = Some (JS.lit "s3cret") /\
  checkApiAuth (stateOf r) (request "GET" "/api/x" (header "Bearer s3cret"))
               corsResponse
  = Ok (true, corsResponse) /\
  checkApiAuth (stateOf r) (request "GET" "/api/x" None) corsResponse
  = Ok (false, invalidToken corsResponse).
Proof.
  cbv zeta.
  assert (Blank space) as B by (repeat constructor).
  destruct (api_command_sets_token
              unit sampleDashboard [] space [] (JS.lit "s3cret")
              initialState (Forall_nil _) B (Forall_nil _) eq_refl
              ltac:(discriminate) ltac:(discriminate))
    as (H1 & _ & H3 & _).
  split; [exact B|]. split; [exact H1|].
  assert (JS.lit "s3cret" <> JS.lit "off") as NO by discriminate.
  split.
  - exact (proj1 (H3 NO (request "GET" "/api/x" (header "Bearer s3cret"))
                     corsResponse) eq_refl).
  - exact (proj2 (H3 NO (request "GET" "/api/x" None) corsResponse) eq_refl).
Defined.

(** The user a:b with the password pw: the credential a:b:pw is refused. *)
Lemma colon_in_username_locks_out_witness :
  let req := request "GET" "/" (header "Basic a:b:pw") in
  cfgUsername colonUser = Some (JS.lit "a:b") /\
  In colon (JS.lit "a:b") /\
  ~ SessionPasses noDecoding (setAuth (Some colonUser) (@initialState unit)) req /\
  handleRequest noDecoding (setAuth (Some colonUser) (@initialState unit))
                sampleServer req
  = Finished (unauthorized corsResponse).
Proof.
  cbv zeta.
  assert (In colon (JS.lit "a:b")) as I by (right; left; reflexivity).
  destruct (colon_in_username_locks_out
              unit noDecoding initialState colonUser (JS.lit "a:b") eq_refl I
              sampleServer (request "GET" "/" (header "Basic a:b:pw")))
    as (H1 & H2).
  split; [reflexivity|]. split; [exact I|]. split; [exact H1|].
  apply H2; [discriminate | reflexivity].
Defined.

(** /web port 8080 while the server runs on 4100. *)
Lemma port_command_restarts_witness :
  let r := webCommand sampleDashboard
                      (Some (space ++ JS.lit "port " ++ space
                                   ++ JS.lit "8080" ++ space))
                      started in
  Blank space /\
  Text.parseInt (JS.lit "8080") = Text.Int 8080 /\
  getPort (stateOf r) = Some 8080%Z /\
  notesOf r
  = [info (JS.lit "Web server restarted on port 8080: http://localhost:8080")] /\
  SameConfiguration (stateOf r) started.
Proof.
  cbv zeta.
  assert (Blank space) as B by (repeat constructor).
  destruct (port_command_restarts
              unit sampleDashboard space space space (JS.lit "8080") started
              B B B eq_refl ltac:(discriminate))
    as (H1 & _ & H3).
  destruct (H1 8080%Z eq_refl ltac:(lia)) as (H4 & _).
  destruct (H4 (JS.lit "<html>") eq_refl) as (_ & P & _ & N & _).
  split; [exact B|]. split; [reflexivity|]. split; [exact P|].
  split; [exact N | exact H3].
Defined.

(** /web 8080 and the bare /web while the server runs on 4100. *)
Lemma toggle_command_witness :
  let bare := webCommand sampleDashboard (Some (space ++ [])) started in
  let numbered :=
    webCommand sampleDashboard (Some (space ++ Text.decimal 8080 ++ [])) started in
  Blank space /\
  bare = (snd (stop started), [info (JS.lit "Web server stopped")], None) /\
  stateOf numbered = snd (start sampleDashboard (Some 8080%Z) started) /\
  getPort (stateOf numbered) = Some 8080%Z.
Proof.
  cbv zeta.
  assert (Blank space) as B by (repeat constructor).
  destruct (toggle_command unit sampleDashboard space [] 8080%N started
                           B (Forall_nil _) eq_refl)
    as (_ & H2 & _ & H4 & H5 & _).
  destruct (H5 (JS.lit "<html>") eq_refl ltac:(lia)) as (_ & P & _).
  split; [exact B|]. split; [exact (H2 eq_refl)|]. split; [exact H4 | exact P].
Defined.

(** /web status in two running configurations that differ in the password
and in the tokens. *)
Lemma reports_hide_secrets_witness :
  let r1 := webCommand sampleDashboard
                       (Some ([] ++ JS.lit "status" ++ [])) runningSecret in
  let r2 := webCommand sampleDashboard
                       (Some ([] ++ JS.lit "status" ++ [])) runningOther in
  SameButSecrets runningSecret runningOther /\
  mounts runningSecret = mounts runningOther /\
  SameLifeCycle runningSecret runningOther /\
  authCredentials runningSecret <> authCredentials runningOther /\
  notesOf r1 = notesOf r2.
Proof.
  cbv zeta.
  assert (SameButSecrets runningSecret runningOther) as S.
  { split; [reflexivity|]. split; split; discriminate. }
  assert (SameLifeCycle runningSecret runningOther) as L by (repeat split).
  destruct (reports_hide_secrets
              unit sampleDashboard [] [] (JS.lit "status")
              runningSecret runningOther (Forall_nil _) (Forall_nil _)
              (or_introl eq_refl) S eq_refl L)
    as (_ & _ & H & _).
  split; [exact S|]. split; [reflexivity|]. split; [exact L|].
  split; [discriminate | exact H].
Defined.
